(** * SoftLance document stores: JsonDatabase and MongoDatabase

    A shallow embedding of the dot-path document store of
    [src/lib/database/JsonDatabase.ts] and [src/lib/database/MongoDatabase.ts],
    and the properties of its operations.

    Modelling choices, all visible in the definitions below:
    - a stored value is JSON data ([Value]); [undefined] is [None] of an
      [option Value], as an argument and as a result;
    - a number is a double that is an integer ([Z]); a sum or a difference
      is rounded as the host rounds it ([round_double]), an infinity being
      written to the file as null; fractions are outside the model;
    - an object is an association list with unique keys, in the order in
      which the host lists them: the array indices first, ascending, then
      the other names as they came ([update]);
    - a string is its sequence of code units, text outside ASCII being kept
      in its byte encoding (which preserves equality of strings);
    - log lines are reduced to the [Report] an operation ends with;
    - the file is read and written without failure, a file that cannot be
      read being [None]; of the remote collection findOne, save, deleteOne,
      deleteMany and find are modelled.  save writes the value of a record
      only where the library sees a change: a new record, or a path that
      was given another object than the one it had (the type of the value
      is Mixed and the source never calls markModified).  It refuses an
      empty key and a null value, which the schema requires, and it leaves
      empty objects out (the option minimize): a write of a value that
      holds one is [Beyond];
    - property names that a value inherits from the prototypes of the host
      (toString, constructor, __proto__, ...) are a parameter [host]; an
      operation whose key, or whose probe object, uses such a name answers
      [Unmodelled].

    The file also embeds the request limiter of [src/lib/server/rateLimiter.ts]
    ([RateLimiter]: times, [windowMs] and [limit] are integers, the clock of
    a request is an argument, the shared map is an association list) and the
    text of a captcha with its check ([Captcha]: the random bytes are an
    argument, the picture and the hash are left out). *)

From Stdlib Require Import List String Ascii ZArith NArith Bool Lia.
From Stdlib Require Import DecimalString DecimalN.
Import ListNotations.
Local Open Scope string_scope.
Local Open Scope list_scope.

Set Implicit Arguments.

(** ** Values *)

Unset Elimination Schemes.
Inductive Value : Type :=
| VNull
| VBool (b : bool)
| VNum (n : Z)
| VStr (s : string)
| VArr (items : list Value)
| VObj (fields : list (string * Value)).
Set Elimination Schemes.

Definition Fields := list (string * Value).

(** Induction on values, with the hypothesis for every item of an array and
    every field of an object. *)
Fixpoint Value_ind (P : Value -> Prop)
    (Hnull : P VNull) (Hbool : forall b, P (VBool b))
    (Hnum : forall n, P (VNum n)) (Hstr : forall s, P (VStr s))
    (Harr : forall l, Forall P l -> P (VArr l))
    (Hobj : forall fs, Forall (fun kv => P (snd kv)) fs -> P (VObj fs))
    (v : Value) {struct v} : P v :=
  let rec := Value_ind Hnull Hbool Hnum Hstr Harr Hobj in
  match v with
  | VNull => Hnull
  | VBool b => Hbool b
  | VNum n => Hnum n
  | VStr s => Hstr s
  | VArr l =>
      Harr l ((fix items (l : list Value) : Forall P l :=
                 match l with
                 | [] => Forall_nil P
                 | x :: l' => Forall_cons x (rec x) (items l')
                 end) l)
  | VObj fs =>
      Hobj fs ((fix fields (fs : Fields) : Forall (fun kv => P (snd kv)) fs :=
                  match fs with
                  | [] => Forall_nil _
                  | kv :: fs' => Forall_cons kv (rec (snd kv)) (fields fs')
                  end) fs)
  end.

(** What an operation logs last. *)
Inductive Report : Type :=
| Done              (* the operation went through *)
| InvalidKey        (* "Invalid key provided. Key must be a non-empty string." *)
| InvalidValue      (* "Invalid value provided. Value cannot be undefined." *)
| NotFound          (* "Key ... not found in the database." *)
| NotANumber        (* "Key ... is not a number, cannot add/subtract." *)
| NotAnArray        (* "Key ... is not an array." *)
| PathMissing       (* "Key ... path does not exist." *)
| DoesNotExist      (* "Key ... does not exist." *)
| NoMatch           (* "No matching values found in key ..." *)
| InvalidApproval   (* "Invalid approval message." *)
| Failed.           (* an exception caught by the operation's try/catch *)

(** The result of the body of an operation: a value, an early return with a
    report (nothing is written), or a step outside the model. *)
Inductive Res (A : Type) : Type :=
| Ok (a : A)
| Stop (r : Report)
| Beyond.
Arguments Stop {A} r.
Arguments Beyond {A}.

Definition bind {A B : Type} (m : Res A) (f : A -> Res B) : Res B :=
  match m with
  | Ok a => f a
  | Stop r => Stop r
  | Beyond => Beyond
  end.

Notation "x <- m ;; k" := (bind m (fun x => k))
  (at level 61, m at next level, right associativity).

(** ** Keys *)

(** [key.split(".")] *)
Fixpoint split_dot (s : string) : list string :=
  match s with
  | EmptyString => [EmptyString]
  | String c rest =>
      if Ascii.eqb c "." then EmptyString :: split_dot rest
      else match split_dot rest with
           | seg :: segs => String c seg :: segs
           | [] => [String c EmptyString]
           end
  end.

(** [!key]: the only string that is falsy is the empty one. *)
Definition invalid_key (key : string) : bool := String.eqb key "".

(** The decimal name of an array index, [String(i)]. *)
Definition index_name (i : nat) : string :=
  NilEmpty.string_of_uint (N.to_uint (N.of_nat i)).

(** A property name is an array index when it is the canonical decimal name
    of an integer below 2^32 - 1. *)
Definition array_index (k : string) : option nat :=
  match NilEmpty.uint_of_string k with
  | Some u =>
      let n := N.of_uint u in
      if String.eqb (NilEmpty.string_of_uint (N.to_uint n)) k
         && (n <? 4294967295)%N
      then Some (N.to_nat n) else None
  | None => None
  end.

(** ** Objects, arrays and strings as property bags *)

Fixpoint lookup {A : Type} (k : string) (fs : list (string * A)) : option A :=
  match fs with
  | [] => None
  | (k', x) :: fs' => if String.eqb k k' then Some x else lookup k fs'
  end.

(** [obj[k] = x] for a property that [obj] has: it keeps its place. *)
Fixpoint replace_field {A : Type} (k : string) (x : A)
    (fs : list (string * A)) : list (string * A) :=
  match fs with
  | [] => []
  | (k', y) :: fs' =>
      if String.eqb k k' then (k', x) :: fs'
      else (k', y) :: replace_field k x fs'
  end.

(** A new property whose name is the array index [i]: the host lists the
    properties named by an index first, in ascending order, so it goes
    before the first property that is not named by a smaller index. *)
Fixpoint insert_index {A : Type} (i : nat) (k : string) (x : A)
    (fs : list (string * A)) : list (string * A) :=
  match fs with
  | [] => [(k, x)]
  | (k', y) :: fs' =>
      match array_index k' with
      | Some j =>
          if (j <? i)%nat then (k', y) :: insert_index i k x fs'
          else (k, x) :: fs
      | None => (k, x) :: fs
      end
  end.

(** [obj[k] = x] on an object: an existing property keeps its place; a new
    one goes among the indices when its name is one, and last otherwise. *)
Definition update {A : Type} (k : string) (x : A) (fs : list (string * A))
  : list (string * A) :=
  match lookup k fs with
  | Some _ => replace_field k x fs
  | None =>
      match array_index k with
      | Some i => insert_index i k x fs
      | None => fs ++ [(k, x)]
      end
  end.

(** [map.set(k, x)] on a Map, and the save of a record in a collection: an
    existing entry keeps its place, a new one goes last. *)
Fixpoint upsert {A : Type} (k : string) (x : A) (fs : list (string * A))
  : list (string * A) :=
  match fs with
  | [] => [(k, x)]
  | (k', y) :: fs' =>
      if String.eqb k k' then (k', x) :: fs' else (k', y) :: upsert k x fs'
  end.

(** [delete obj[k]] *)
Definition remove_key {A : Type} (k : string) (fs : list (string * A))
  : list (string * A) :=
  filter (fun kv => negb (String.eqb k (fst kv))) fs.

(** [arr[i] = x]; writing past the end leaves holes, which JSON text
    renders as null. *)
Fixpoint set_index (i : nat) (x : Value) (l : list Value) : list Value :=
  match i, l with
  | O, [] => [x]
  | O, _ :: l' => x :: l'
  | S j, [] => VNull :: set_index j x []
  | S j, y :: l' => y :: set_index j x l'
  end.

(** [arr.length = n] *)
Definition resize (n : nat) (l : list Value) : list Value :=
  firstn n l ++ repeat VNull (n - List.length l).

(** [arr.splice(i, 1)] *)
Fixpoint splice (i : nat) (l : list Value) : list Value :=
  match i, l with
  | _, [] => []
  | O, _ :: l' => l'
  | S j, y :: l' => y :: splice j l'
  end.

Definition char_at (i : nat) (s : string) : option Value :=
  match String.get i s with
  | Some c => Some (VStr (String c EmptyString))
  | None => None
  end.

(** [v[k]] for a property that [v] itself has: a field of an object, an
    element or the length of an array, a character or the length of a string.
    [None] is [undefined]. *)
Definition own_get (v : Value) (k : string) : option Value :=
  match v with
  | VObj fs => lookup k fs
  | VArr l =>
      match array_index k with
      | Some i => nth_error l i
      | None =>
          if String.eqb k "length" then Some (VNum (Z.of_nat (List.length l)))
          else None
      end
  | VStr s =>
      match array_index k with
      | Some i => char_at i s
      | None =>
          if String.eqb k "length" then Some (VNum (Z.of_nat (String.length s)))
          else None
      end
  | _ => None
  end.

(** [!v] is false and [typeof v === "object"]: objects and arrays (null is
    falsy). *)
Definition is_container (v : Value) : bool :=
  match v with
  | VObj _ | VArr _ => true
  | _ => false
  end.

(** [!v] is false. *)
Definition truthy (v : Value) : bool :=
  match v with
  | VNull => false
  | VBool b => b
  | VNum n => negb (Z.eqb n 0)
  | VStr s => negb (String.eqb s "")
  | VArr _ | VObj _ => true
  end.

(** [ToNumber(x)] where [arr.length = x] needs it.  An array is turned into
    the text of its elements joined by commas and that text into a number; an
    object gives NaN, or its conversion throws: a RangeError or a TypeError,
    which the try block of the caller catches.  Texts are not converted
    here. *)
Definition length_of (x : Value) : Res Z :=
  match x with
  | VNum n => Ok n
  | VNull => Ok 0%Z
  | VBool b => Ok (if b then 1 else 0)%Z
  | VArr [] => Ok 0%Z
  | VArr [VNull] => Ok 0%Z
  | VArr [VNum n] => Ok n
  | VArr [VStr _] | VArr [VArr _] => Beyond
  | VArr [_] => Stop Failed
  | VArr (_ :: _ :: _) => Stop Failed
  | VObj _ => Stop Failed
  | VStr _ => Beyond
  end.

(** [cur[k] = x], as the JSON text written afterwards shows it.  A property
    of an array that is neither an index nor the length is not serialised. *)
Definition assign (cur : Value) (k : string) (x : Value) : Res Value :=
  match cur with
  | VObj fs => Ok (VObj (update k x fs))
  | VArr l =>
      match array_index k with
      | Some i => Ok (VArr (set_index i x l))
      | None =>
          if String.eqb k "length" then
            n <- length_of x ;;
            if (0 <=? n)%Z && (n <? 4294967296)%Z
            then Ok (VArr (resize (Z.to_nat n) l))
            else Stop Failed                   (* RangeError *)
          else Ok (VArr l)
      end
  | _ => Beyond
  end.

(** [delete cur[k]] for a property that [cur] has. *)
Definition delete_prop (cur : Value) (k : string) : Res Value :=
  match cur with
  | VObj fs => Ok (VObj (remove_key k fs))
  | VArr l =>
      match array_index k with
      | Some i => Ok (VArr (set_index i VNull l))   (* a hole *)
      | None => Beyond                              (* the length *)
      end
  | _ => Beyond
  end.

(** ** Equality engine (the two classes carry the same two private methods) *)

(** [deepEqual(obj1, obj2)].  Two arrays, whose keys are their indices, are
    compared position by position; two objects key by key of the first. *)
Fixpoint deepEqual (obj1 obj2 : Value) {struct obj1} : bool :=
  match obj1, obj2 with
  | VNull, VNull => true
  | VBool x, VBool y => Bool.eqb x y
  | VNum x, VNum y => Z.eqb x y
  | VStr x, VStr y => String.eqb x y
  | VArr xs, VArr ys =>
      Nat.eqb (List.length xs) (List.length ys)
      && (fix items (xs ys : list Value) {struct xs} : bool :=
            match xs, ys with
            | [], _ => true
            | _ :: _, [] => false
            | x :: xs', y :: ys' => deepEqual x y && items xs' ys'
            end) xs ys
  | VObj keys1, VObj keys2 =>
      Nat.eqb (List.length keys1) (List.length keys2)
      && (fix each (fs : list (string * Value)) : bool :=
            match fs with
            | [] => true
            | (key, x) :: fs' =>
                match lookup key keys2 with
                | Some y => deepEqual x y && each fs'
                | None => false
                end
            end) keys1
  | _, _ => false
  end.

(** The entries of [Object.keys(v)] with their values. *)
Fixpoint indexed (i : nat) (l : list Value) : list (string * Value) :=
  match l with
  | [] => []
  | x :: l' => (index_name i, x) :: indexed (S i) l'
  end.

Definition own_entries (v : Value) : list (string * Value) :=
  match v with
  | VObj fs => fs
  | VArr l => indexed 0 l
  | _ => []
  end.

(** [typeof v === "object"] *)
Definition typeof_object (v : Value) : bool :=
  match v with
  | VNull | VArr _ | VObj _ => true
  | _ => false
  end.

(** [partialMatch(target, partial)] *)
Definition partialMatch (target partial : Value) : bool :=
  if negb (typeof_object target) || negb (typeof_object partial)
  then deepEqual target partial
  else
    match target, partial with
    | VNull, _ | _, VNull => false
    | _, _ =>
        forallb (fun kv =>
                   match own_get target (fst kv) with
                   | Some x => deepEqual x (snd kv)
                   | None => false
                   end) (own_entries partial)
    end.

(** [a === b] when [b] is null, a boolean, a number or a string. *)
Definition strict_eq (a b : Value) : bool :=
  match a, b with
  | VNull, VNull => true
  | VBool x, VBool y => Bool.eqb x y
  | VNum x, VNum y => Z.eqb x y
  | VStr x, VStr y => String.eqb x y
  | _, _ => false
  end.

(** The test in the body of the removal loop of unpush and pull. *)
Definition shouldRemove (e value : Value) : bool :=
  if typeof_object value
     && negb (match value with VNull => true | _ => false end)
  then deepEqual e value || partialMatch e value
  else strict_eq e value.

(** [for (let i = array.length - 1; i >= 0; i--)]: [n] is [i + 1], the
    number of indices still to visit. *)
Fixpoint removal_loop (value : Value) (n : nat) (array : list Value)
    (removedCount : nat) : list Value * nat :=
  match n with
  | O => (array, removedCount)
  | S i =>
      match nth_error array i with
      | Some e =>
          if shouldRemove e value
          then removal_loop value i (splice i array) (S removedCount)
          else removal_loop value i array removedCount
      | None => removal_loop value i array removedCount
      end
  end.

(** ** Path resolution *)

(** The value to go down into at segment [k] when writing:
    [if (!current[k] || typeof current[k] !== "object") current[k] = {}]. *)
Definition descend (cur : Value) (k : string) : Value :=
  match own_get cur k with
  | Some c => if is_container c then c else VObj []
  | None => VObj []
  end.

(** The loop over [keys.length - 1] segments of set, add, subtract and push,
    then [final] at the last segment.  The result is the container [cur] as
    it stands after the mutation in place of what lies below it. *)
Fixpoint write_resolve (final : Value -> string -> Res Value) (cur : Value)
    (keys : list string) {struct keys} : Res Value :=
  match keys with
  | [] => Ok cur
  | [k] => final cur k
  | k :: (_ :: _) as rest =>
      child <- write_resolve final (descend cur k) rest ;;
      assign cur k child
  end.

(** The loop of delete and unpush, which returns with report [missing]
    instead of creating what is not there. *)
Fixpoint strict_resolve (missing : Report)
    (final : Value -> string -> Res Value) (cur : Value) (keys : list string) {struct keys} : Res Value :=
  match keys with
  | [] => Ok cur
  | [k] => final cur k
  | k :: (_ :: _) as rest =>
      match own_get cur k with
      | Some c =>
          if is_container c
          then child <- strict_resolve missing final c rest ;;
               assign cur k child
          else Stop missing
      | None => Stop missing
      end
  end.

(** What a method answers. *)
Inductive Answer : Type :=
| AVoid
| AValue (v : option Value)
| ABool (b : bool)
| ADoc (d : Fields).

(** How a call ends: the process is gone, the call is outside the model, or
    it returns with a report, an answer and the store it leaves. *)
Inductive Outcome (S : Type) : Type :=
| Exited
| Unmodelled
| Returned (r : Report) (a : Answer) (st : S).
Arguments Exited {S}.
Arguments Unmodelled {S}.

(** The two sentences that deleteAll accepts. *)
Definition approval_tr : string :=
  "Tüm verilerimin silineceğini kabul ediyor ve bu işlemle ilgili tüm sorumluluğun tarafıma ait olduğunu beyan ediyorum.".
Definition approval_en : string :=
  "I acknowledge that all my data will be deleted and declare that I am solely responsible for this process.".

Definition approved (approve : string) : bool :=
  String.eqb approve approval_tr || String.eqb approve approval_en.

(** The last steps shared by set, add, subtract and push, and by delete and
    unpush, once the segment before the last is reached. *)
Definition final_set (value : Value) (cur : Value) (k : string) : Res Value :=
  assign cur k value.

(** The double nearest to the integer [s], a tie going to the even
    mantissa: what the host computes for [a + b] and [a - b] when [s] is the
    exact sum or difference of two doubles.  [None] is an infinity. *)
Definition round_double (s : Z) : option Z :=
  let a := Z.abs s in
  if (a <? 9007199254740992)%Z then Some s
  else
    let e := (Z.log2 a - 52)%Z in
    let q := Z.shiftr a e in
    let r := (a - Z.shiftl q e)%Z in
    let half := Z.shiftl 1 (e - 1) in
    let q' :=
      if (half <? r)%Z || ((r =? half)%Z && Z.odd q) then (q + 1)%Z else q in
    let m := Z.shiftl q' e in
    if (m <? 2 ^ 1024)%Z then Some (Z.sgn s * m)%Z else None.

(** [cur[k] = s] for a sum or a difference [s] computed by the host.  An
    infinity is written to the JSON text as null; as the length of an array
    it is a RangeError. *)
Definition assign_number (cur : Value) (k : string) (s : Z) : Res Value :=
  match round_double s with
  | Some n => assign cur k (VNum n)
  | None =>
      match cur with
      | VArr _ =>
          match array_index k with
          | Some _ => assign cur k VNull
          | None => Stop Failed
          end
      | _ => assign cur k VNull
      end
  end.

Definition final_add (value : Z) (cur : Value) (k : string) : Res Value :=
  match own_get cur k with
  | None => assign cur k (VNum (0 + value))
  | Some (VNum currentValue) => assign_number cur k (currentValue + value)
  | Some _ => Stop NotANumber
  end.

Definition final_subtract (value : Z) (cur : Value) (k : string) : Res Value :=
  match own_get cur k with
  | None => assign cur k (VNum (0 - value))
  | Some (VNum currentValue) => assign_number cur k (currentValue - value)
  | Some _ => Stop NotANumber
  end.

(** Below an array, with the last segment "length": [current.length = []]
    empties the array, and [current.length.push] then throws. *)
Definition final_push (value : Value) (cur : Value) (k : string) : Res Value :=
  match own_get cur k with
  | Some (VArr l) => assign cur k (VArr (l ++ [value]))
  | _ =>
      match cur, array_index k with
      | VArr _, None =>
          if String.eqb k "length" then Stop Failed
          else assign cur k (VArr [value])
      | _, _ => assign cur k (VArr [value])
      end
  end.

Definition final_delete (cur : Value) (k : string) : Res Value :=
  match own_get cur k with
  | Some _ => delete_prop cur k
  | None => Stop DoesNotExist
  end.

Definition final_unpush (value : Value) (cur : Value) (k : string)
  : Res Value :=
  match own_get cur k with
  | Some (VArr array) =>
      let (kept, removedCount) :=
        removal_loop value (List.length array) array 0 in
      if (0 <? removedCount)%nat then assign cur k (VArr kept)
      else Stop NoMatch
  | _ => Stop NotAnArray
  end.

(** A call of a public method. *)
Inductive Call : Type :=
| CSet (key : string) (value : option Value)
| CGet (key : string)
| CGetAll
| CHas (key : string)
| CAdd (key : string) (value : Z)
| CSubtract (key : string) (value : Z)
| CDelete (key : string)
| CDeleteAll (approve : string)
| CPush (key : string) (value : option Value)
| CPull (key : string) (value : option Value).

(** The key that a call carries, if it carries one. *)
Definition call_key (c : Call) : option string :=
  match c with
  | CSet key _ | CGet key | CHas key | CAdd key _ | CSubtract key _
  | CDelete key | CPush key _ | CPull key _ => Some key
  | CGetAll | CDeleteAll _ => None
  end.

(** ** The file backend, [JsonDatabase.ts] *)

Module JsonDatabase.

(** The instance and its file: [file] is [None] when the file is missing or
    cannot be read. *)
Record State : Type := mkState {
  connected : bool;
  file : option Fields
}.

(** [connect()] creates the file when it is missing. *)
Definition connect (st : State) : State :=
  match file st with
  | Some d => mkState true (Some d)
  | None => mkState true (Some [])
  end.

(** [CheckConnection()]: [false] stands for the call of [process.exit(0)]. *)
Definition CheckConnection (st : State) : bool := connected st.

(** [ReadDatabase()]: a file that cannot be read counts as [{}]. *)
Definition ReadDatabase (st : State) : Fields :=
  match file st with
  | Some d => d
  | None => []
  end.

Definition WriteDatabase (st : State) (data : Fields) : State :=
  mkState (connected st) (Some data).

(** The loop of get: [current[k] === undefined] ends it; reading a property
    of null throws, and the catch block answers [undefined] as well. *)
Fixpoint get_path (current : Value) (keys : list string) : Res Value :=
  match keys with
  | [] => Ok current
  | k :: rest =>
      match current with
      | VNull => Stop Failed
      | _ =>
          match own_get current k with
          | Some c => get_path c rest
          | None => Stop NotFound
          end
      end
  end.

(** The loop of has. *)
Fixpoint has_path (current : Value) (keys : list string) : bool :=
  match keys with
  | [] => true
  | k :: rest =>
      if typeof_object current
         && negb (match current with VNull => true | _ => false end)
      then match own_get current k with
           | Some c => has_path c rest
           | None => false
           end
      else false
  end.

Section Methods.

(** The property names inherited from the prototypes of the host. *)
Variable host : string -> bool.

(** The first lines of a method that takes a key. *)
Definition entry (st : State) (key : string) (none : Answer)
    (body : Outcome State) : Outcome State :=
  if CheckConnection st then
    if invalid_key key then Returned InvalidKey none st else body
  else Exited.

Definition in_model (names : list string) (body : Outcome State)
  : Outcome State :=
  if existsb host names then Unmodelled else body.

(** [this.WriteDatabase(data)] after a mutation, or the early return. *)
Definition finish (st : State) (r : Res Value) : Outcome State :=
  match r with
  | Ok (VObj data) => Returned Done AVoid (WriteDatabase st data)
  | Ok _ => Unmodelled
  | Stop r => Returned r AVoid st
  | Beyond => Unmodelled
  end.

Definition set (st : State) (key : string) (value : option Value)
  : Outcome State :=
  entry st key AVoid
    match value with
    | None => Returned InvalidValue AVoid st
    | Some v =>
        let keys := split_dot key in
        in_model keys
          (finish st (write_resolve (final_set v) (VObj (ReadDatabase st)) keys))
    end.

Definition get (st : State) (key : string) : Outcome State :=
  entry st key (AValue None)
    (let keys := split_dot key in
     in_model keys
       match get_path (VObj (ReadDatabase st)) keys with
       | Ok v => Returned Done (AValue (Some v)) st
       | Stop r => Returned r (AValue None) st
       | Beyond => Unmodelled
       end).

Definition getAll (st : State) : Outcome State :=
  if CheckConnection st then Returned Done (ADoc (ReadDatabase st)) st
  else Exited.

Definition has (st : State) (key : string) : Outcome State :=
  entry st key (ABool false)
    (let keys := split_dot key in
     in_model keys
       (Returned Done (ABool (has_path (VObj (ReadDatabase st)) keys)) st)).

Definition add (st : State) (key : string) (value : Z) : Outcome State :=
  entry st key AVoid
    (let keys := split_dot key in
     in_model keys
       (finish st (write_resolve (final_add value) (VObj (ReadDatabase st)) keys))).

Definition subtract (st : State) (key : string) (value : Z) : Outcome State :=
  entry st key AVoid
    (let keys := split_dot key in
     in_model keys
       (finish st
          (write_resolve (final_subtract value) (VObj (ReadDatabase st)) keys))).

Definition delete (st : State) (key : string) : Outcome State :=
  entry st key AVoid
    (let keys := split_dot key in
     in_model keys
       (finish st
          (strict_resolve DoesNotExist final_delete (VObj (ReadDatabase st)) keys))).

Definition deleteAll (st : State) (approve : string) : Outcome State :=
  if CheckConnection st then
    if approved approve then Returned Done AVoid (WriteDatabase st [])
    else Returned InvalidApproval AVoid st
  else Exited.

Definition push (st : State) (key : string) (value : option Value)
  : Outcome State :=
  entry st key AVoid
    match value with
    | None => Returned InvalidValue AVoid st
    | Some v =>
        let keys := split_dot key in
        in_model keys
          (finish st (write_resolve (final_push v) (VObj (ReadDatabase st)) keys))
    end.

Definition unpush (st : State) (key : string) (value : option Value)
  : Outcome State :=
  entry st key AVoid
    match value with
    | None => Returned InvalidValue AVoid st
    | Some v =>
        let keys := split_dot key in
        in_model (keys ++ map fst (own_entries v))
          (finish st
             (strict_resolve PathMissing (final_unpush v)
                (VObj (ReadDatabase st)) keys))
    end.

(** The remote backend names this method pull. *)
Definition call (st : State) (c : Call) : Outcome State :=
  match c with
  | CSet key value => set st key value
  | CGet key => get st key
  | CGetAll => getAll st
  | CHas key => has st key
  | CAdd key value => add st key value
  | CSubtract key value => subtract st key value
  | CDelete key => delete st key
  | CDeleteAll approve => deleteAll st approve
  | CPush key value => push st key value
  | CPull key value => unpush st key value
  end.

End Methods.

End JsonDatabase.

(** ** The remote backend, [MongoDatabase.ts] *)

Module MongoDatabase.

(** The instance and its collection: one record [{key, value}] per
    top-level key.  [findOne({key})] is [lookup key records], [save()] of a
    record with a new value is [upsert key value records], [deleteMany({})]
    leaves [[]]. *)
Record State : Type := mkState {
  connected : bool;
  model : bool;
  records : Fields
}.

Definition connect (st : State) : State := mkState true true (records st).

Definition disconnect (st : State) : State :=
  mkState false (model st) (records st).

(** [checkConnection()]: [false] stands for the call of [process.exit(0)]. *)
Definition checkConnection (st : State) : bool := connected st && model st.

(** [setNestedValue(obj, path, value)]; the result is [obj] after the
    mutation in place.  With no segment at all the recursion of the source
    does not end; [split] never gives that. *)
Fixpoint setNestedValue (obj : Value) (path : list string) (value : Value)
    {struct path} : Res Value :=
  match path with
  | [] => Stop Failed
  | [k] => assign obj k value
  | first :: (_ :: _) as rest =>
      child <- setNestedValue (descend obj first) rest value ;;
      assign obj first child
  end.

(** [getNestedValue(obj, path)] *)
Fixpoint getNestedValue (current : Value) (path : list string)
  : option Value :=
  match path with
  | [] => Some current
  | key :: rest =>
      if is_container current then
        match own_get current key with
        | Some c => getNestedValue c rest
        | None => None
        end
      else None
  end.

(** The object reached by [path] is changed in place by [f]; the result is
    [cur] after that. *)
Fixpoint mutate_at (f : Value -> Res Value) (cur : Value) (path : list string)
  : Res Value :=
  match path with
  | [] => f cur
  | k :: rest =>
      match own_get cur k with
      | Some c => child <- mutate_at f c rest ;; assign cur k child
      | None => Ok cur
      end
  end.

(** An empty object somewhere inside [v].  The schema has the option
    minimize of the library, by which [save()] leaves empty objects out of
    what it writes; what is then stored is outside the model. *)
Fixpoint holds_empty_object (v : Value) : bool :=
  match v with
  | VObj [] => true
  | VObj fs => existsb (fun kv => holds_empty_object (snd kv)) fs
  | VArr l => existsb holds_empty_object l
  | _ => false
  end.

(** [document.save()] of a record whose value has been given a new object
    [x]: the schema requires a value, so null is a validation error, which
    the catch block of the caller logs. *)
Definition save_value (records : Fields) (k0 : string) (x : Value)
  : Res Fields :=
  match x with
  | VNull => Stop Failed
  | _ => if holds_empty_object x then Beyond else Ok (upsert k0 x records)
  end.

(** The try block of set.  The schema requires a key, and an empty text
    does not count as one: [save()] then throws a validation error.

    For a record that exists, [updatedValue] is the object that the literal
    [{ [keys[0]]: updatedValue }] holds under [keys[0]] when setNestedValue
    starts, and [document.value = updatedValue] follows.  When the value read
    is truthy, [updatedValue] is that very object: setNestedValue either
    rebinds the field of the literal or changes the object in place, the
    assignment gives the path the object it already has, the library sees no
    change (the type is Mixed and markModified is not called), and [save()]
    writes nothing.  When the value read is falsy, [updatedValue] is a fresh
    [{}]: with one segment it stays empty and the record is left without a
    value, which is outside the model; with more it is filled in place and
    stored. *)
Definition set_records (records : Fields) (keys : list string) (value : Value)
  : Res Fields :=
  match keys with
  | [] => Stop Failed
  | k0 :: rest =>
      if String.eqb k0 "" then Stop Failed
      else
        match lookup k0 records with
        | None =>
            newValue <- setNestedValue (VObj []) keys value ;;
            match own_get newValue k0 with
            | Some x => save_value records k0 x
            | None => Stop Failed
            end
        | Some old =>
            if truthy old then
              _ <- setNestedValue (VObj [(k0, old)]) keys value ;;
              Ok records
            else
              literal <- setNestedValue (VObj [(k0, VObj [])]) keys value ;;
              match rest with
              | [] => Beyond
              | _ :: _ =>
                  match own_get literal k0 with
                  | Some x => save_value records k0 x
                  | None => Stop Failed
                  end
              end
        end
  end.

(** The else branch of delete, for a key of two segments or more.
    [delete parent[finalKey]] changes in place the object that the record
    holds and [document.value = obj[keys[0]]] gives the path that same
    object: as in set, [save()] writes nothing. *)
Definition delete_nested (records : Fields) (keys : list string)
  : Res Fields :=
  match keys with
  | [] => Stop Failed
  | k0 :: _ =>
      match lookup k0 records with
      | None => Stop DoesNotExist
      | Some value =>
          let obj := VObj [(k0, value)] in
          let parentPath := removelast keys in
          let finalKey := last keys "" in
          match getNestedValue obj parentPath with
          | Some parent =>
              if is_container parent then
                match own_get parent finalKey with
                | Some _ =>
                    _ <- mutate_at (fun p => delete_prop p finalKey)
                           obj parentPath ;;
                    if String.eqb k0 "" then Stop Failed else Ok records
                | None => Stop DoesNotExist
                end
              else Stop DoesNotExist
          | None => Stop DoesNotExist
          end
      end
  end.

Section Methods.

(** The property names inherited from the prototypes of the host. *)
Variable host : string -> bool.

Definition entry (st : State) (key : string) (none : Answer)
    (body : Outcome State) : Outcome State :=
  if checkConnection st then
    if invalid_key key then Returned InvalidKey none st else body
  else Exited.

Definition in_model (names : list string) (body : Outcome State)
  : Outcome State :=
  if existsb host names then Unmodelled else body.

(** [document.save()], or the early return. *)
Definition finish (st : State) (r : Res Fields) : Outcome State :=
  match r with
  | Ok rs => Returned Done AVoid (mkState (connected st) (model st) rs)
  | Stop r => Returned r AVoid st
  | Beyond => Unmodelled
  end.

Definition set (st : State) (key : string) (value : option Value)
  : Outcome State :=
  entry st key AVoid
    match value with
    | None => Returned InvalidValue AVoid st
    | Some v =>
        let keys := split_dot key in
        in_model keys (finish st (set_records (records st) keys v))
    end.

Definition get (st : State) (key : string) : Outcome State :=
  entry st key (AValue None)
    (let keys := split_dot key in
     in_model keys
       match lookup (hd "" keys) (records st) with
       | None => Returned NotFound (AValue None) st
       | Some value =>
           match getNestedValue (VObj [(hd "" keys, value)]) keys with
           | Some v => Returned Done (AValue (Some v)) st
           | None => Returned NotFound (AValue None) st
           end
       end).

(** [result[doc.key] = doc.value] for every record. *)
Definition getAll (st : State) : Outcome State :=
  if checkConnection st then
    Returned Done
      (ADoc (fold_left (fun result doc => update (fst doc) (snd doc) result)
               (records st) []))
      st
  else Exited.

Definition has (st : State) (key : string) : Outcome State :=
  entry st key (ABool false)
    (let keys := split_dot key in
     in_model keys
       match lookup (hd "" keys) (records st) with
       | None => Returned Done (ABool false) st
       | Some value =>
           match getNestedValue (VObj [(hd "" keys, value)]) keys with
           | Some _ => Returned Done (ABool true) st
           | None => Returned Done (ABool false) st
           end
       end).

(** add and subtract call the public get and set.  Where get has returned
    a number the record exists, and set then writes nothing (see
    [set_records]): the sum is passed on and never stored. *)
Definition add (st : State) (key : string) (value : Z) : Outcome State :=
  entry st key AVoid
    match get st key with
    | Returned _ (AValue None) _ => set st key (Some (VNum value))
    | Returned _ (AValue (Some (VNum currentValue))) _ =>
        set st key (Some (VNum (currentValue + value)))
    | Returned _ (AValue (Some _)) _ => Returned NotANumber AVoid st
    | Returned _ _ _ => Unmodelled
    | Exited => Exited
    | Unmodelled => Unmodelled
    end.

Definition subtract (st : State) (key : string) (value : Z) : Outcome State :=
  entry st key AVoid
    match get st key with
    | Returned _ (AValue None) _ => set st key (Some (VNum (- value)))
    | Returned _ (AValue (Some (VNum currentValue))) _ =>
        set st key (Some (VNum (currentValue - value)))
    | Returned _ (AValue (Some _)) _ => Returned NotANumber AVoid st
    | Returned _ _ _ => Unmodelled
    | Exited => Exited
    | Unmodelled => Unmodelled
    end.

Definition delete (st : State) (key : string) : Outcome State :=
  entry st key AVoid
    (let keys := split_dot key in
     in_model keys
       match keys with
       | [k0] =>
           match lookup k0 (records st) with
           | Some _ =>
               Returned Done AVoid
                 (mkState (connected st) (model st) (remove_key k0 (records st)))
           | None => Returned DoesNotExist AVoid st
           end
       | _ => finish st (delete_nested (records st) keys)
       end).

Definition deleteAll (st : State) (approve : string) : Outcome State :=
  if checkConnection st then
    if approved approve
    then Returned Done AVoid (mkState (connected st) (model st) [])
    else Returned InvalidApproval AVoid st
  else Exited.

Definition push (st : State) (key : string) (value : option Value)
  : Outcome State :=
  entry st key AVoid
    match value with
    | None => Returned InvalidValue AVoid st
    | Some v =>
        match get st key with
        | Returned _ (AValue (Some (VArr currentValue))) _ =>
            set st key (Some (VArr (currentValue ++ [v])))
        | Returned _ (AValue _) _ => set st key (Some (VArr [v]))
        | Returned _ _ _ => Unmodelled
        | Exited => Exited
        | Unmodelled => Unmodelled
        end
    end.

Definition pull (st : State) (key : string) (value : option Value)
  : Outcome State :=
  entry st key AVoid
    match value with
    | None => Returned InvalidValue AVoid st
    | Some v =>
        in_model (map fst (own_entries v))
          match get st key with
          | Returned _ (AValue (Some (VArr currentValue))) _ =>
              let (kept, removedCount) :=
                removal_loop v (List.length currentValue) currentValue 0 in
              if (0 <? removedCount)%nat then set st key (Some (VArr kept))
              else Returned NoMatch AVoid st
          | Returned _ (AValue _) _ => Returned NotAnArray AVoid st
          | Returned _ _ _ => Unmodelled
          | Exited => Exited
          | Unmodelled => Unmodelled
          end
    end.

Definition call (st : State) (c : Call) : Outcome State :=
  match c with
  | CSet key value => set st key value
  | CGet key => get st key
  | CGetAll => getAll st
  | CHas key => has st key
  | CAdd key value => add st key value
  | CSubtract key value => subtract st key value
  | CDelete key => delete st key
  | CDeleteAll approve => deleteAll st approve
  | CPush key value => push st key value
  | CPull key value => pull st key value
  end.

End Methods.

End MongoDatabase.

(** ** The rate limiter, [rateLimiter.ts] *)

Module RateLimiter.

(** [ipStore], the map of the module, shared by every limiter that
    [rateLimit] returns: the times of the requests logged for each address,
    in milliseconds. *)
Definition RequestLog := list Z.
Definition Store := list (string * RequestLog).

Inductive StandardHeaders : Type := Draft6 | Draft7 | Draft8.

(** The options that the handler reads.  autoCleanup and cleanupIntervalMs
    only decide whether and when [cleanup] runs. *)
Record Options : Type := mkOptions {
  windowMs : Z;
  limit : Z;
  standardHeaders : StandardHeaders;
  legacyHeaders : bool
}.

(** [(t) => now - t < windowMs] *)
Definition recent (now windowMs t : Z) : bool := (now - t <? windowMs)%Z.

(** One turn of the loop of the callback of setInterval. *)
Definition sweep (now windowMs : Z) (store : Store)
    (entry : string * RequestLog) : Store :=
  match filter (recent now windowMs) (snd entry) with
  | [] => remove_key (fst entry) store
  | valid => upsert (fst entry) valid store
  end.

(** The callback of setInterval, at time [now]. *)
Definition cleanup (now windowMs : Z) (store : Store) : Store :=
  fold_left (sweep now windowMs) store store.

Inductive HeaderValue : Type :=
| HNumber (n : Z)
| HRateLimit (limit remaining reset : Z).   (* limit=.., remaining=.., reset=.. *)

Inductive Verdict : Type :=
| Next                (* next() *)
| TooManyRequests.    (* res.status(429).json(...) *)

(** [Math.ceil(a / 1000)] for an integer [a]. *)
Definition ceil_thousandth (a : Z) : Z := (- ((- a) / 1000))%Z.

(** The log of the address after the request at [now]. *)
Definition timestamps_of (o : Options) (store : Store) (now : Z) (ip : string)
  : RequestLog :=
  let store1 :=
    match lookup ip store with
    | Some _ => store
    | None => upsert ip [] store
    end in
  let log := match lookup ip store1 with Some l => l | None => [] end in
  filter (recent now (windowMs o)) log ++ [now].

(** The middleware that [rateLimit(options)] returns, for a request of
    address [ip] at time [now]: the store it leaves, the headers it sets and
    what it does with the request. *)
Definition handler (o : Options) (store : Store) (now : Z) (ip : string)
  : Store * list (string * HeaderValue) * Verdict :=
  let store1 :=
    match lookup ip store with
    | Some _ => store
    | None => upsert ip [] store
    end in
  let timestamps := timestamps_of o store now ip in
  let store2 := upsert ip timestamps store1 in
  let count := Z.of_nat (List.length timestamps) in
  let remaining := (limit o - count)%Z in
  let first := hd now timestamps in
  let legacy :=
    if legacyHeaders o then
      [("X-RateLimit-Limit", HNumber (limit o));
       ("X-RateLimit-Remaining", HNumber (Z.max 0 remaining));
       ("X-RateLimit-Reset",
        HNumber (ceil_thousandth (first + windowMs o)))]
    else [] in
  let standard :=
    match standardHeaders o with
    | Draft7 | Draft8 =>
        [("RateLimit",
          HRateLimit (limit o) (Z.max 0 remaining)
            (ceil_thousandth (first + windowMs o - now)))]
    | Draft6 => []
    end in
  (store2, legacy ++ standard,
   if (limit o <? count)%Z then TooManyRequests else Next).

End RateLimiter.

(** ** The text of a captcha, [generateSecureCaptchaText] *)

Module Captcha.

Definition chars : string := "ABCDEFGHJKLMNPQRTUVWXYZ23467892468".

(** [chars[randomBytes[i] % chars.length]], the text "undefined" standing for
    what [+=] appends when a byte or a character is not there. *)
Definition pick (randomBytes : list N) (i : nat) : string :=
  match nth_error randomBytes i with
  | Some b =>
      match String.get (N.to_nat (b mod N.of_nat (String.length chars))) chars with
      | Some c => String c EmptyString
      | None => "undefined"
      end
  | None => "undefined"
  end.

(** The loop [for (let i = 0; i < length; i++) result += ...], from index
    [i] on, with [n] turns left. *)
Fixpoint text_from (randomBytes : list N) (i n : nat) (result : string)
  : string :=
  match n with
  | O => result
  | S n' => text_from randomBytes (S i) n' (result ++ pick randomBytes i)
  end.

(** [generateSecureCaptchaText(length)], [randomBytes] being what
    [crypto.randomBytes(length)] returned. *)
Definition generateSecureCaptchaText (length : nat) (randomBytes : list N)
  : string :=
  text_from randomBytes 0 length "".

(** [captchaGenerator()], the field [text] of what it returns;
    [randomBytes] is what [crypto.randomBytes(6)] returned.  The picture and
    the hash are outside the model. *)
Definition captchaGenerator (randomBytes : list N) : string :=
  generateSecureCaptchaText 6 randomBytes.

Inductive Difficulty : Type := easy | medium | hard.

(** The table [settings]: length and noise (in tenths). *)
Definition settings (d : Difficulty) : nat * nat :=
  match d with
  | easy => (4, 3)
  | medium => (6, 6)
  | hard => (8, 10)
  end.

(** [captchaGeneratorWithDifficulty(difficulty)]: the entry of the table is
    read and dropped. *)
Definition captchaGeneratorWithDifficulty (difficulty : Difficulty)
    (randomBytes : list N) : string :=
  let _ := settings difficulty in
  captchaGenerator randomBytes.

(** [toUpperCase] and [trim] on texts of ASCII characters. *)
Definition upper (c : ascii) : ascii :=
  let n := nat_of_ascii c in
  if (97 <=? n)%nat && (n <=? 122)%nat then ascii_of_nat (n - 32) else c.

Fixpoint toUpperCase (s : string) : string :=
  match s with
  | EmptyString => EmptyString
  | String c rest => String (upper c) (toUpperCase rest)
  end.

(** Tab, line feed, vertical tab, form feed, carriage return, space. *)
Definition white (c : ascii) : bool :=
  let n := nat_of_ascii c in
  ((9 <=? n)%nat && (n <=? 13)%nat) || (n =? 32)%nat.

Fixpoint trimStart (s : string) : string :=
  match s with
  | EmptyString => EmptyString
  | String c rest => if white c then trimStart rest else s
  end.

Fixpoint trimEnd (s : string) : string :=
  match s with
  | EmptyString => EmptyString
  | String c rest =>
      match trimEnd rest with
      | EmptyString => if white c then EmptyString else String c EmptyString
      | kept => String c kept
      end
  end.

Definition trim (s : string) : string := trimEnd (trimStart s).

(** [verifyCaptcha(userInput, originalText)]; the only falsy string is the
    empty one. *)
Definition verifyCaptcha (userInput originalText : string) : bool :=
  if String.eqb userInput "" || String.eqb originalText "" then false
  else String.eqb (trim (toUpperCase userInput))
                  (trim (toUpperCase originalText)).

End Captcha.

(** ** Definitions for the statements *)

(** A host table for concrete runs: the property names of [Object.prototype]. *)
Definition object_prototype (k : string) : bool :=
  existsb (String.eqb k)
    ["constructor"; "__defineGetter__"; "__defineSetter__"; "hasOwnProperty";
     "__lookupGetter__"; "__lookupSetter__"; "isPrototypeOf";
     "propertyIsEnumerable"; "toString"; "valueOf"; "__proto__";
     "toLocaleString"].

(** Why a path does not resolve: the value met where an object was needed. *)
Inductive Blocker : Type :=
| Missing | IsNull | IsBool | IsNum | IsStr | IsArr.

(** Read-resolve in the words of the specification, section 4.1 (a): follow
    each segment through nested objects; when a value on the way is missing
    or is not an object, or the last segment is absent, the result is Absent,
    here [inl] with the reason. *)
Fixpoint spec_read_resolve (cur : Value) (path : list string)
  : Blocker + Value :=
  match path with
  | [] => inr cur
  | k :: rest =>
      match cur with
      | VObj fs =>
          match lookup k fs with
          | Some c => spec_read_resolve c rest
          | None => inl Missing
          end
      | VNull => inl IsNull
      | VBool _ => inl IsBool
      | VNum _ => inl IsNum
      | VStr _ => inl IsStr
      | VArr _ => inl IsArr
      end
  end.

(** Read-resolve as amended: objects are entered by a field and arrays by
    an index or by their length; the result is Absent, [inl] with the reason,
    when a segment is left at a value that is neither an object nor an array,
    or names nothing in the object or the array reached. *)
Fixpoint read_walk (cur : Value) (path : list string) : Blocker + Value :=
  match path with
  | [] => inr cur
  | k :: rest =>
      match cur with
      | VObj _ | VArr _ =>
          match own_get cur k with
          | Some c => read_walk c rest
          | None => inl Missing
          end
      | VNull => inl IsNull
      | VBool _ => inl IsBool
      | VNum _ => inl IsNum
      | VStr _ => inl IsStr
      end
  end.

(** Every array that the writing loop goes through on [keys] is entered by
    an index. *)
Fixpoint indexed_path (cur : Value) (keys : list string) : bool :=
  match keys with
  | [] => true
  | k :: rest =>
      match cur with
      | VArr _ =>
          match array_index k with
          | Some _ => true
          | None => false
          end
      | _ => true
      end
      && indexed_path (descend cur k) rest
  end.

Fixpoint unique_keys (ks : list string) : bool :=
  match ks with
  | [] => true
  | k :: ks' => negb (existsb (String.eqb k) ks') && unique_keys ks'
  end.

(** What setNestedValue builds in an empty object along [path]: one object
    for each segment, [value] in the innermost. *)
Fixpoint nest (path : list string) (value : Value) : Value :=
  match path with
  | [] => value
  | k :: rest => VObj [(k, nest rest value)]
  end.


(** The keys of every object inside [v] are distinct, as in any object. *)
Fixpoint wf_value (v : Value) : bool :=
  match v with
  | VArr l => forallb wf_value l
  | VObj fs =>
      unique_keys (map fst fs) && forallb (fun kv => wf_value (snd kv)) fs
  | _ => true
  end.

(** [l1] is [l2] with some elements left out, the others in their order. *)
Inductive subseq {A : Type} : list A -> list A -> Prop :=
| subseq_nil : subseq [] []
| subseq_skip x l1 l2 : subseq l1 l2 -> subseq l1 (x :: l2)
| subseq_keep x l1 l2 : subseq l1 l2 -> subseq (x :: l1) (x :: l2).

(** The elements that a removal with probe [value] keeps. *)
Definition survivors (value : Value) (l : list Value) : list Value :=
  filter (fun e => negb (shouldRemove e value)) l.


(** Where an assignment is a plain store: a field of an object, an element
    of an array. *)
Definition enterable (cur : Value) (k : string) : bool :=
  match cur with
  | VObj _ => true
  | VArr _ => match array_index k with Some _ => true | None => false end
  | _ => false
  end.

(** A call is accepted when it does not end with the report of an invalid
    key. *)
Definition accepted {S : Type} (o : Outcome S) : Prop :=
  match o with
  | Returned InvalidKey _ _ => False
  | _ => True
  end.

(** The same for the body of a method. *)
Definition clean {A : Type} (res : Res A) : Prop :=
  match res with
  | Stop InvalidKey => False
  | _ => True
  end.

Ltac break_match :=
  repeat match goal with
         | |- context [match ?x with _ => _ end] => destruct x
         end;
  simpl; auto.


(** A character that is easily taken for another. *)
Definition ambiguous (c : ascii) : bool :=
  existsb (Ascii.eqb c) ["I"; "O"; "S"; "0"; "1"; "5"]%char.

Fixpoint chars_of (s : string) : list ascii :=
  match s with
  | EmptyString => []
  | String c rest => c :: chars_of rest
  end.

(** A text of ASCII characters, on which [Captcha.toUpperCase] and
    [Captcha.trim] are those of the host. *)
Definition ascii_text (s : string) : bool :=
  forallb (fun c => (nat_of_ascii c <? 128)%nat) (chars_of s).

(** [c] is one of the characters of [Captcha.chars]. *)
Definition drawn (c : ascii) : bool :=
  existsb (Ascii.eqb c) (chars_of Captcha.chars).

(** How many of the 256 bytes make [Captcha.pick] answer [c]. *)
Definition bytes_giving (c : ascii) : nat :=
  List.length
    (filter (fun b => String.eqb (Captcha.pick [N.of_nat b] 0) (String c ""))
       (seq 0 256)).

(** The log that the store of the limiters holds for an address. *)
Definition log_of (store : RateLimiter.Store) (ip : string)
  : RateLimiter.RequestLog :=
  match lookup ip store with
  | Some l => l
  | None => []
  end.

(** Requests, each with its address and the time it arrives at, handled one
    after the other by the limiter of options [o]. *)
Fixpoint serve (o : RateLimiter.Options) (store : RateLimiter.Store)
    (requests : list (string * Z)) : RateLimiter.Store :=
  match requests with
  | [] => store
  | (ip, now) :: rest =>
      serve o (fst (fst (RateLimiter.handler o store now ip))) rest
  end.

(** The times of the requests of one address. *)
Definition of_address (ip : string) (requests : list (string * Z)) : list Z :=
  map snd (filter (fun r => String.eqb ip (fst r)) requests).

(** The clock never goes back along [times]. *)
Fixpoint clock (times : list Z) : bool :=
  match times with
  | [] => true
  | t :: rest => forallb (fun t' => (t <=? t')%Z) rest && clock rest
  end.

(** ** Properties of the primitives *)

Lemma invalid_key_false key : key <> "" -> invalid_key key = false.
Proof. intro H. unfold invalid_key. now apply String.eqb_neq. Qed.

Lemma lookup_upsert_same (A : Type) k (x : A) fs :
  lookup k (upsert k x fs) = Some x.
Proof.
  induction fs as [|[k' y] fs IH]; simpl.
  - now rewrite String.eqb_refl.
  - destruct (String.eqb k k') eqn:E; simpl; rewrite E; auto.
Qed.

Lemma lookup_upsert_other (A : Type) k k' (x : A) fs :
  String.eqb k k' = false -> lookup k (upsert k' x fs) = lookup k fs.
Proof.
  intro E. induction fs as [|[k0 y] fs IH]; simpl.
  - now rewrite E.
  - destruct (String.eqb k' k0) eqn:E0; simpl.
    + apply String.eqb_eq in E0. subst k0. now rewrite E.
    + now rewrite IH.
Qed.

Lemma lookup_app_absent (A : Type) k (x : A) fs :
  lookup k fs = None -> lookup k (fs ++ [(k, x)]) = Some x.
Proof.
  induction fs as [|[k' y] fs IH]; simpl.
  - now rewrite String.eqb_refl.
  - destruct (String.eqb k k'); [discriminate | exact IH].
Qed.


Lemma lookup_replace_field (A : Type) k k' (x : A) fs :
  lookup k (replace_field k' x fs)
  = if String.eqb k k' then match lookup k fs with
                            | Some _ => Some x
                            | None => None
                            end
    else lookup k fs.
Proof.
  induction fs as [|[k0 y] fs IH]; simpl.
  - now destruct (String.eqb k k').
  - destruct (String.eqb k' k0) eqn:E0; simpl.
    + apply String.eqb_eq in E0. subst k0.
      now destruct (String.eqb k k').
    + rewrite IH. destruct (String.eqb k k') eqn:E; [|reflexivity].
      apply String.eqb_eq in E. subst k'. now rewrite E0.
Qed.

Lemma lookup_insert_index (A : Type) i k k' (x : A) fs :
  lookup k' fs = None ->
  lookup k (insert_index i k' x fs)
  = if String.eqb k k' then Some x else lookup k fs.
Proof.
  induction fs as [|[k0 y] fs IH]; simpl; intro Hnone.
  - reflexivity.
  - destruct (String.eqb k' k0) eqn:E0; [discriminate|].
    destruct (array_index k0) as [j|]; [destruct (j <? i)%nat|]; simpl;
      try reflexivity.
    rewrite (IH Hnone).
    destruct (String.eqb k k') eqn:E; [|reflexivity].
    apply String.eqb_eq in E. subst k'. now rewrite E0.
Qed.

Lemma lookup_update_same (A : Type) k (x : A) fs :
  lookup k (update k x fs) = Some x.
Proof.
  unfold update. destruct (lookup k fs) eqn:E.
  - now rewrite lookup_replace_field, String.eqb_refl, E.
  - destruct (array_index k).
    + now rewrite lookup_insert_index, String.eqb_refl.
    + now apply lookup_app_absent.
Qed.


Lemma replace_field_same (A : Type) k (x : A) fs :
  lookup k fs = Some x -> replace_field k x fs = fs.
Proof.
  induction fs as [|[k' y] fs IH]; simpl; [discriminate|].
  destruct (String.eqb k k') eqn:E.
  - now intros [= ->].
  - intro H. now rewrite IH.
Qed.

Lemma update_same (A : Type) k (x : A) fs :
  lookup k fs = Some x -> update k x fs = fs.
Proof.
  intro H. unfold update. rewrite H. now apply replace_field_same.
Qed.

Lemma replace_field_twice (A : Type) k (x y : A) fs :
  replace_field k y (replace_field k x fs) = replace_field k y fs.
Proof.
  induction fs as [|[k' z] fs IH]; simpl; [reflexivity|].
  destruct (String.eqb k k') eqn:E; simpl; rewrite E; [reflexivity|].
  now rewrite IH.
Qed.

Lemma replace_field_inserted (A : Type) i k (x y : A) fs :
  lookup k fs = None ->
  replace_field k y (insert_index i k x fs) = insert_index i k y fs.
Proof.
  induction fs as [|[k' z] fs IH]; simpl; intro Hnone.
  - now rewrite String.eqb_refl.
  - destruct (String.eqb k k') eqn:E; [discriminate|].
    destruct (array_index k') as [j|]; [destruct (j <? i)%nat|]; simpl;
      rewrite ?String.eqb_refl, ?E; try reflexivity.
    now rewrite IH.
Qed.

Lemma replace_field_appended (A : Type) k (x y : A) fs :
  lookup k fs = None ->
  replace_field k y (fs ++ [(k, x)]) = fs ++ [(k, y)].
Proof.
  induction fs as [|[k' z] fs IH]; simpl; intro Hnone.
  - now rewrite String.eqb_refl.
  - destruct (String.eqb k k') eqn:E; [discriminate|]. now rewrite IH.
Qed.

Lemma update_update (A : Type) k (x y : A) fs :
  update k y (update k x fs) = update k y fs.
Proof.
  unfold update at 1. rewrite lookup_update_same.
  unfold update. destruct (lookup k fs) eqn:E.
  - apply replace_field_twice.
  - destruct (array_index k).
    + now apply replace_field_inserted.
    + now apply replace_field_appended.
Qed.

Lemma nth_error_set_index i x l : nth_error (set_index i x l) i = Some x.
Proof.
  revert l. induction i as [|i IH]; intros [|y l]; simpl; auto.
Qed.

Lemma array_index_name i :
  (N.of_nat i < 4294967295)%N -> array_index (index_name i) = Some i.
Proof.
  intro H. unfold array_index, index_name.
  rewrite NilEmpty.usu, DecimalN.Unsigned.of_to, String.eqb_refl.
  apply N.ltb_lt in H. rewrite H. simpl.
  now rewrite Nat2N.id.
Qed.

Lemma splice_app pre e suf :
  splice (List.length pre) (pre ++ e :: suf) = pre ++ suf.
Proof. induction pre as [|y pre IH]; simpl; [reflexivity | now rewrite IH]. Qed.

Lemma survivors_length v l :
  (List.length (survivors v l) <= List.length l)%nat.
Proof. apply filter_length_le. Qed.

Lemma survivors_app v l1 l2 :
  survivors v (l1 ++ l2) = survivors v l1 ++ survivors v l2.
Proof. apply filter_app. Qed.

(** The loop that runs from the last index down and splices in place
    computes a filter: the indices not yet visited are not disturbed. *)
Lemma removal_loop_prefix v pre : forall suf r,
  removal_loop v (List.length pre) (pre ++ suf) r
  = (survivors v pre ++ suf,
     (r + (List.length pre - List.length (survivors v pre)))%nat).
Proof.
  induction pre as [|e pre IH] using rev_ind; intros suf r.
  - simpl. now rewrite Nat.add_0_r.
  - rewrite length_app, Nat.add_1_r. simpl removal_loop.
    rewrite <- app_assoc. simpl app.
    rewrite (nth_error_app2 pre (e :: suf) (Nat.le_refl _)), Nat.sub_diag.
    simpl nth_error.
    rewrite survivors_app. unfold survivors at 2 4. simpl filter.
    pose proof (survivors_length v pre) as Hle.
    destruct (shouldRemove e v) eqn:E; simpl negb; cbv iota.
    + rewrite splice_app, IH, !app_nil_r. f_equal. lia.
    + rewrite IH, <- app_assoc, length_app, Nat.add_1_r. simpl. f_equal.
Qed.

Lemma removal_loop_survivors v l :
  removal_loop v (List.length l) l 0
  = (survivors v l, (List.length l - List.length (survivors v l))%nat).
Proof.
  pose proof (removal_loop_prefix v l [] 0) as H.
  now rewrite !app_nil_r in H.
Qed.

Lemma filter_all (A : Type) (f : A -> bool) l :
  List.length (filter f l) = List.length l -> filter f l = l.
Proof.
  induction l as [|x l IH]; simpl; auto.
  destruct (f x); simpl; intro H.
  - f_equal. apply IH. lia.
  - pose proof (filter_length_le f l). lia.
Qed.

Lemma survivors_none_removed v l :
  (0 <? List.length l - List.length (survivors v l))%nat = false ->
  survivors v l = l.
Proof.
  intro H. apply Nat.ltb_ge in H. apply filter_all.
  pose proof (survivors_length v l). fold (survivors v l). lia.
Qed.

Lemma survivors_idem v l : survivors v (survivors v l) = survivors v l.
Proof.
  unfold survivors. induction l as [|x l IH]; simpl; auto.
  destruct (shouldRemove x v) eqn:E; simpl; auto. now rewrite E, IH.
Qed.

Lemma survivors_subseq v l : subseq (survivors v l) l.
Proof.
  unfold survivors. induction l as [|x l IH]; simpl.
  - constructor.
  - destruct (negb (shouldRemove x v)); now constructor.
Qed.

Lemma subseq_refl (A : Type) (l : list A) : subseq l l.
Proof. induction l; now constructor. Qed.

(** deepEqual is reflexive on values whose objects have distinct keys. *)
Lemma lookup_unique (A : Type) k (x : A) fs :
  unique_keys (map fst fs) = true -> In (k, x) fs -> lookup k fs = Some x.
Proof.
  induction fs as [|[k' y] fs IH]; simpl; intros U HIn; [easy|].
  apply andb_prop in U as [Hk U].
  destruct HIn as [Heq | HIn].
  - injection Heq as -> ->. now rewrite String.eqb_refl.
  - destruct (String.eqb k k') eqn:E.
    + apply String.eqb_eq in E. subst k'. exfalso.
      apply negb_true_iff in Hk.
      assert (existsb (String.eqb k) (map fst fs) = true) as Hex.
      { apply existsb_exists. exists k. split; [|apply String.eqb_refl].
        apply in_map_iff. now exists (k, x). }
      congruence.
    + now apply IH.
Qed.

Lemma deepEqual_refl v : wf_value v = true -> deepEqual v v = true.
Proof.
  induction v as [ | b | n | s | l IH | fs IH ] using Value_ind; simpl; intro W.
  - reflexivity.
  - apply Bool.eqb_reflx.
  - apply Z.eqb_refl.
  - apply String.eqb_refl.
  - rewrite Nat.eqb_refl. simpl.
    induction l as [|x l IHl]; simpl; auto.
    simpl in W. apply andb_prop in W as [Wx Wl].
    inversion IH as [|? ? Hx Hl]; subst.
    rewrite (Hx Wx). simpl. now apply IHl.
  - rewrite Nat.eqb_refl. simpl.
    apply andb_prop in W as [U W].
    match goal with
    | |- ?each fs = true =>
        assert (forall part,
                   (forall k x, In (k, x) part -> lookup k fs = Some x) ->
                   Forall (fun kv => wf_value (snd kv) = true ->
                                     deepEqual (snd kv) (snd kv) = true) part ->
                   forallb (fun kv => wf_value (snd kv)) part = true ->
                   each part = true) as Hpart
    end.
    { induction part as [|[k x] part IHpart]; intros Hall Hrec Wp; auto.
      simpl in Wp. apply andb_prop in Wp as [Wx Wp].
      inversion Hrec as [|? ? Hx Hrest]; subst.
      rewrite (Hall k x) by now left.
      simpl in Hx. rewrite (Hx Wx). simpl.
      apply IHpart; auto. intros k' x' HIn. apply Hall. now right. }
    apply Hpart; auto. intros k x. now apply lookup_unique.
Qed.

(** ** Properties of path resolution *)

Lemma assign_enterable cur k x :
  enterable cur k = true ->
  exists cur',
    assign cur k x = Ok cur' /\ own_get cur' k = Some x
    /\ is_container cur' = true
    /\ (forall fs, cur = VObj fs -> cur' = VObj (update k x fs)).
Proof.
  destruct cur as [ | | | | l | fs]; simpl; try discriminate; intro H.
  - destruct (array_index k) as [i|] eqn:E; [|discriminate].
    exists (VArr (set_index i x l)). simpl. rewrite E.
    repeat split; [apply nth_error_set_index | discriminate].
  - exists (VObj (update k x fs)). simpl.
    repeat split; [apply lookup_update_same | now intros ? [= ->]].
Qed.

Lemma own_get_container cur k c :
  own_get cur k = Some c -> is_container c = true -> enterable cur k = true.
Proof.
  destruct cur as [ | | | s | l | fs]; simpl; try discriminate; auto.
  - destruct (array_index k) as [i|]; unfold char_at.
    + destruct (String.get i s); [intros [= <-]|]; discriminate.
    + destruct (String.eqb k "length"); [intros [= <-]|]; discriminate.
  - destruct (array_index k) as [i|]; auto.
    destruct (String.eqb k "length"); [intros [= <-]|]; discriminate.
Qed.

Lemma enterable_container cur k :
  enterable cur k = true -> is_container cur = true.
Proof. destruct cur; simpl; auto. Qed.

Lemma descend_container cur k : is_container (descend cur k) = true.
Proof.
  unfold descend. destruct (own_get cur k) as [c|]; auto.
  destruct (is_container c) eqn:E; auto.
Qed.

Lemma descend_found cur k c :
  own_get cur k = Some c -> is_container c = true -> descend cur k = c.
Proof. unfold descend. now intros -> ->. Qed.

Lemma write_resolve_step final cur k k2 rest :
  write_resolve final cur (k :: k2 :: rest)
  = (child <- write_resolve final (descend cur k) (k2 :: rest) ;;
     assign cur k child).
Proof. reflexivity. Qed.

Lemma strict_resolve_step missing final cur k k2 rest :
  strict_resolve missing final cur (k :: k2 :: rest)
  = match own_get cur k with
    | Some c =>
        if is_container c
        then child <- strict_resolve missing final c (k2 :: rest) ;;
             assign cur k child
        else Stop missing
    | None => Stop missing
    end.
Proof. reflexivity. Qed.

Lemma getNestedValue_step cur k rest :
  MongoDatabase.getNestedValue cur (k :: rest)
  = if is_container cur then
      match own_get cur k with
      | Some c => MongoDatabase.getNestedValue c rest
      | None => None
      end
    else None.
Proof. reflexivity. Qed.

(** A path that getNestedValue follows with segments left starts at an
    object or an array, and its first step is there. *)
Lemma getNestedValue_first cur k rest u :
  MongoDatabase.getNestedValue cur (k :: rest) = Some u ->
  is_container cur = true
  /\ exists c, own_get cur k = Some c
               /\ MongoDatabase.getNestedValue c rest = Some u.
Proof.
  rewrite getNestedValue_step.
  destruct (is_container cur); [|discriminate].
  destruct (own_get cur k) as [c|]; [|discriminate].
  intro H. split; auto. now exists c.
Qed.

(** The loop of has and getNestedValue follow the same path. *)
Lemma has_path_getNestedValue keys : forall cur,
  JsonDatabase.has_path cur keys
  = match MongoDatabase.getNestedValue cur keys with
    | Some _ => true
    | None => false
    end.
Proof.
  induction keys as [|k rest IH]; intro cur; [reflexivity|].
  rewrite getNestedValue_step. simpl JsonDatabase.has_path.
  replace (typeof_object cur
           && negb match cur with VNull => true | _ => false end)
    with (is_container cur) by now destruct cur.
  destruct (is_container cur); auto.
  destruct (own_get cur k); auto.
Qed.

(** What getNestedValue finds, the loop of get finds. *)
Lemma getNestedValue_get_path keys : forall cur u,
  MongoDatabase.getNestedValue cur keys = Some u ->
  JsonDatabase.get_path cur keys = Ok u.
Proof.
  induction keys as [|k rest IH]; intros cur u.
  - now intros [= ->].
  - intro H. apply getNestedValue_first in H as (Hc & c & Hk & Hrest).
    simpl. rewrite Hk. destruct cur; try discriminate; now apply IH.
Qed.

(** An object or an array that the loop of get reaches is reached through
    objects and arrays only. *)
Lemma get_path_getNestedValue keys : forall cur u,
  JsonDatabase.get_path cur keys = Ok u -> is_container u = true ->
  MongoDatabase.getNestedValue cur keys = Some u.
Proof.
  induction keys as [|k rest IH]; intros cur u.
  - now intros [= ->].
  - intros H Hu. simpl in H.
    assert (exists c, own_get cur k = Some c
                      /\ JsonDatabase.get_path c rest = Ok u)
      as (c & Hk & Hrest).
    { destruct cur; try discriminate;
        (destruct (own_get _ k) as [c|] eqn:E; [now exists c | discriminate]). }
    pose proof (IH c u Hrest Hu) as Hn.
    assert (is_container c = true) as Hc.
    { destruct rest as [|k2 rest].
      - injection Hn as ->. exact Hu.
      - now apply getNestedValue_first in Hn. }
    rewrite getNestedValue_step, Hk, Hn.
    now rewrite (enterable_container _ _ (own_get_container _ _ Hk Hc)).
Qed.

(** On a path that exists, the writing loop creates nothing, so only what
    the last step does at the parent it reaches matters. *)
Lemma write_resolve_congr final final' keys : forall cur u,
  MongoDatabase.getNestedValue cur keys = Some u ->
  (forall p k, is_container p = true -> own_get p k = Some u ->
               final p k = final' p k) ->
  write_resolve final cur keys = write_resolve final' cur keys.
Proof.
  induction keys as [|k rest IH]; intros cur u H Hf; [reflexivity|].
  apply getNestedValue_first in H as (Hc & c & Hk & Hrest).
  destruct rest as [|k2 rest].
  - injection Hrest as ->. simpl. now apply Hf.
  - rewrite !write_resolve_step.
    assert (is_container c = true) as Hcc
        by now apply getNestedValue_first in Hrest.
    rewrite (descend_found _ _ Hk Hcc), (IH c u Hrest Hf). reflexivity.
Qed.

(** The same, where the last steps need only agree at the last segment. *)
Lemma write_resolve_congr_last final final' keys : forall cur u,
  MongoDatabase.getNestedValue cur keys = Some u ->
  (forall p k, is_container p = true -> own_get p k = Some u ->
               k = last keys "" -> final p k = final' p k) ->
  write_resolve final cur keys = write_resolve final' cur keys.
Proof.
  induction keys as [|k rest IH]; intros cur u H Hf; [reflexivity|].
  apply getNestedValue_first in H as (Hc & c & Hk & Hrest).
  destruct rest as [|k2 rest].
  - injection Hrest as ->. simpl. now apply Hf.
  - rewrite !write_resolve_step.
    assert (is_container c = true) as Hcc
        by now apply getNestedValue_first in Hrest.
    rewrite (descend_found _ _ Hk Hcc), (IH c u Hrest); [reflexivity|].
    intros p k' Hp Hg ->. now apply Hf.
Qed.

Lemma write_resolve_stop r keys : forall cur,
  keys <> [] -> write_resolve (fun _ _ => Stop r) cur keys = Stop r.
Proof.
  induction keys as [|k rest IH]; intros cur Hne; [easy|].
  destruct rest as [|k2 rest]; [reflexivity|].
  rewrite write_resolve_step, IH; [reflexivity | discriminate].
Qed.

(** On a path that exists, delete and unpush walk as the writing loop does. *)
Lemma strict_resolve_existing missing final keys : forall cur u,
  MongoDatabase.getNestedValue cur keys = Some u ->
  strict_resolve missing final cur keys = write_resolve final cur keys.
Proof.
  induction keys as [|k rest IH]; intros cur u H; [reflexivity|].
  apply getNestedValue_first in H as (Hc & c & Hk & Hrest).
  destruct rest as [|k2 rest]; [reflexivity|].
  rewrite strict_resolve_step, write_resolve_step, Hk.
  assert (is_container c = true) as Hcc
      by now apply getNestedValue_first in Hrest.
  rewrite Hcc, (descend_found _ _ Hk Hcc), (IH c u Hrest). reflexivity.
Qed.

(** Storing [x] where an object or an array is found puts [x] there, and
    getNestedValue finds it. *)
Lemma write_existing x keys : forall cur u,
  MongoDatabase.getNestedValue cur keys = Some u ->
  is_container u = true -> keys <> [] ->
  exists cur',
    write_resolve (final_set x) cur keys = Ok cur'
    /\ MongoDatabase.getNestedValue cur' keys = Some x
    /\ (forall fs, cur = VObj fs -> exists fs', cur' = VObj fs').
Proof.
  induction keys as [|k rest IH]; intros cur u H Hu Hne; [easy|].
  apply getNestedValue_first in H as (Hc & c & Hk & Hrest).
  destruct rest as [|k2 rest].
  - injection Hrest as ->.
    destruct (assign_enterable cur k x (own_get_container _ _ Hk Hu))
      as (cur' & Ha & Hg & Hcc & Ho).
    exists cur'. simpl. unfold final_set. rewrite Ha.
    rewrite Hcc, Hg. repeat split; auto.
    intros fs ->. eexists. now apply Ho.
  - assert (is_container c = true) as Hcc
        by now apply getNestedValue_first in Hrest.
    destruct (IH c u Hrest Hu) as (c' & Hw & Hg' & _); [discriminate|].
    destruct (assign_enterable cur k c' (own_get_container _ _ Hk Hcc))
      as (cur' & Ha & Hg & Hcc' & Ho).
    exists cur'. rewrite write_resolve_step, (descend_found _ _ Hk Hcc), Hw.
    simpl bind. rewrite Ha, getNestedValue_step, Hcc', Hg.
    repeat split; auto. intros fs ->. eexists. now apply Ho.
Qed.

(** setNestedValue is the writing loop with a plain store as its last step. *)
Lemma setNestedValue_write_resolve value path : forall obj,
  path <> [] ->
  MongoDatabase.setNestedValue obj path value
  = write_resolve (final_set value) obj path.
Proof.
  induction path as [|k rest IH]; intros obj Hne; [easy|].
  destruct rest as [|k2 rest]; [reflexivity|].
  rewrite write_resolve_step, <- IH by discriminate. reflexivity.
Qed.

(** ** The first lines of every method *)

Lemma json_entry st key none body :
  JsonDatabase.connected st = true -> key <> "" ->
  JsonDatabase.entry st key none body = body.
Proof.
  intros Hc Hk. unfold JsonDatabase.entry, JsonDatabase.CheckConnection.
  now rewrite Hc, (invalid_key_false Hk).
Qed.

Lemma mongo_entry st key none body :
  MongoDatabase.checkConnection st = true -> key <> "" ->
  MongoDatabase.entry st key none body = body.
Proof.
  intros Hc Hk. unfold MongoDatabase.entry.
  now rewrite Hc, (invalid_key_false Hk).
Qed.

Lemma json_in_model host names body :
  existsb host names = false -> JsonDatabase.in_model host names body = body.
Proof. unfold JsonDatabase.in_model. now intros ->. Qed.

Lemma mongo_in_model host names body :
  existsb host names = false -> MongoDatabase.in_model host names body = body.
Proof. unfold MongoDatabase.in_model. now intros ->. Qed.

Lemma split_dot_nonempty key : split_dot key <> [].
Proof.
  destruct key as [|c rest]; simpl; [discriminate|].
  destruct (Ascii.eqb c "."); [discriminate|].
  destruct (split_dot rest); discriminate.
Qed.

(** ** The two backends side by side *)

(** C1.  The claim is that the file backend and the remote backend answer
    alike and leave the same document.  They do not: set on a top-level key
    that is already stored replaces the value in the file backend and leaves
    it as it was in the remote backend; and get with a key that goes on
    below a stored string answers a character in the file backend and
    "not found" in the remote backend. *)
Theorem backends_differ :
  let doc := [("a", VNum 1); ("s", VStr "abc")] in
  let js := JsonDatabase.mkState true (Some doc) in
  let ms := MongoDatabase.mkState true true doc in
  JsonDatabase.set object_prototype js "a" (Some (VNum 2))
  = Returned Done AVoid
      (JsonDatabase.mkState true (Some [("a", VNum 2); ("s", VStr "abc")]))
  /\ MongoDatabase.set object_prototype ms "a" (Some (VNum 2))
     = Returned Done AVoid ms
  /\ JsonDatabase.get object_prototype js "s.0"
     = Returned Done (AValue (Some (VStr "a"))) js
  /\ MongoDatabase.get object_prototype ms "s.0"
     = Returned NotFound (AValue None) ms.
Proof. repeat split; reflexivity. Qed.

(** C5.  The claim is that pull removes from the stored array every element
    that matches.  unpush of the file backend does; pull of the remote
    backend, on an array stored under a top-level key, runs the same loop on
    what it read and then hands the result to set, which stores the array it
    finds in the record: nothing is removed. *)
Theorem pull_top_level_removes_nothing :
  let doc := [("tags", VArr [VStr "x"; VStr "y"])] in
  let js := JsonDatabase.mkState true (Some doc) in
  let ms := MongoDatabase.mkState true true doc in
  JsonDatabase.unpush object_prototype js "tags" (Some (VStr "x"))
  = Returned Done AVoid
      (JsonDatabase.mkState true (Some [("tags", VArr [VStr "y"])]))
  /\ MongoDatabase.pull object_prototype ms "tags" (Some (VStr "x"))
     = Returned Done AVoid ms
  /\ MongoDatabase.get object_prototype ms "tags"
     = Returned Done (AValue (Some (VArr [VStr "x"; VStr "y"]))) ms.
Proof. repeat split; reflexivity. Qed.

(** ** deleteAll *)

(** C7.  deleteAll erases every top-level record when the approval is one of
    the two sentences, in Turkish or in English; with any other string it
    reports an invalid approval and leaves the store as it was. *)
Theorem deleteAll_gate (js : JsonDatabase.State) (ms : MongoDatabase.State)
    (approve : string) :
  JsonDatabase.connected js = true ->
  MongoDatabase.checkConnection ms = true ->
  (approve = approval_tr \/ approve = approval_en ->
   JsonDatabase.deleteAll js approve
   = Returned Done AVoid (JsonDatabase.mkState true (Some []))
   /\ MongoDatabase.deleteAll ms approve
      = Returned Done AVoid
          (MongoDatabase.mkState (MongoDatabase.connected ms)
             (MongoDatabase.model ms) []))
  /\ (approve <> approval_tr -> approve <> approval_en ->
      JsonDatabase.deleteAll js approve = Returned InvalidApproval AVoid js
      /\ MongoDatabase.deleteAll ms approve = Returned InvalidApproval AVoid ms).
Proof.
  intros Hj Hm.
  unfold JsonDatabase.deleteAll, MongoDatabase.deleteAll,
    JsonDatabase.CheckConnection, JsonDatabase.WriteDatabase.
  rewrite Hj, Hm. split.
  - intros Happ.
    assert (approved approve = true) as ->; [|now split].
    unfold approved. apply orb_true_iff.
    destruct Happ as [-> | ->]; [left | right]; apply String.eqb_refl.
  - intros Htr Hen.
    assert (approved approve = false) as ->; [|now split].
    unfold approved. apply orb_false_iff.
    split; now apply String.eqb_neq.
Qed.

Lemma deleteAll_gate_witness :
  let js := JsonDatabase.mkState true (Some [("a", VNum 1)]) in
  let ms := MongoDatabase.mkState true true [("a", VNum 1)] in
  (JsonDatabase.deleteAll js approval_en
   = Returned Done AVoid (JsonDatabase.mkState true (Some []))
   /\ MongoDatabase.deleteAll ms approval_en
      = Returned Done AVoid (MongoDatabase.mkState true true []))
  /\ (JsonDatabase.deleteAll js "yes" = Returned InvalidApproval AVoid js
      /\ MongoDatabase.deleteAll ms "yes" = Returned InvalidApproval AVoid ms).
Proof.
  intros js ms. split.
  - apply (deleteAll_gate js ms approval_en); [reflexivity | reflexivity |].
    right. reflexivity.
  - apply (deleteAll_gate js ms "yes"); [reflexivity | reflexivity | |];
      discriminate.
Defined.

(** ** Calls before connect *)

(** C8, the claim as stated fails: a call on a file backend that was never
    connected does not go on to recreate the file; the process exits. *)
Lemma json_call_before_connect :
  JsonDatabase.set object_prototype (JsonDatabase.mkState false None)
    "a" (Some (VNum 1))
  = Exited
  /\ JsonDatabase.set object_prototype (JsonDatabase.mkState false None)
       "a" (Some (VNum 1))
     <> Returned Done AVoid (JsonDatabase.mkState false (Some [("a", VNum 1)])).
Proof. split; [reflexivity | discriminate]. Qed.

(** C8, amended.  A call of any method before connect ends the process, in
    the file backend as in the remote backend.  connect of the file backend
    is what creates a missing file, with the empty document in it; a file
    that is there is left with what it holds. *)
Theorem call_before_connect (host : string -> bool) (c : Call)
    (js : JsonDatabase.State) (ms : MongoDatabase.State) :
  JsonDatabase.connected js = false ->
  MongoDatabase.checkConnection ms = false ->
  JsonDatabase.call host js c = Exited
  /\ MongoDatabase.call host ms c = Exited
  /\ JsonDatabase.connected (JsonDatabase.connect js) = true
  /\ (JsonDatabase.file js = None ->
      JsonDatabase.file (JsonDatabase.connect js) = Some [])
  /\ (forall d, JsonDatabase.file js = Some d ->
                JsonDatabase.file (JsonDatabase.connect js) = Some d).
Proof.
  intros Hj Hm. split; [|split; [|split; [|split]]].
  - destruct c; simpl;
      unfold JsonDatabase.set, JsonDatabase.get, JsonDatabase.getAll,
        JsonDatabase.has, JsonDatabase.add, JsonDatabase.subtract,
        JsonDatabase.delete, JsonDatabase.deleteAll, JsonDatabase.push,
        JsonDatabase.unpush, JsonDatabase.entry, JsonDatabase.CheckConnection;
      now rewrite Hj.
  - destruct c; simpl;
      unfold MongoDatabase.set, MongoDatabase.get, MongoDatabase.getAll,
        MongoDatabase.has, MongoDatabase.add, MongoDatabase.subtract,
        MongoDatabase.delete, MongoDatabase.deleteAll, MongoDatabase.push,
        MongoDatabase.pull, MongoDatabase.entry;
      now rewrite Hm.
  - unfold JsonDatabase.connect. now destruct (JsonDatabase.file js).
  - intro Hnone. unfold JsonDatabase.connect. now rewrite Hnone.
  - intros d Hsome. unfold JsonDatabase.connect. now rewrite Hsome.
Qed.

Lemma call_before_connect_witness :
  JsonDatabase.call object_prototype (JsonDatabase.mkState false None)
    (CSet "user.data" (Some (VNum 1))) = Exited
  /\ MongoDatabase.call object_prototype (MongoDatabase.mkState false false [])
       (CSet "user.data" (Some (VNum 1))) = Exited
  /\ JsonDatabase.file (JsonDatabase.connect (JsonDatabase.mkState false None))
     = Some [].
Proof.
  destruct (@call_before_connect object_prototype
              (CSet "user.data" (Some (VNum 1)))
              (JsonDatabase.mkState false None)
              (MongoDatabase.mkState false false []) eq_refl eq_refl)
    as (Hjson & Hmongo & _ & Hcreate & _).
  split; [exact Hjson | split; [exact Hmongo | exact (Hcreate eq_refl)]].
Defined.

(** ** The methods in terms of path resolution *)

Section Unfolded.

Variable host : string -> bool.
Variable key : string.
Hypothesis key_valid : key <> "".
Hypothesis key_plain : existsb host (split_dot key) = false.

Lemma json_get_unfold js :
  JsonDatabase.connected js = true ->
  JsonDatabase.get host js key
  = match JsonDatabase.get_path (VObj (JsonDatabase.ReadDatabase js))
            (split_dot key) with
    | Ok v => Returned Done (AValue (Some v)) js
    | Stop r => Returned r (AValue None) js
    | Beyond => Unmodelled
    end.
Proof.
  intro Hc. unfold JsonDatabase.get.
  now rewrite json_entry, json_in_model.
Qed.

Lemma json_has_unfold js :
  JsonDatabase.connected js = true ->
  JsonDatabase.has host js key
  = Returned Done
      (ABool (JsonDatabase.has_path (VObj (JsonDatabase.ReadDatabase js))
                (split_dot key))) js.
Proof.
  intro Hc. unfold JsonDatabase.has.
  now rewrite json_entry, json_in_model.
Qed.

Lemma json_set_unfold js v :
  JsonDatabase.connected js = true ->
  JsonDatabase.set host js key (Some v)
  = JsonDatabase.finish js
      (write_resolve (final_set v) (VObj (JsonDatabase.ReadDatabase js))
         (split_dot key)).
Proof.
  intro Hc. unfold JsonDatabase.set.
  now rewrite json_entry, json_in_model.
Qed.

Lemma json_add_unfold js n :
  JsonDatabase.connected js = true ->
  JsonDatabase.add host js key n
  = JsonDatabase.finish js
      (write_resolve (final_add n) (VObj (JsonDatabase.ReadDatabase js))
         (split_dot key)).
Proof.
  intro Hc. unfold JsonDatabase.add.
  now rewrite json_entry, json_in_model.
Qed.

Lemma json_subtract_unfold js n :
  JsonDatabase.connected js = true ->
  JsonDatabase.subtract host js key n
  = JsonDatabase.finish js
      (write_resolve (final_subtract n) (VObj (JsonDatabase.ReadDatabase js))
         (split_dot key)).
Proof.
  intro Hc. unfold JsonDatabase.subtract.
  now rewrite json_entry, json_in_model.
Qed.

(** get and has of the remote backend read the collection as one object. *)
Lemma mongo_wrapper k0 value rest :
  MongoDatabase.getNestedValue (VObj [(k0, value)]) (k0 :: rest)
  = MongoDatabase.getNestedValue value rest.
Proof. simpl. now rewrite String.eqb_refl. Qed.

Lemma mongo_read rs keys :
  keys <> [] ->
  match lookup (hd "" keys) rs with
  | Some value =>
      MongoDatabase.getNestedValue (VObj [(hd "" keys, value)]) keys
  | None => None
  end
  = MongoDatabase.getNestedValue (VObj rs) keys.
Proof.
  destruct keys as [|k0 rest]; [easy|]. intros _. simpl hd.
  destruct (lookup k0 rs) as [value|] eqn:E.
  - rewrite mongo_wrapper. simpl. now rewrite E.
  - simpl. now rewrite E.
Qed.

Lemma mongo_get_unfold ms :
  MongoDatabase.checkConnection ms = true ->
  MongoDatabase.get host ms key
  = match MongoDatabase.getNestedValue (VObj (MongoDatabase.records ms))
            (split_dot key) with
    | Some v => Returned Done (AValue (Some v)) ms
    | None => Returned NotFound (AValue None) ms
    end.
Proof.
  intro Hc. unfold MongoDatabase.get.
  rewrite mongo_entry, mongo_in_model by assumption.
  rewrite <- (mongo_read (MongoDatabase.records ms) (split_dot_nonempty key)).
  now destruct (lookup _ _).
Qed.

Lemma mongo_has_unfold ms :
  MongoDatabase.checkConnection ms = true ->
  MongoDatabase.has host ms key
  = match MongoDatabase.getNestedValue (VObj (MongoDatabase.records ms))
            (split_dot key) with
    | Some v => Returned Done (ABool true) ms
    | None => Returned Done (ABool false) ms
    end.
Proof.
  intro Hc. unfold MongoDatabase.has.
  rewrite mongo_entry, mongo_in_model by assumption.
  rewrite <- (mongo_read (MongoDatabase.records ms) (split_dot_nonempty key)).
  now destruct (lookup _ _).
Qed.

Lemma mongo_set_unfold ms v :
  MongoDatabase.checkConnection ms = true ->
  MongoDatabase.set host ms key (Some v)
  = MongoDatabase.finish ms
      (MongoDatabase.set_records (MongoDatabase.records ms) (split_dot key) v).
Proof.
  intro Hc. unfold MongoDatabase.set.
  now rewrite mongo_entry, mongo_in_model.
Qed.

End Unfolded.

(** ** Reading through a path *)


(** What the specification resolves, through objects, getNestedValue finds
    too, and it goes on from there. *)
Lemma resolved_getNestedValue pre rest : forall cur u,
  spec_read_resolve cur pre = inr u ->
  MongoDatabase.getNestedValue cur (pre ++ rest)
  = MongoDatabase.getNestedValue u rest.
Proof.
  induction pre as [|k pre IH]; intros cur u H.
  - now injection H as ->.
  - destruct cur as [ | x | n | s | l | fs]; simpl in H; try discriminate.
    destruct (lookup k fs) as [c|] eqn:E; [|discriminate].
    simpl. rewrite E. now apply IH.
Qed.

(** C3, the claim as stated fails: the path "arr.0" goes on below an array,
    which is not an object, so read-resolve in the words of the
    specification is absent; get answers the element, in both backends. *)
Lemma get_resolves_below_array :
  let doc := [("arr", VArr [VStr "x"])] in
  (exists b, spec_read_resolve (VObj doc) (split_dot "arr.0") = inl b)
  /\ JsonDatabase.get object_prototype (JsonDatabase.mkState true (Some doc))
       "arr.0"
     = Returned Done (AValue (Some (VStr "x")))
         (JsonDatabase.mkState true (Some doc))
  /\ MongoDatabase.get object_prototype (MongoDatabase.mkState true true doc)
       "arr.0"
     = Returned Done (AValue (Some (VStr "x")))
         (MongoDatabase.mkState true true doc).
Proof. repeat split; try reflexivity. now exists IsArr. Qed.

Lemma walked_getNestedValue keys : forall cur b,
  read_walk cur keys = inl b ->
  MongoDatabase.getNestedValue cur keys = None.
Proof.
  induction keys as [|k rest IH]; intros cur b H; [discriminate|].
  rewrite getNestedValue_step.
  destruct cur as [ | x | n | s | l | fs]; cbn [read_walk] in H;
    try reflexivity; cbn [is_container].
  - destruct (own_get (VArr l) k) as [c|]; [now apply (IH c b) | reflexivity].
  - destruct (own_get (VObj fs) k) as [c|]; [now apply (IH c b) | reflexivity].
Qed.

(** What read-resolve in the words of the specification does not resolve,
    short of an array, the amended one does not resolve either. *)
Lemma blocked_read_walk keys : forall cur b,
  spec_read_resolve cur keys = inl b -> b <> IsArr ->
  read_walk cur keys = inl b.
Proof.
  induction keys as [|k rest IH]; intros cur b H Harr; [discriminate|].
  destruct cur as [ | x | n | s | l | fs]; simpl in *; try assumption.
  - injection H as <-. congruence.
  - destruct (lookup k fs) as [c|]; [now apply IH | assumption].
Qed.

(** C3, amended.  Follow the path through objects, by their fields, and
    through arrays, by an index or the length.  When a segment is left at a
    value that is null, a boolean or a number, or names nothing in the
    object or the array reached (a missing field, an index past the end, a
    name that is not an index below an array, the last segment or one before
    it), get answers undefined in both backends, with no exception and no
    change of the store: the file backend logs "not found", or the failure
    that its catch block logs when the value met is null, and the remote
    backend logs "not found".  The remote backend does so as well when the
    segment is left at a string.  Every path that read-resolve in the words
    of the specification leaves unresolved short of an array is such a
    path. *)
Theorem get_absent (host : string -> bool) (js : JsonDatabase.State)
    (ms : MongoDatabase.State) (doc : Fields) (key : string) (b : Blocker) :
  JsonDatabase.connected js = true ->
  MongoDatabase.checkConnection ms = true ->
  JsonDatabase.ReadDatabase js = doc ->
  MongoDatabase.records ms = doc ->
  key <> "" ->
  existsb host (split_dot key) = false ->
  read_walk (VObj doc) (split_dot key) = inl b
  \/ (spec_read_resolve (VObj doc) (split_dot key) = inl b /\ b <> IsArr) ->
  (b <> IsStr ->
   JsonDatabase.get host js key = Returned NotFound (AValue None) js
   \/ (JsonDatabase.get host js key = Returned Failed (AValue None) js
       /\ b = IsNull))
  /\ MongoDatabase.get host ms key = Returned NotFound (AValue None) ms.
Proof.
  intros Hj Hm Hjd Hmd Hk Hh Hb.
  assert (read_walk (VObj doc) (split_dot key) = inl b) as Hwalk.
  { destruct Hb as [Hb | [Hb Harr]]; [exact Hb|].
    now apply blocked_read_walk. }
  clear Hb. split.
  - intro Hstr. rewrite json_get_unfold, Hjd by assumption.
    clear Hh. revert Hwalk Hstr. generalize (VObj doc) as cur.
    induction (split_dot key) as [|k rest IH]; intros cur H Hstr;
      [discriminate|].
    destruct cur as [ | x | n | s | l | fs]; cbn [read_walk] in H.
    + injection H as <-. right. split; reflexivity.
    + left. reflexivity.
    + left. reflexivity.
    + injection H as <-. congruence.
    + cbn [JsonDatabase.get_path].
      destruct (own_get (VArr l) k) as [c|]; [now apply IH | now left].
    + cbn [JsonDatabase.get_path].
      destruct (own_get (VObj fs) k) as [c|]; [now apply IH | now left].
  - rewrite mongo_get_unfold, Hmd by assumption.
    now rewrite (walked_getNestedValue _ _ Hwalk).
Qed.

Lemma get_absent_witness :
  let doc := [("arr", VArr [VNum 5]); ("user", VObj [("age", VNum 21)])] in
  let js := JsonDatabase.mkState true (Some doc) in
  let ms := MongoDatabase.mkState true true doc in
  JsonDatabase.get object_prototype js "arr.0.x"
  = Returned NotFound (AValue None) js
  /\ MongoDatabase.get object_prototype ms "arr.0.x"
     = Returned NotFound (AValue None) ms
  /\ JsonDatabase.get object_prototype js "arr.x"
     = Returned NotFound (AValue None) js
  /\ MongoDatabase.get object_prototype ms "user.age.unit"
     = Returned NotFound (AValue None) ms.
Proof.
  intros doc js ms.
  destruct (@get_absent object_prototype js ms doc "arr.0.x" IsNum)
    as [Hj1 Hm1]; try reflexivity; try discriminate.
  { left. reflexivity. }
  destruct (@get_absent object_prototype js ms doc "arr.x" Missing)
    as [Hj2 _]; try reflexivity; try discriminate.
  { left. reflexivity. }
  destruct (@get_absent object_prototype js ms doc "user.age.unit" IsNum)
    as [_ Hm3]; try reflexivity; try discriminate.
  { right. split; [reflexivity | discriminate]. }
  split; [|split; [exact Hm1 | split; [|exact Hm3]]].
  - destruct Hj1 as [H | [H Hb]];
      [discriminate | exact H | discriminate Hb].
  - destruct Hj2 as [H | [H Hb]];
      [discriminate | exact H | discriminate Hb].
Defined.

(** ** Writing below a path that exists *)

(** What the writing loop does below [pre], it does to the value found at
    [pre], and leaves the result there. *)
Lemma write_under final pre rest : forall cur u u',
  MongoDatabase.getNestedValue cur pre = Some u ->
  is_container u = true -> rest <> [] ->
  write_resolve final u rest = Ok u' ->
  exists cur',
    write_resolve final cur (pre ++ rest) = Ok cur'
    /\ (is_container u' = true ->
        MongoDatabase.getNestedValue cur' pre = Some u')
    /\ (forall fs, pre <> [] -> cur = VObj fs -> exists fs', cur' = VObj fs').
Proof.
  induction pre as [|k pre IH]; intros cur u u' H Hu Hne Hw.
  - injection H as ->. exists u'. repeat split; auto. easy.
  - apply getNestedValue_first in H as (Hc & c & Hk & Hrest).
    assert (is_container c = true) as Hcc.
    { destruct pre; [now injection Hrest as -> |].
      now apply getNestedValue_first in Hrest. }
    destruct (IH c u u' Hrest Hu Hne Hw) as (c' & Hwc & Hgc & _).
    destruct (assign_enterable cur k c' (own_get_container _ _ Hk Hcc))
      as (cur' & Ha & Hg & Hcc' & Ho).
    exists cur'. simpl app.
    destruct (pre ++ rest) as [|k2 tail] eqn:E.
    { apply app_eq_nil in E as [_ ->]. easy. }
    rewrite write_resolve_step, (descend_found _ _ Hk Hcc), Hwc. simpl bind.
    repeat split; auto.
    + intro Hu'. rewrite getNestedValue_step, Hcc', Hg. now apply Hgc.
    + intros fs _ ->. eexists. now apply Ho.
Qed.

(** C4, the claim as stated fails: has with the path "arr.0" below a stored
    array answers true in both backends, and set with that path stores into
    the array; no fresh object takes the place of the array. *)
Lemma has_and_set_enter_array :
  let doc := [("arr", VArr [VStr "x"; VStr "y"])] in
  JsonDatabase.has object_prototype (JsonDatabase.mkState true (Some doc))
    "arr.0"
  = Returned Done (ABool true) (JsonDatabase.mkState true (Some doc))
  /\ MongoDatabase.has object_prototype (MongoDatabase.mkState true true doc)
       "arr.0"
     = Returned Done (ABool true) (MongoDatabase.mkState true true doc)
  /\ JsonDatabase.set object_prototype (JsonDatabase.mkState true (Some doc))
       "arr.0" (Some (VNum 1))
     = Returned Done AVoid
         (JsonDatabase.mkState true (Some [("arr", VArr [VNum 1; VStr "y"])]))
  /\ JsonDatabase.set object_prototype (JsonDatabase.mkState true (Some doc))
       "arr.0" (Some (VNum 1))
     <> Returned Done AVoid
          (JsonDatabase.mkState true (Some [("arr", VObj [("0", VNum 1)])])).
Proof. repeat split; try reflexivity. discriminate. Qed.

(** C4, amended.  Path resolution enters arrays: for an array stored at a
    path and an index [i] of one of its elements, get with the path extended
    by [i] answers that element and has answers true, in both backends; and
    set with that path, in the file backend, replaces the element in the
    stored array. *)
Theorem array_index_resolves (host : string -> bool)
    (js : JsonDatabase.State) (ms : MongoDatabase.State) (doc : Fields)
    (pkey key : string) (l : list Value) (i : nat) (x v : Value) :
  JsonDatabase.connected js = true ->
  MongoDatabase.checkConnection ms = true ->
  JsonDatabase.ReadDatabase js = doc ->
  MongoDatabase.records ms = doc ->
  pkey <> "" -> key <> "" ->
  split_dot key = split_dot pkey ++ [index_name i] ->
  existsb host (split_dot key) = false ->
  spec_read_resolve (VObj doc) (split_dot pkey) = inr (VArr l) ->
  (N.of_nat i < 4294967295)%N ->
  nth_error l i = Some x ->
  JsonDatabase.get host js key = Returned Done (AValue (Some x)) js
  /\ JsonDatabase.has host js key = Returned Done (ABool true) js
  /\ MongoDatabase.get host ms key = Returned Done (AValue (Some x)) ms
  /\ MongoDatabase.has host ms key = Returned Done (ABool true) ms
  /\ exists js',
       JsonDatabase.set host js key (Some v) = Returned Done AVoid js'
       /\ JsonDatabase.get host js' pkey
          = Returned Done (AValue (Some (VArr (set_index i v l)))) js'.
Proof.
  intros Hj Hm Hjd Hmd Hpk Hk Hsplit Hh Hres Hi Hx.
  assert (MongoDatabase.getNestedValue (VObj doc) (split_dot key) = Some x)
    as Hfound.
  { rewrite Hsplit, (resolved_getNestedValue _ _ _ Hres). simpl.
    now rewrite (@array_index_name i Hi), Hx. }
  assert (existsb host (split_dot pkey) = false) as Hhp.
  { rewrite Hsplit, existsb_app in Hh. now apply orb_false_iff in Hh. }
  repeat split.
  - rewrite json_get_unfold, Hjd by assumption.
    now rewrite (getNestedValue_get_path _ _ Hfound).
  - rewrite json_has_unfold, Hjd, has_path_getNestedValue by assumption.
    now rewrite Hfound.
  - rewrite mongo_get_unfold, Hmd by assumption. now rewrite Hfound.
  - rewrite mongo_has_unfold, Hmd by assumption. now rewrite Hfound.
  - assert (MongoDatabase.getNestedValue (VObj doc) (split_dot pkey)
            = Some (VArr l)) as Hparent.
    { rewrite <- (app_nil_r (split_dot pkey)).
      now rewrite (resolved_getNestedValue _ _ _ Hres). }
    assert (write_resolve (final_set v) (VArr l) [index_name i]
            = Ok (VArr (set_index i v l))) as Hw.
    { simpl. unfold final_set. simpl. now rewrite (@array_index_name i Hi). }
    destruct (write_under (final_set v) (split_dot pkey)
                (rest := [index_name i]) (VObj doc) Hparent eq_refl
                ltac:(discriminate) Hw) as (cur' & Hw' & Hg' & Ho).
    destruct (Ho doc (split_dot_nonempty pkey) eq_refl) as [data' ->].
    exists (JsonDatabase.WriteDatabase js data').
    rewrite json_set_unfold, Hjd, Hsplit, Hw' by assumption.
    split; [reflexivity|].
    rewrite json_get_unfold; try assumption.
    change (JsonDatabase.ReadDatabase (JsonDatabase.WriteDatabase js data'))
      with data'.
    now rewrite (getNestedValue_get_path _ _ (Hg' eq_refl)).
Qed.

Lemma array_index_resolves_witness :
  let doc := [("user", VObj [("tags", VArr [VStr "x"; VStr "y"])])] in
  let js := JsonDatabase.mkState true (Some doc) in
  let ms := MongoDatabase.mkState true true doc in
  JsonDatabase.get object_prototype js "user.tags.1"
  = Returned Done (AValue (Some (VStr "y"))) js
  /\ JsonDatabase.has object_prototype js "user.tags.1"
     = Returned Done (ABool true) js
  /\ MongoDatabase.get object_prototype ms "user.tags.1"
     = Returned Done (AValue (Some (VStr "y"))) ms
  /\ MongoDatabase.has object_prototype ms "user.tags.1"
     = Returned Done (ABool true) ms
  /\ exists js',
       JsonDatabase.set object_prototype js "user.tags.1" (Some (VNum 7))
       = Returned Done AVoid js'
       /\ JsonDatabase.get object_prototype js' "user.tags"
          = Returned Done
              (AValue (Some (VArr (set_index 1 (VNum 7) [VStr "x"; VStr "y"]))))
              js'.
Proof.
  intros doc js ms.
  apply (@array_index_resolves object_prototype js ms doc
           "user.tags" "user.tags.1" [VStr "x"; VStr "y"] 1 (VStr "y") (VNum 7));
    try reflexivity; discriminate.
Defined.

(** ** set, then get *)

Lemma get_path_step cur k rest :
  is_container cur = true ->
  JsonDatabase.get_path cur (k :: rest)
  = match own_get cur k with
    | Some c => JsonDatabase.get_path c rest
    | None => Stop NotFound
    end.
Proof. destruct cur; simpl; auto; discriminate. Qed.

Lemma indexed_path_step cur k rest :
  is_container cur = true ->
  indexed_path cur (k :: rest) = true ->
  enterable cur k = true /\ indexed_path (descend cur k) rest = true.
Proof.
  intros Hc H. simpl in H. apply andb_prop in H as [Hk Hrest].
  split; auto. destruct cur; simpl in *; auto.
Qed.

(** What the writing loop stores, the loop of get finds, when every array on
    the way is entered by an index. *)
Lemma write_then_read v keys : forall cur,
  keys <> [] -> is_container cur = true -> indexed_path cur keys = true ->
  exists cur',
    write_resolve (final_set v) cur keys = Ok cur'
    /\ JsonDatabase.get_path cur' keys = Ok v
    /\ is_container cur' = true
    /\ (forall fs, cur = VObj fs -> exists fs', cur' = VObj fs').
Proof.
  induction keys as [|k rest IH]; intros cur Hne Hc Hi; [easy|].
  apply indexed_path_step in Hi as [He Hi]; auto.
  destruct rest as [|k2 rest].
  - destruct (assign_enterable cur k v He) as (cur' & Ha & Hg & Hcc & Ho).
    exists cur'. simpl write_resolve. unfold final_set.
    rewrite Ha, get_path_step, Hg by assumption.
    repeat split; auto. intros fs ->. eexists. now apply Ho.
  - destruct (IH (descend cur k)) as (c' & Hw & Hg' & Hcc' & _);
      [discriminate | apply descend_container | assumption |].
    destruct (assign_enterable cur k c' He) as (cur' & Ha & Hg & Hcc & Ho).
    exists cur'. rewrite write_resolve_step, Hw. simpl bind.
    rewrite Ha, get_path_step, Hg by assumption.
    repeat split; auto. intros fs ->. eexists. now apply Ho.
Qed.

(** C2, the claim as stated fails: with an array stored at "arr", set with
    the key "arr.x" puts a property on the array that the JSON text of the
    file does not carry, and get with the same key answers "not found". *)
Lemma set_get_lost_below_array :
  let js := JsonDatabase.mkState true (Some [("arr", VArr [VNum 7])]) in
  JsonDatabase.set object_prototype js "arr.x" (Some (VNum 1))
  = Returned Done AVoid js
  /\ JsonDatabase.get object_prototype js "arr.x"
     = Returned NotFound (AValue None) js.
Proof. split; reflexivity. Qed.

(** C2, amended.  In the file backend, for every non-empty key and every
    value, when every array that the path goes through is entered by an
    index, set and then get with the same key answers that value, which
    deepEqual accepts as equal to what was stored. *)
Theorem set_then_get (host : string -> bool) (js : JsonDatabase.State)
    (key : string) (v : Value) :
  JsonDatabase.connected js = true ->
  key <> "" ->
  existsb host (split_dot key) = false ->
  indexed_path (VObj (JsonDatabase.ReadDatabase js)) (split_dot key) = true ->
  exists js',
    JsonDatabase.set host js key (Some v) = Returned Done AVoid js'
    /\ JsonDatabase.get host js' key = Returned Done (AValue (Some v)) js'
    /\ (wf_value v = true -> deepEqual v v = true).
Proof.
  intros Hj Hk Hh Hi.
  destruct (@write_then_read v (split_dot key)
              (VObj (JsonDatabase.ReadDatabase js))
              (split_dot_nonempty key) eq_refl Hi)
    as (cur' & Hw & Hg & _ & Ho).
  destruct (Ho _ eq_refl) as [data' ->].
  exists (JsonDatabase.WriteDatabase js data').
  rewrite json_set_unfold, Hw by assumption.
  repeat split.
  - rewrite json_get_unfold by assumption.
    change (JsonDatabase.ReadDatabase (JsonDatabase.WriteDatabase js data'))
      with data'.
    now rewrite Hg.
  - apply deepEqual_refl.
Qed.

Lemma set_then_get_witness :
  let js := JsonDatabase.mkState true (Some [("user", VObj [("name", VStr "y")])]) in
  let v := VObj [("age", VNum 21); ("tags", VArr [VStr "a"])] in
  exists js',
    JsonDatabase.set object_prototype js "user.data" (Some v)
    = Returned Done AVoid js'
    /\ JsonDatabase.get object_prototype js' "user.data"
       = Returned Done (AValue (Some v)) js'
    /\ (wf_value v = true -> deepEqual v v = true).
Proof.
  intros js v.
  apply (@set_then_get object_prototype js "user.data" v);
    try reflexivity; discriminate.
Defined.

(** ** add and subtract *)


Lemma getNestedValue_empty_object k rest :
  MongoDatabase.getNestedValue (VObj []) (k :: rest) = None.
Proof. reflexivity. Qed.

Lemma getNestedValue_descend cur k k2 rest :
  is_container cur = true ->
  MongoDatabase.getNestedValue cur (k :: k2 :: rest) = None ->
  MongoDatabase.getNestedValue (descend cur k) (k2 :: rest) = None.
Proof.
  intros Hc. rewrite getNestedValue_step, Hc. unfold descend.
  destruct (own_get cur k) as [c|]; [|reflexivity].
  destruct (is_container c) eqn:E; auto.
Qed.


(** ** unpush and pull *)

Lemma mongo_state_eta ms :
  MongoDatabase.mkState (MongoDatabase.connected ms) (MongoDatabase.model ms)
    (MongoDatabase.records ms) = ms.
Proof. now destruct ms. Qed.

Lemma container_truthy v : is_container v = true -> truthy v = true.
Proof. destruct v; simpl; auto; discriminate. Qed.

(** set of the remote backend on a path that holds an object or an array
    changes nothing: the record exists and its value is truthy. *)
Lemma mongo_set_existing x keys rs u :
  MongoDatabase.getNestedValue (VObj rs) keys = Some u ->
  is_container u = true -> keys <> [] ->
  MongoDatabase.set_records rs keys x = Ok rs
  \/ MongoDatabase.set_records rs keys x = Stop Failed.
Proof.
  intros H Hu Hne. destruct keys as [|k0 rest]; [easy|].
  pose proof H as Hfirst.
  apply getNestedValue_first in Hfirst as (_ & old & Hk & Hrest).
  simpl in Hk. unfold MongoDatabase.set_records.
  destruct (String.eqb k0 ""); [now right | left].
  rewrite Hk.
  assert (truthy old = true) as ->.
  { destruct rest as [|k2 rest].
    - injection Hrest as ->. now apply container_truthy.
    - apply container_truthy. now apply getNestedValue_first in Hrest. }
  rewrite setNestedValue_write_resolve by discriminate.
  rewrite <- (mongo_wrapper k0 old rest) in Hrest.
  destruct (@write_existing x _ _ _ Hrest Hu ltac:(discriminate))
    as (literal & -> & _).
  reflexivity.
Qed.

Lemma final_unpush_found v p k l :
  own_get p k = Some (VArr l) ->
  final_unpush v p k
  = if (0 <? List.length l - List.length (survivors v l))%nat
    then assign p k (VArr (survivors v l))
    else Stop NoMatch.
Proof.
  intro H. unfold final_unpush. now rewrite H, removal_loop_survivors.
Qed.

(** C9.  The elements that pull does not remove stay in the stored array in
    the order they had: after unpush of the file backend the stored array is
    the array of the survivors; after pull of the remote backend the stored
    array leaves out some elements of the old one, keeps the order of the
    others, and holds every survivor. *)
Theorem pull_keeps_order (host : string -> bool) (js : JsonDatabase.State)
    (ms : MongoDatabase.State) (key : string) (v : Value) (l : list Value) :
  JsonDatabase.connected js = true ->
  MongoDatabase.checkConnection ms = true ->
  key <> "" ->
  existsb host (split_dot key ++ map fst (own_entries v)) = false ->
  (JsonDatabase.get host js key = Returned Done (AValue (Some (VArr l))) js ->
   exists r js',
     JsonDatabase.unpush host js key (Some v) = Returned r AVoid js'
     /\ JsonDatabase.get host js' key
        = Returned Done (AValue (Some (VArr (survivors v l)))) js'
     /\ subseq (survivors v l) l)
  /\ (MongoDatabase.get host ms key
      = Returned Done (AValue (Some (VArr l))) ms ->
      exists r ms' l',
        MongoDatabase.pull host ms key (Some v) = Returned r AVoid ms'
        /\ MongoDatabase.get host ms' key
           = Returned Done (AValue (Some (VArr l'))) ms'
        /\ subseq l' l
        /\ survivors v l' = survivors v l).
Proof.
  intros Hj Hm Hk Hh.
  pose proof (split_dot_nonempty key) as Hne.
  pose proof Hh as Hh'. rewrite existsb_app in Hh'.
  apply orb_false_iff in Hh' as [Hkeys Hprobe].
  split.
  - intro Hget. pose proof Hget as Hfound.
    rewrite json_get_unfold in Hfound by assumption.
    destruct (JsonDatabase.get_path _ _) as [u| |] eqn:E; try discriminate.
    injection Hfound as ->.
    apply get_path_getNestedValue in E; [|reflexivity].
    unfold JsonDatabase.unpush.
    rewrite json_entry, json_in_model by assumption.
    rewrite (strict_resolve_existing _ _ _ _ E).
    destruct (0 <? List.length l - List.length (survivors v l))%nat eqn:R.
    + rewrite (write_resolve_congr (final_unpush v)
                 (final_set (VArr (survivors v l))) _ _ E).
      2:{ intros p k _ Hp. now rewrite (final_unpush_found v _ _ Hp), R. }
      destruct (@write_existing (VArr (survivors v l)) _ _ _ E eq_refl Hne)
        as (cur' & Hw & Hg & Ho).
      destruct (Ho _ eq_refl) as [data' ->].
      rewrite Hw. exists Done, (JsonDatabase.WriteDatabase js data').
      repeat split; [|apply survivors_subseq].
      rewrite json_get_unfold by assumption.
      change (JsonDatabase.ReadDatabase (JsonDatabase.WriteDatabase js data'))
        with data'.
      now rewrite (getNestedValue_get_path _ _ Hg).
    + rewrite (write_resolve_congr (final_unpush v)
                 (fun _ _ => Stop NoMatch) _ _ E).
      2:{ intros p k _ Hp. now rewrite (final_unpush_found v _ _ Hp), R. }
      rewrite write_resolve_stop by assumption.
      exists NoMatch, js. rewrite (survivors_none_removed _ _ R).
      repeat split; [exact Hget | apply subseq_refl].
  - intro Hget. pose proof Hget as Hfound.
    rewrite mongo_get_unfold in Hfound by assumption.
    destruct (MongoDatabase.getNestedValue _ _) as [u|] eqn:E;
      [|discriminate].
    injection Hfound as ->.
    unfold MongoDatabase.pull.
    rewrite mongo_entry, mongo_in_model, Hget by assumption.
    rewrite removal_loop_survivors.
    destruct (0 <? List.length l - List.length (survivors v l))%nat eqn:R.
    + destruct (@mongo_set_existing (VArr (survivors v l)) _ _ _ E eq_refl Hne)
        as [Hs | Hs];
        rewrite mongo_set_unfold, Hs by assumption; simpl.
      * exists Done, ms, l. rewrite mongo_state_eta.
        repeat split; [exact Hget | apply subseq_refl].
      * exists Failed, ms, l.
        repeat split; [exact Hget | apply subseq_refl].
    + exists NoMatch, ms, l. repeat split; [exact Hget | apply subseq_refl].
Qed.

Lemma pull_keeps_order_witness :
  let doc := [("user", VObj [("tags", VArr [VStr "x"; VStr "y"; VStr "x"; VStr "z"])])] in
  let js := JsonDatabase.mkState true (Some doc) in
  let ms := MongoDatabase.mkState true true doc in
  let l := [VStr "x"; VStr "y"; VStr "x"; VStr "z"] in
  (exists r js',
     JsonDatabase.unpush object_prototype js "user.tags" (Some (VStr "x"))
     = Returned r AVoid js'
     /\ JsonDatabase.get object_prototype js' "user.tags"
        = Returned Done (AValue (Some (VArr (survivors (VStr "x") l)))) js'
     /\ subseq (survivors (VStr "x") l) l)
  /\ (exists r ms' l',
        MongoDatabase.pull object_prototype ms "user.tags" (Some (VStr "x"))
        = Returned r AVoid ms'
        /\ MongoDatabase.get object_prototype ms' "user.tags"
           = Returned Done (AValue (Some (VArr l'))) ms'
        /\ subseq l' l
        /\ survivors (VStr "x") l' = survivors (VStr "x") l).
Proof.
  intros doc js ms l.
  destruct (@pull_keeps_order object_prototype js ms "user.tags" (VStr "x") l)
    as [Hj Hm]; try reflexivity; try discriminate.
  split; [apply Hj | apply Hm]; reflexivity.
Defined.

(** ** Key validation *)

Lemma clean_bind (A B : Type) (m : Res A) (f : A -> Res B) :
  clean m -> (forall a, clean (f a)) -> clean (bind m f).
Proof. destruct m; simpl; auto. Qed.

Lemma clean_length_of x : clean (length_of x).
Proof. unfold length_of. break_match. Qed.

Lemma clean_assign cur k x : clean (assign cur k x).
Proof.
  unfold assign. destruct cur; simpl; auto.
  destruct (array_index k); simpl; auto.
  destruct (String.eqb k "length"); simpl; auto.
  apply clean_bind; [apply clean_length_of|].
  intro n. now destruct ((0 <=? n)%Z && (n <? 4294967296)%Z).
Qed.

Lemma clean_assign_number cur k s : clean (assign_number cur k s).
Proof.
  unfold assign_number. destruct (round_double s);
    [apply clean_assign|].
  destruct cur; try apply clean_assign.
  destruct (array_index k); [apply clean_assign | exact I].
Qed.

Lemma clean_delete_prop cur k : clean (delete_prop cur k).
Proof. unfold delete_prop. break_match. Qed.

Lemma clean_write_resolve final keys :
  (forall p k, clean (final p k)) ->
  forall cur, clean (write_resolve final cur keys).
Proof.
  intro Hf. induction keys as [|k rest IH]; intro cur; simpl; auto.
  destruct rest as [|k2 rest]; auto.
  apply clean_bind; auto. intro. apply clean_assign.
Qed.

Lemma clean_strict_resolve missing final keys :
  missing <> InvalidKey -> (forall p k, clean (final p k)) ->
  forall cur, clean (strict_resolve missing final cur keys).
Proof.
  intros Hm Hf. induction keys as [|k rest IH]; intro cur; simpl; auto.
  destruct rest as [|k2 rest]; auto.
  destruct (own_get cur k) as [c|]; [|now destruct missing].
  destruct (is_container c); [|now destruct missing].
  apply clean_bind; auto. intro. apply clean_assign.
Qed.

Lemma clean_final_set v p k : clean (final_set v p k).
Proof. apply clean_assign. Qed.

Lemma clean_final_add n p k : clean (final_add n p k).
Proof.
  unfold final_add. destruct (own_get p k) as [[]|];
    simpl; auto using clean_assign, clean_assign_number.
Qed.

Lemma clean_final_subtract n p k : clean (final_subtract n p k).
Proof.
  unfold final_subtract. destruct (own_get p k) as [[]|];
    simpl; auto using clean_assign, clean_assign_number.
Qed.

Lemma clean_final_push v p k : clean (final_push v p k).
Proof.
  assert (clean (match p, array_index k with
                 | VArr _, None =>
                     if String.eqb k "length" then Stop Failed
                     else assign p k (VArr [v])
                 | _, _ => assign p k (VArr [v])
                 end)) as Hrest.
  { destruct p; try apply clean_assign.
    destruct (array_index k); [apply clean_assign|].
    destruct (String.eqb k "length"); [exact I | apply clean_assign]. }
  unfold final_push. destruct (own_get p k) as [[]|];
    auto using clean_assign.
Qed.

Lemma clean_final_delete p k : clean (final_delete p k).
Proof.
  unfold final_delete. destruct (own_get p k);
    simpl; auto using clean_delete_prop.
Qed.

Lemma clean_final_unpush v p k : clean (final_unpush v p k).
Proof.
  unfold final_unpush. destruct (own_get p k) as [[]|]; simpl; auto.
  destruct (removal_loop _ _ _ _) as [kept removed].
  destruct (0 <? removed)%nat; simpl; auto using clean_assign.
Qed.

Lemma clean_get_path keys : forall cur, clean (JsonDatabase.get_path cur keys).
Proof.
  induction keys as [|k rest IH]; intro cur; [exact I|].
  cbn [JsonDatabase.get_path].
  destruct (own_get cur k) as [c|]; destruct cur; simpl; auto.
Qed.

Lemma clean_setNestedValue v path :
  forall obj, clean (MongoDatabase.setNestedValue obj path v).
Proof.
  induction path as [|k rest IH]; intro obj; simpl; auto.
  destruct rest as [|k2 rest]; [apply clean_assign|].
  apply clean_bind; auto. intro. apply clean_assign.
Qed.

Lemma clean_save_value rs k0 x : clean (MongoDatabase.save_value rs k0 x).
Proof.
  unfold MongoDatabase.save_value.
  destruct x; try exact I; now destruct (MongoDatabase.holds_empty_object _).
Qed.

Lemma clean_set_records rs keys v : clean (MongoDatabase.set_records rs keys v).
Proof.
  unfold MongoDatabase.set_records. destruct keys as [|k0 rest]; [exact I|].
  cbv beta iota. destruct (String.eqb k0 ""); [exact I|].
  destruct (lookup k0 rs) as [old|].
  - destruct (truthy old).
    + apply clean_bind; [apply clean_setNestedValue | intro; exact I].
    + apply clean_bind; [apply clean_setNestedValue|].
      intro. destruct rest; [exact I|].
      destruct (own_get _ _); [apply clean_save_value | exact I].
  - apply clean_bind; [apply clean_setNestedValue|].
    intro. destruct (own_get _ _); [apply clean_save_value | exact I].
Qed.

Lemma clean_mutate_at f path :
  (forall p, clean (f p)) ->
  forall cur, clean (MongoDatabase.mutate_at f cur path).
Proof.
  intro Hf. induction path as [|k rest IH]; intro cur; simpl; auto.
  destruct (own_get cur k); simpl; auto.
  apply clean_bind; auto. intro. apply clean_assign.
Qed.

Lemma clean_delete_nested rs keys : clean (MongoDatabase.delete_nested rs keys).
Proof.
  unfold MongoDatabase.delete_nested. destruct keys as [|k0 rest]; [exact I|].
  cbv beta iota zeta. destruct (lookup k0 rs); [|exact I].
  destruct (MongoDatabase.getNestedValue _ _) as [parent|]; [|exact I].
  destruct (is_container parent); [|exact I].
  destruct (own_get parent _); [|exact I].
  apply clean_bind.
  - apply clean_mutate_at. intro. apply clean_delete_prop.
  - intro. now destruct (String.eqb k0 "").
Qed.

Lemma accepted_json_finish js res :
  clean res -> accepted (JsonDatabase.finish js res).
Proof. destruct res as [[]|[]|]; simpl; auto. Qed.

Lemma accepted_mongo_finish ms res :
  clean res -> accepted (MongoDatabase.finish ms res).
Proof. destruct res as [|[]|]; simpl; auto. Qed.

Lemma accepted_json_in_model host names (o : Outcome JsonDatabase.State) :
  accepted o -> accepted (JsonDatabase.in_model host names o).
Proof. unfold JsonDatabase.in_model. now destruct (existsb host names). Qed.

Lemma accepted_mongo_in_model host names (o : Outcome MongoDatabase.State) :
  accepted o -> accepted (MongoDatabase.in_model host names o).
Proof. unfold MongoDatabase.in_model. now destruct (existsb host names). Qed.

Lemma accepted_mongo_set host ms key value :
  key <> "" -> accepted (MongoDatabase.set host ms key value).
Proof.
  intro Hk. unfold MongoDatabase.set, MongoDatabase.entry.
  rewrite (invalid_key_false Hk).
  destruct (MongoDatabase.checkConnection ms); simpl; auto.
  destruct value; simpl; auto.
  apply accepted_mongo_in_model, accepted_mongo_finish, clean_set_records.
Qed.

Lemma json_call_accepted host js c key :
  call_key c = Some key -> key <> "" -> accepted (JsonDatabase.call host js c).
Proof.
  intros Hc Hk.
  destruct c; simpl in Hc; try discriminate; injection Hc as ->; simpl;
    unfold JsonDatabase.set, JsonDatabase.get, JsonDatabase.has,
      JsonDatabase.add, JsonDatabase.subtract, JsonDatabase.delete,
      JsonDatabase.push, JsonDatabase.unpush, JsonDatabase.entry;
    rewrite (invalid_key_false Hk);
    (destruct (JsonDatabase.CheckConnection js); [|exact I]);
    try (destruct value; [|exact I]);
    apply accepted_json_in_model;
    try (apply accepted_json_finish;
         first [ apply clean_write_resolve | apply clean_strict_resolve ];
         first [ discriminate | intros; auto using clean_final_set,
                   clean_final_add, clean_final_subtract, clean_final_push,
                   clean_final_delete, clean_final_unpush ]).
  - pose proof (clean_get_path (split_dot key)
                  (VObj (JsonDatabase.ReadDatabase js))) as Hg.
    destruct (JsonDatabase.get_path _ _) as [|[]|]; simpl in *; auto.
  - exact I.
Qed.

Lemma mongo_call_accepted host ms c key :
  call_key c = Some key -> key <> "" -> accepted (MongoDatabase.call host ms c).
Proof.
  intros Hc Hk.
  destruct c; simpl in Hc; try discriminate; injection Hc as ->; simpl;
    try (now apply accepted_mongo_set);
    unfold MongoDatabase.get, MongoDatabase.has, MongoDatabase.add,
      MongoDatabase.subtract, MongoDatabase.delete, MongoDatabase.push,
      MongoDatabase.pull, MongoDatabase.entry;
    rewrite (invalid_key_false Hk);
    (destruct (MongoDatabase.checkConnection ms); [|exact I]).
  - apply accepted_mongo_in_model. break_match.
  - apply accepted_mongo_in_model. break_match.
  - break_match; now apply accepted_mongo_set.
  - break_match; now apply accepted_mongo_set.
  - apply accepted_mongo_in_model.
    destruct (split_dot key) as [|k0 [|k2 rest]];
      try apply accepted_mongo_finish, clean_delete_nested.
    break_match.
  - break_match; now apply accepted_mongo_set.
  - destruct value; [|exact I]. apply accepted_mongo_in_model.
    break_match; now apply accepted_mongo_set.
Qed.

(** ** Further properties of the two stores *)







Ltac split_matches :=
  repeat match goal with
         | |- context [match ?x with _ => _ end] => destruct x
         end.

Ltac unfold_json_methods :=
  unfold JsonDatabase.call, JsonDatabase.set, JsonDatabase.get,
    JsonDatabase.getAll, JsonDatabase.has, JsonDatabase.add,
    JsonDatabase.subtract, JsonDatabase.delete, JsonDatabase.deleteAll,
    JsonDatabase.push, JsonDatabase.unpush, JsonDatabase.entry,
    JsonDatabase.in_model, JsonDatabase.finish, JsonDatabase.CheckConnection.

Ltac unfold_mongo_methods :=
  unfold MongoDatabase.call, MongoDatabase.add, MongoDatabase.subtract,
    MongoDatabase.push, MongoDatabase.pull, MongoDatabase.delete,
    MongoDatabase.deleteAll, MongoDatabase.getAll, MongoDatabase.has,
    MongoDatabase.set, MongoDatabase.get, MongoDatabase.entry,
    MongoDatabase.in_model, MongoDatabase.finish.

(** X3.  A call that ends with a report other than success leaves the store
    as it found it: no method of either backend writes and then warns. *)
Theorem warnings_leave_store (host : string -> bool) (c : Call)
    (r : Report) (a : Answer) :
  r <> Done ->
  (forall js js', JsonDatabase.call host js c = Returned r a js' -> js' = js)
  /\ (forall ms ms',
         MongoDatabase.call host ms c = Returned r a ms' -> ms' = ms).
Proof.
  intro Hr. split.
  - intros js js'. destruct c; unfold_json_methods; split_matches;
      intro H; try discriminate;
      try (injection H as <- <- <-; first [reflexivity | now elim Hr]).
  - intros ms ms'. destruct c; unfold_mongo_methods; split_matches;
      intro H; try discriminate;
      try (injection H as <- <- <-; first [reflexivity | now elim Hr]).
Qed.

Lemma warnings_leave_store_witness :
  let js := JsonDatabase.mkState true (Some [("name", VStr "y")]) in
  let ms := MongoDatabase.mkState true true [("name", VStr "y")] in
  (forall js',
      JsonDatabase.call object_prototype js (CAdd "name" 1)
      = Returned NotANumber AVoid js' -> js' = js)
  /\ (forall ms',
         MongoDatabase.call object_prototype ms (CPull "name" (Some (VNum 1)))
         = Returned NotAnArray AVoid ms' -> ms' = ms).
Proof.
  intros js ms. split.
  - intros js'.
    apply (@warnings_leave_store object_prototype (CAdd "name" 1)
             NotANumber AVoid ltac:(discriminate)).
  - intros ms'.
    apply (@warnings_leave_store object_prototype
             (CPull "name" (Some (VNum 1))) NotAnArray AVoid
             ltac:(discriminate)).
Defined.

Lemma mongo_get_not_exited host st key :
  MongoDatabase.checkConnection st = true ->
  MongoDatabase.get host st key <> Exited.
Proof.
  intro H. unfold MongoDatabase.get, MongoDatabase.entry,
    MongoDatabase.in_model.
  rewrite H. split_matches; discriminate.
Qed.

Lemma mongo_set_not_exited host st key value :
  MongoDatabase.checkConnection st = true ->
  MongoDatabase.set host st key value <> Exited.
Proof.
  intro H. unfold MongoDatabase.set, MongoDatabase.entry,
    MongoDatabase.in_model, MongoDatabase.finish.
  rewrite H. split_matches; discriminate.
Qed.

(** X4.  Once connect has run, no call ends the process, in either backend;
    once disconnect of the remote backend has run, every call ends it. *)
Theorem connection_gates (host : string -> bool) (c : Call)
    (js : JsonDatabase.State) (ms : MongoDatabase.State) :
  JsonDatabase.call host (JsonDatabase.connect js) c <> Exited
  /\ MongoDatabase.call host (MongoDatabase.connect ms) c <> Exited
  /\ MongoDatabase.call host (MongoDatabase.disconnect ms) c = Exited.
Proof.
  split; [|split].
  - unfold JsonDatabase.connect. destruct (JsonDatabase.file js);
      destruct c; unfold_json_methods; simpl JsonDatabase.connected;
      cbv iota; split_matches; discriminate.
  - assert (MongoDatabase.checkConnection (MongoDatabase.connect ms) = true)
      as Hc by reflexivity.
    pose proof (fun key =>
                  @mongo_get_not_exited host (MongoDatabase.connect ms) key Hc)
      as Hget.
    pose proof (fun key value =>
                  @mongo_set_not_exited host (MongoDatabase.connect ms) key
                    value Hc) as Hset.
    destruct c; simpl MongoDatabase.call;
      try (now apply Hget); try (now apply Hset);
      unfold MongoDatabase.getAll, MongoDatabase.has, MongoDatabase.add,
        MongoDatabase.subtract, MongoDatabase.delete,
        MongoDatabase.deleteAll, MongoDatabase.push, MongoDatabase.pull,
        MongoDatabase.entry, MongoDatabase.in_model, MongoDatabase.finish;
      rewrite Hc;
      try (destruct (invalid_key key); [discriminate|]);
      try (destruct value as [v|]; [|discriminate]);
      try (destruct (existsb host _); [discriminate|]);
      try (generalize (Hget key);
           destruct (MongoDatabase.get host (MongoDatabase.connect ms) key)
             as [| |r a st]; intro Hg; [now elim Hg | discriminate |]);
      split_matches; try discriminate; now apply Hset.
  - unfold MongoDatabase.disconnect.
    destruct c; unfold_mongo_methods; unfold MongoDatabase.checkConnection;
      simpl MongoDatabase.connected; reflexivity.
Qed.








(** ** delete *)

Lemma lookup_remove_key_same (A : Type) k (fs : list (string * A)) :
  lookup k (remove_key k fs) = None.
Proof.
  unfold remove_key. induction fs as [|[k' y] fs IH]; simpl; auto.
  destruct (String.eqb k k') eqn:E; simpl; auto. now rewrite E.
Qed.




Lemma json_delete_unfold host key js :
  key <> "" -> existsb host (split_dot key) = false ->
  JsonDatabase.connected js = true ->
  JsonDatabase.delete host js key
  = JsonDatabase.finish js
      (strict_resolve DoesNotExist final_delete
         (VObj (JsonDatabase.ReadDatabase js)) (split_dot key)).
Proof.
  intros Hk Hh Hc. unfold JsonDatabase.delete.
  now rewrite json_entry, json_in_model.
Qed.










(** ** Writing twice *)

Lemma bind_ext (A B : Type) (m : Res A) (f g : A -> Res B) :
  (forall a, f a = g a) -> bind m f = bind m g.
Proof. intro H. destruct m; simpl; auto. Qed.

Lemma set_index_set_index i x y l :
  set_index i y (set_index i x l) = set_index i y l.
Proof.
  revert l. induction i as [|i IH]; intros [|z l]; simpl; auto;
    now rewrite IH.
Qed.

Lemma assign_assign cur k x y cur1 :
  enterable cur k = true -> assign cur k x = Ok cur1 ->
  assign cur1 k y = assign cur k y.
Proof.
  destruct cur as [ | | | | l | fs]; simpl; try discriminate; intros He Ha.
  - destruct (array_index k) as [i|] eqn:E; [|discriminate].
    injection Ha as <-. simpl. now rewrite E, set_index_set_index.
  - injection Ha as <-. simpl. now rewrite update_update.
Qed.

(** What the writing loop stores, getNestedValue finds, when every array on
    the way is entered by an index. *)
Lemma write_then_find v keys : forall cur,
  keys <> [] -> is_container cur = true -> indexed_path cur keys = true ->
  exists cur',
    write_resolve (final_set v) cur keys = Ok cur'
    /\ MongoDatabase.getNestedValue cur' keys = Some v
    /\ is_container cur' = true
    /\ (forall fs, cur = VObj fs -> exists fs', cur' = VObj fs').
Proof.
  induction keys as [|k rest IH]; intros cur Hne Hc Hi; [easy|].
  apply indexed_path_step in Hi as [He Hi]; auto.
  destruct rest as [|k2 rest].
  - destruct (assign_enterable cur k v He) as (cur' & Ha & Hg & Hcc & Ho).
    exists cur'. simpl write_resolve. unfold final_set.
    rewrite Ha, getNestedValue_step, Hcc, Hg.
    repeat split; auto. intros fs ->. eexists. now apply Ho.
  - destruct (IH (descend cur k)) as (c' & Hw & Hg' & Hcc' & _);
      [discriminate | apply descend_container | assumption |].
    destruct (assign_enterable cur k c' He) as (cur' & Ha & Hg & Hcc & Ho).
    exists cur'. rewrite write_resolve_step, Hw. simpl bind.
    rewrite Ha, getNestedValue_step, Hcc, Hg.
    repeat split; auto. intros fs ->. eexists. now apply Ho.
Qed.

(** A second write on the same path does not see the first. *)
Lemma write_write a b keys : forall cur,
  keys <> [] -> is_container cur = true -> indexed_path cur keys = true ->
  exists cur1,
    write_resolve (final_set a) cur keys = Ok cur1
    /\ is_container cur1 = true
    /\ (forall fs, cur = VObj fs -> exists fs', cur1 = VObj fs')
    /\ write_resolve (final_set b) cur1 keys
       = write_resolve (final_set b) cur keys.
Proof.
  induction keys as [|k rest IH]; intros cur Hne Hc Hi; [easy|].
  apply indexed_path_step in Hi as [He Hi]; auto.
  destruct rest as [|k2 rest].
  - destruct (assign_enterable cur k a He) as (cur1 & Ha & Hg & Hcc & Ho).
    exists cur1. simpl write_resolve. unfold final_set.
    repeat split; auto.
    + intros fs ->. eexists. now apply Ho.
    + now apply assign_assign with (x := a).
  - destruct (IH (descend cur k)) as (c1 & Hw & Hc1 & _ & Hww);
      [discriminate | apply descend_container | assumption |].
    destruct (assign_enterable cur k c1 He) as (cur1 & Ha & Hg & Hcc & Ho).
    exists cur1. rewrite !write_resolve_step, Hw. cbn [bind].
    repeat split; auto.
    + intros fs ->. eexists. now apply Ho.
    + rewrite (descend_found _ _ Hg Hc1), Hww.
      apply bind_ext. intro y. now apply assign_assign with (x := c1).
Qed.

(** On a path that has nothing at its end, only what the last step does
    where the property is missing matters. *)
Lemma write_resolve_congr_absent final final' keys : forall cur,
  MongoDatabase.getNestedValue cur keys = None ->
  is_container cur = true -> keys <> [] ->
  (forall p k, own_get p k = None -> final p k = final' p k) ->
  write_resolve final cur keys = write_resolve final' cur keys.
Proof.
  induction keys as [|k rest IH]; intros cur H Hc Hne Hf; [easy|].
  destruct rest as [|k2 rest].
  - rewrite getNestedValue_step, Hc in H. simpl. apply Hf.
    now destruct (own_get cur k).
  - rewrite !write_resolve_step.
    rewrite (IH (descend cur k)); auto;
      [now apply getNestedValue_descend | apply descend_container
      | discriminate].
Qed.

Lemma resolved_indexed keys : forall cur u,
  spec_read_resolve cur keys = inr u -> indexed_path cur keys = true.
Proof.
  induction keys as [|k rest IH]; intros cur u H; [reflexivity|].
  destruct cur as [ | | | | |fs]; try discriminate. simpl in H.
  destruct (lookup k fs) as [c|] eqn:E; [|discriminate].
  simpl. unfold descend. simpl own_get. rewrite E.
  destruct (is_container c) eqn:Ec; [now apply (IH c u)|].
  destruct rest; [reflexivity|]. destruct c; discriminate.
Qed.

(** X9.  In the file backend the last write wins: when every array on the
    path is entered by an index, set with one value and then set with
    another leaves what the second set alone leaves. *)
Theorem set_overwrites (host : string -> bool) (js : JsonDatabase.State)
    (key : string) (a b : Value) :
  JsonDatabase.connected js = true ->
  key <> "" ->
  existsb host (split_dot key) = false ->
  indexed_path (VObj (JsonDatabase.ReadDatabase js)) (split_dot key) = true ->
  exists js1,
    JsonDatabase.set host js key (Some a) = Returned Done AVoid js1
    /\ JsonDatabase.set host js1 key (Some b)
       = JsonDatabase.set host js key (Some b).
Proof.
  intros Hj Hk Hh Hi.
  destruct (@write_write a b (split_dot key)
              (VObj (JsonDatabase.ReadDatabase js))
              (split_dot_nonempty key) eq_refl Hi)
    as (cur1 & Hw & _ & Ho & Hww).
  destruct (Ho _ eq_refl) as [data1 ->].
  exists (JsonDatabase.WriteDatabase js data1).
  rewrite !json_set_unfold, Hw by assumption.
  split; [reflexivity|].
  change (JsonDatabase.ReadDatabase (JsonDatabase.WriteDatabase js data1))
    with data1.
  destruct (@write_then_find b (split_dot key)
              (VObj (JsonDatabase.ReadDatabase js))
              (split_dot_nonempty key) eq_refl Hi)
    as (cur2 & Hw2 & _ & _ & Ho2).
  destruct (Ho2 _ eq_refl) as [data2 ->].
  rewrite Hww, Hw2. reflexivity.
Qed.

Lemma set_overwrites_witness :
  let js := JsonDatabase.mkState true (Some [("user", VObj [("age", VNum 1)])]) in
  exists js1,
    JsonDatabase.set object_prototype js "user.data.age" (Some (VNum 20))
    = Returned Done AVoid js1
    /\ JsonDatabase.set object_prototype js1 "user.data.age" (Some (VStr "x"))
       = JsonDatabase.set object_prototype js "user.data.age" (Some (VStr "x")).
Proof.
  intros js.
  apply (@set_overwrites object_prototype js "user.data.age" (VNum 20)
           (VStr "x")); try reflexivity; discriminate.
Defined.

(** ** add, subtract and push of the file backend *)

Lemma json_push_unfold host key js v :
  key <> "" -> existsb host (split_dot key) = false ->
  JsonDatabase.connected js = true ->
  JsonDatabase.push host js key (Some v)
  = JsonDatabase.finish js
      (write_resolve (final_push v) (VObj (JsonDatabase.ReadDatabase js))
         (split_dot key)).
Proof.
  intros Hk Hh Hc. unfold JsonDatabase.push.
  now rewrite json_entry, json_in_model.
Qed.

(** On a path resolved through objects only what the last step does at an
    object matters. *)
Lemma resolved_write_congr final final' keys : forall cur u,
  spec_read_resolve cur keys = inr u ->
  (forall p k, (exists fs, p = VObj fs) -> own_get p k = Some u ->
               final p k = final' p k) ->
  write_resolve final cur keys = write_resolve final' cur keys.
Proof.
  induction keys as [|k rest IH]; intros cur u H Hf; [reflexivity|].
  destruct cur as [ | | | | |fs]; try discriminate. simpl in H.
  destruct (lookup k fs) as [c|] eqn:E; [|discriminate].
  destruct rest as [|k2 rest].
  - injection H as ->. simpl. apply Hf; [now exists fs | exact E].
  - rewrite !write_resolve_step.
    assert (is_container c = true) as Hc.
    { destruct c; simpl in H; try discriminate. reflexivity. }
    rewrite (@descend_found (VObj fs) k c E Hc).
    now rewrite (IH c u H Hf).
Qed.




(** X11.  In the file backend, on a key that resolves through objects to a
    number [m], add of [n] succeeds and get then returns the double nearest
    to [m + n], subtract of [n] the double nearest to [m - n]; when the sum
    is beyond the largest double, the file then holds null under the key. *)
Theorem add_to_number (host : string -> bool) (js : JsonDatabase.State)
    (key : string) (m n : Z) :
  JsonDatabase.connected js = true ->
  key <> "" ->
  existsb host (split_dot key) = false ->
  spec_read_resolve (VObj (JsonDatabase.ReadDatabase js)) (split_dot key)
  = inr (VNum m) ->
  (exists js',
      JsonDatabase.add host js key n = Returned Done AVoid js'
      /\ JsonDatabase.get host js' key
         = Returned Done
             (AValue (Some (match round_double (m + n) with
                            | Some s => VNum s
                            | None => VNull
                            end))) js')
  /\ (exists js',
         JsonDatabase.subtract host js key n = Returned Done AVoid js'
         /\ JsonDatabase.get host js' key
            = Returned Done
                (AValue (Some (match round_double (m - n) with
                               | Some s => VNum s
                               | None => VNull
                               end))) js').
Proof.
  intros Hj Hk Hh Hres.
  pose proof (split_dot_nonempty key) as Hne.
  pose proof (resolved_indexed _ _ Hres) as Hi.
  pose proof (resolved_getNestedValue _ [] _ Hres) as Hfound.
  rewrite app_nil_r in Hfound. simpl in Hfound.
  assert (forall p k, own_get p k = Some (VNum m) ->
            (exists fs, p = VObj fs) -> forall s,
            assign_number p k s
            = final_set (match round_double s with
                         | Some x => VNum x
                         | None => VNull
                         end) p k) as Hstep.
  { intros p k Hp Hobj s. unfold assign_number, final_set.
    destruct (round_double s); [reflexivity|].
    destruct p; try reflexivity. destruct Hobj; discriminate. }
  split.
  - set (x := match round_double (m + n) with
              | Some s => VNum s
              | None => VNull
              end).
    destruct (@write_then_find x (split_dot key) (VObj (JsonDatabase.ReadDatabase js))
                Hne eq_refl Hi)
      as (cur' & Hw & Hg & _ & Ho).
    destruct (Ho _ eq_refl) as [data' ->].
    exists (JsonDatabase.WriteDatabase js data').
    assert (JsonDatabase.connected (JsonDatabase.WriteDatabase js data') = true)
      as Hj' by exact Hj.
    rewrite json_add_unfold, json_get_unfold by assumption.
    change (JsonDatabase.ReadDatabase (JsonDatabase.WriteDatabase js data'))
      with data'.
    rewrite (resolved_write_congr (final_add n) (final_set x) _ _ Hres).
    2:{ intros p k Hobj Hp. unfold final_add. rewrite Hp.
        now apply Hstep. }
    rewrite Hw, (getNestedValue_get_path _ _ Hg). now split.
  - set (x := match round_double (m - n) with
              | Some s => VNum s
              | None => VNull
              end).
    destruct (@write_then_find x (split_dot key) (VObj (JsonDatabase.ReadDatabase js))
                Hne eq_refl Hi)
      as (cur' & Hw & Hg & _ & Ho).
    destruct (Ho _ eq_refl) as [data' ->].
    exists (JsonDatabase.WriteDatabase js data').
    assert (JsonDatabase.connected (JsonDatabase.WriteDatabase js data') = true)
      as Hj' by exact Hj.
    rewrite json_subtract_unfold, json_get_unfold by assumption.
    change (JsonDatabase.ReadDatabase (JsonDatabase.WriteDatabase js data'))
      with data'.
    rewrite (resolved_write_congr (final_subtract n) (final_set x) _ _ Hres).
    2:{ intros p k Hobj Hp. unfold final_subtract. rewrite Hp.
        now apply Hstep. }
    rewrite Hw, (getNestedValue_get_path _ _ Hg). now split.
Qed.

Lemma add_to_number_witness :
  let js :=
    JsonDatabase.mkState true
      (Some [("user", VObj [("data", VObj [("age", VNum 9007199254740992)])])]) in
  (exists js',
      JsonDatabase.add object_prototype js "user.data.age" 1
      = Returned Done AVoid js'
      /\ JsonDatabase.get object_prototype js' "user.data.age"
         = Returned Done (AValue (Some (VNum 9007199254740992))) js')
  /\ (exists js',
         JsonDatabase.subtract object_prototype js "user.data.age" 1
         = Returned Done AVoid js'
         /\ JsonDatabase.get object_prototype js' "user.data.age"
            = Returned Done (AValue (Some (VNum 9007199254740991))) js').
Proof.
  intros js.
  assert ("user.data.age" <> "")%string as Hk by discriminate.
  exact (@add_to_number object_prototype js "user.data.age"
           9007199254740992 1 eq_refl Hk eq_refl eq_refl).
Defined.

(** X12.  push of the file backend: on a key where get returns an array, it
    appends the value at the end; on any other key whose last segment is not
    "length", it does what set does with the array of that one value,
    whatever was stored there. *)
Theorem push_appends (host : string -> bool) (js : JsonDatabase.State)
    (key : string) (v : Value) :
  JsonDatabase.connected js = true ->
  key <> "" ->
  existsb host (split_dot key) = false ->
  (forall l,
      JsonDatabase.get host js key
      = Returned Done (AValue (Some (VArr l))) js ->
      exists js',
        JsonDatabase.push host js key (Some v) = Returned Done AVoid js'
        /\ JsonDatabase.get host js' key
           = Returned Done (AValue (Some (VArr (l ++ [v])))) js')
  /\ ((forall l,
          JsonDatabase.get host js key
          <> Returned Done (AValue (Some (VArr l))) js) ->
      last (split_dot key) "" <> "length" ->
      JsonDatabase.push host js key (Some v)
      = JsonDatabase.set host js key (Some (VArr [v]))).
Proof.
  intros Hj Hk Hh.
  pose proof (split_dot_nonempty key) as Hne.
  split.
  - intros l Hget. rewrite json_get_unfold in Hget by assumption.
    destruct (JsonDatabase.get_path _ _) as [u| |] eqn:E; try discriminate.
    injection Hget as ->.
    apply get_path_getNestedValue in E; [|reflexivity].
    destruct (@write_existing (VArr (l ++ [v])) _ _ _ E eq_refl Hne)
      as (cur' & Hw & Hg & Ho).
    destruct (Ho _ eq_refl) as [data' ->].
    exists (JsonDatabase.WriteDatabase js data').
    assert (JsonDatabase.connected (JsonDatabase.WriteDatabase js data') = true)
      as Hj' by exact Hj.
    rewrite json_push_unfold, json_get_unfold by assumption.
    change (JsonDatabase.ReadDatabase (JsonDatabase.WriteDatabase js data'))
      with data'.
    rewrite (write_resolve_congr (final_push v)
               (final_set (VArr (l ++ [v]))) _ _ E).
    2:{ intros p k _ Hp. unfold final_push, final_set. now rewrite Hp. }
    rewrite Hw, (getNestedValue_get_path _ _ Hg). now split.
  - intros Hnot Hlast.
    rewrite json_push_unfold, json_set_unfold by assumption. f_equal.
    destruct (MongoDatabase.getNestedValue
                (VObj (JsonDatabase.ReadDatabase js)) (split_dot key))
      as [u|] eqn:E.
    + apply (write_resolve_congr_last _ _ _ _ E).
      intros p k _ Hp Hk'. unfold final_push, final_set. rewrite Hp.
      assert (match p, array_index k with
              | VArr _, None =>
                  if String.eqb k "length" then Stop Failed
                  else assign p k (VArr [v])
              | _, _ => assign p k (VArr [v])
              end = assign p k (VArr [v])) as Hplain.
      { destruct p; try reflexivity.
        destruct (array_index k); [reflexivity|].
        destruct (String.eqb_spec k "length"); [congruence | reflexivity]. }
      destruct u; try exact Hplain.
      exfalso. apply (Hnot items).
      rewrite json_get_unfold by assumption.
      now rewrite (getNestedValue_get_path _ _ E).
    + apply write_resolve_congr_absent; auto.
      intros p k Hp. unfold final_push, final_set. rewrite Hp.
      destruct p; try reflexivity. simpl in Hp.
      destruct (array_index k); [reflexivity|].
      now destruct (String.eqb k "length").
Qed.

Lemma push_appends_witness :
  let js :=
    JsonDatabase.mkState true
      (Some [("user", VObj [("hobbies", VArr [VStr "coding"]);
                            ("name", VStr "y")])]) in
  (exists js',
      JsonDatabase.push object_prototype js "user.hobbies" (Some (VStr "gaming"))
      = Returned Done AVoid js'
      /\ JsonDatabase.get object_prototype js' "user.hobbies"
         = Returned Done
             (AValue (Some (VArr ([VStr "coding"] ++ [VStr "gaming"])))) js')
  /\ JsonDatabase.push object_prototype js "user.name" (Some (VNum 1))
     = JsonDatabase.set object_prototype js "user.name" (Some (VArr [VNum 1])).
Proof.
  intros js.
  destruct (@push_appends object_prototype js "user.hobbies" (VStr "gaming"))
    as [Happ _]; try reflexivity; try discriminate.
  destruct (@push_appends object_prototype js "user.name" (VNum 1))
    as [_ Hset]; try reflexivity; try discriminate.
  split; [apply Happ; reflexivity | apply Hset; discriminate].
Defined.

(** ** unpush of the file backend *)

Lemma json_unpush_found host key js v l :
  key <> "" ->
  existsb host (split_dot key ++ map fst (own_entries v)) = false ->
  JsonDatabase.connected js = true ->
  MongoDatabase.getNestedValue (VObj (JsonDatabase.ReadDatabase js))
    (split_dot key) = Some (VArr l) ->
  exists r js',
    JsonDatabase.unpush host js key (Some v) = Returned r AVoid js'
    /\ JsonDatabase.connected js' = true
    /\ MongoDatabase.getNestedValue (VObj (JsonDatabase.ReadDatabase js'))
         (split_dot key) = Some (VArr (survivors v l))
    /\ (survivors v l = l -> r = NoMatch /\ js' = js).
Proof.
  intros Hk Hh Hj E.
  pose proof (split_dot_nonempty key) as Hne.
  unfold JsonDatabase.unpush.
  rewrite json_entry, json_in_model by assumption.
  rewrite (strict_resolve_existing _ _ _ _ E).
  destruct (0 <? List.length l - List.length (survivors v l))%nat eqn:R.
  - rewrite (write_resolve_congr (final_unpush v)
               (final_set (VArr (survivors v l))) _ _ E).
    2:{ intros p k _ Hp. now rewrite (final_unpush_found v _ _ Hp), R. }
    destruct (@write_existing (VArr (survivors v l)) _ _ _ E eq_refl Hne)
      as (cur' & Hw & Hg & Ho).
    destruct (Ho _ eq_refl) as [data' ->].
    rewrite Hw. exists Done, (JsonDatabase.WriteDatabase js data').
    repeat split; auto;
      match goal with
      | Hs : survivors v l = l |- _ =>
          rewrite Hs, Nat.sub_diag in R; discriminate
      end.
  - rewrite (write_resolve_congr (final_unpush v)
               (fun _ _ => Stop NoMatch) _ _ E).
    2:{ intros p k _ Hp. now rewrite (final_unpush_found v _ _ Hp), R. }
    rewrite write_resolve_stop by assumption.
    exists NoMatch, js. rewrite (survivors_none_removed _ _ R).
    repeat split; auto.
Qed.

(** X13.  unpush of the file backend removes all it can at once: on a key
    where get returns an array, a second unpush with the same value finds no
    match and leaves the store as the first left it. *)
Theorem unpush_twice (host : string -> bool) (js : JsonDatabase.State)
    (key : string) (v : Value) (l : list Value) :
  JsonDatabase.connected js = true ->
  key <> "" ->
  existsb host (split_dot key ++ map fst (own_entries v)) = false ->
  JsonDatabase.get host js key = Returned Done (AValue (Some (VArr l))) js ->
  exists r js',
    JsonDatabase.unpush host js key (Some v) = Returned r AVoid js'
    /\ JsonDatabase.unpush host js' key (Some v) = Returned NoMatch AVoid js'.
Proof.
  intros Hj Hk Hh Hget.
  pose proof Hh as Hh'. rewrite existsb_app in Hh'.
  apply orb_false_iff in Hh' as [Hkeys _].
  rewrite json_get_unfold in Hget by assumption.
  destruct (JsonDatabase.get_path _ _) as [u| |] eqn:E; try discriminate.
  injection Hget as ->.
  apply get_path_getNestedValue in E; [|reflexivity].
  destruct (@json_unpush_found host key js v l Hk Hh Hj E) as (r & js' & Hu & Hj' & Hg & _).
  exists r, js'. split; [exact Hu|].
  destruct (@json_unpush_found host key js' v (survivors v l) Hk Hh Hj' Hg)
    as (r2 & js2 & Hu2 & _ & _ & Hno).
  destruct (Hno (survivors_idem v l)) as [-> ->]. exact Hu2.
Qed.

Lemma unpush_twice_witness :
  let js :=
    JsonDatabase.mkState true
      (Some [("tags", VArr [VStr "x"; VStr "y"; VStr "x"])]) in
  exists r js',
    JsonDatabase.unpush object_prototype js "tags" (Some (VStr "x"))
    = Returned r AVoid js'
    /\ JsonDatabase.unpush object_prototype js' "tags" (Some (VStr "x"))
       = Returned NoMatch AVoid js'.
Proof.
  intros js.
  apply (@unpush_twice object_prototype js "tags" (VStr "x")
           [VStr "x"; VStr "y"; VStr "x"]); try reflexivity; discriminate.
Defined.

Lemma shouldRemove_empty_probe e :
  shouldRemove e (VObj []) = is_container e
  /\ shouldRemove e (VArr []) = is_container e.
Proof. now destruct e as [ | | | | [|x l] | [|kv fs]]. Qed.

(** X14.  An empty object, or an empty array, given to unpush matches every
    element that is an object or an array: on a key where get returns an
    array, unpush then leaves exactly its elements that are null, booleans,
    numbers and strings. *)
Theorem unpush_empty_probe (host : string -> bool) (js : JsonDatabase.State)
    (key : string) (probe : Value) (l : list Value) :
  JsonDatabase.connected js = true ->
  key <> "" ->
  existsb host (split_dot key) = false ->
  probe = VObj [] \/ probe = VArr [] ->
  JsonDatabase.get host js key = Returned Done (AValue (Some (VArr l))) js ->
  exists r js',
    JsonDatabase.unpush host js key (Some probe) = Returned r AVoid js'
    /\ JsonDatabase.get host js' key
       = Returned Done
           (AValue (Some (VArr (filter (fun e => negb (is_container e)) l))))
           js'.
Proof.
  intros Hj Hk Hh Hprobe Hget.
  assert (existsb host (split_dot key ++ map fst (own_entries probe)) = false)
    as Hh'.
  { destruct Hprobe as [-> | ->]; simpl; now rewrite app_nil_r. }
  assert (survivors probe l = filter (fun e => negb (is_container e)) l)
    as Hs.
  { unfold survivors. apply filter_ext. intro e.
    destruct (shouldRemove_empty_probe e) as [Ho Ha].
    destruct Hprobe as [-> | ->]; now rewrite ?Ho, ?Ha. }
  rewrite json_get_unfold in Hget by assumption.
  destruct (JsonDatabase.get_path _ _) as [u| |] eqn:E; try discriminate.
  injection Hget as ->.
  apply get_path_getNestedValue in E; [|reflexivity].
  destruct (@json_unpush_found host key js probe l Hk Hh' Hj E)
    as (r & js' & Hu & Hj' & Hg & _).
  exists r, js'. split; [exact Hu|].
  rewrite json_get_unfold by assumption.
  now rewrite (getNestedValue_get_path _ _ Hg), Hs.
Qed.

Lemma unpush_empty_probe_witness :
  let l := [VNum 1; VObj [("a", VNum 1)]; VStr "s"; VArr [VNum 2]; VNull] in
  let js := JsonDatabase.mkState true (Some [("items", VArr l)]) in
  exists r js',
    JsonDatabase.unpush object_prototype js "items" (Some (VObj []))
    = Returned r AVoid js'
    /\ JsonDatabase.get object_prototype js' "items"
       = Returned Done
           (AValue (Some (VArr (filter (fun e => negb (is_container e)) l))))
           js'.
Proof.
  intros l js.
  apply (@unpush_empty_probe object_prototype js "items" (VObj []) l);
    try reflexivity; try discriminate.
  left. reflexivity.
Defined.

(** ** set of the remote backend *)

Lemma indexed_fresh keys : indexed_path (VObj []) keys = true.
Proof. induction keys as [|k rest IH]; simpl; auto. Qed.

Lemma update_nil (A : Type) k (x : A) : update k x [] = [(k, x)].
Proof. unfold update. simpl. now destruct (array_index k). Qed.

(** The writing loop in an empty object. *)
Lemma fresh_write v rest : forall k,
  write_resolve (final_set v) (VObj []) (k :: rest)
  = Ok (VObj [(k, nest rest v)]).
Proof.
  induction rest as [|k2 rest IH]; intro k.
  - simpl. unfold final_set. simpl. now rewrite update_nil.
  - rewrite write_resolve_step.
    change (descend (VObj []) k) with (VObj []).
    rewrite IH. simpl. now rewrite update_nil.
Qed.

Lemma holds_empty_nest v rest :
  MongoDatabase.holds_empty_object (nest rest v)
  = MongoDatabase.holds_empty_object v.
Proof.
  induction rest as [|k rest IH]; [reflexivity|].
  simpl. now rewrite IH, orb_false_r.
Qed.

Lemma getNestedValue_nest v rest :
  MongoDatabase.getNestedValue (nest rest v) rest = Some v.
Proof.
  induction rest as [|k rest IH]; [reflexivity|].
  simpl. now rewrite String.eqb_refl.
Qed.

Lemma save_nest rs k0 rest v :
  MongoDatabase.holds_empty_object v = false ->
  (rest = [] -> v <> VNull) ->
  MongoDatabase.save_value rs k0 (nest rest v)
  = Ok (upsert k0 (nest rest v) rs).
Proof.
  intros He Hnull. unfold MongoDatabase.save_value.
  rewrite holds_empty_nest, He.
  destruct rest as [|k rest]; [|reflexivity].
  simpl. destruct v; try reflexivity. now destruct (Hnull eq_refl).
Qed.

(** set where there is no record for the first segment. *)
Lemma mongo_set_new rs k0 rest v :
  k0 <> "" -> lookup k0 rs = None ->
  MongoDatabase.holds_empty_object v = false ->
  (rest = [] -> v <> VNull) ->
  MongoDatabase.set_records rs (k0 :: rest) v
  = Ok (upsert k0 (nest rest v) rs).
Proof.
  intros Hk0 Hnone He Hnull. unfold MongoDatabase.set_records.
  apply String.eqb_neq in Hk0. rewrite Hk0, Hnone.
  rewrite setNestedValue_write_resolve by discriminate.
  rewrite fresh_write. cbn [bind]. simpl own_get.
  rewrite String.eqb_refl. now apply save_nest.
Qed.


Lemma indexed_path_record rs k0 rest old :
  lookup k0 rs = Some old ->
  indexed_path (VObj [(k0, old)]) (k0 :: rest)
  = indexed_path (VObj rs) (k0 :: rest).
Proof.
  intro Hold. simpl. unfold descend. simpl.
  now rewrite String.eqb_refl, Hold.
Qed.

(** set where the record holds a truthy value: nothing is written. *)
Lemma mongo_set_kept rs k0 rest old v :
  k0 <> "" -> lookup k0 rs = Some old -> truthy old = true ->
  indexed_path (VObj rs) (k0 :: rest) = true ->
  MongoDatabase.set_records rs (k0 :: rest) v = Ok rs.
Proof.
  intros Hk0 Hold Ht Hi. unfold MongoDatabase.set_records.
  apply String.eqb_neq in Hk0. rewrite Hk0, Hold, Ht.
  rewrite setNestedValue_write_resolve by discriminate.
  rewrite <- (@indexed_path_record rs k0 rest old Hold) in Hi.
  destruct (@write_then_find v (k0 :: rest) (VObj [(k0, old)])
              ltac:(discriminate) eq_refl Hi) as (lit & -> & _).
  reflexivity.
Qed.

(** X15.  set of the remote backend never changes a record that holds a
    truthy value: with a key of one segment, and with a key of more segments
    whose path enters the arrays of the record by an index, it reports
    success and leaves the store as it was, whatever the value given. *)
Theorem mongo_set_existing_record (host : string -> bool)
    (ms : MongoDatabase.State) (key k0 : string) (rest : list string)
    (v old : Value) :
  MongoDatabase.checkConnection ms = true ->
  key <> "" ->
  existsb host (split_dot key) = false ->
  split_dot key = k0 :: rest ->
  k0 <> "" ->
  lookup k0 (MongoDatabase.records ms) = Some old ->
  truthy old = true ->
  indexed_path (VObj (MongoDatabase.records ms)) (split_dot key) = true ->
  MongoDatabase.set host ms key (Some v) = Returned Done AVoid ms.
Proof.
  intros Hm Hk Hh Hsplit Hk0 Hold Ht Hi.
  rewrite mongo_set_unfold by assumption.
  rewrite Hsplit in Hi |- *.
  rewrite (@mongo_set_kept (MongoDatabase.records ms) k0 rest old v
             Hk0 Hold Ht Hi).
  simpl. now rewrite mongo_state_eta.
Qed.

Lemma mongo_set_existing_record_witness :
  let ms :=
    MongoDatabase.mkState true true
      [("count", VNum 5); ("user", VObj [("name", VStr "y")])] in
  MongoDatabase.set object_prototype ms "count" (Some (VNum 6))
  = Returned Done AVoid ms
  /\ MongoDatabase.set object_prototype ms "user.name" (Some (VStr "z"))
     = Returned Done AVoid ms.
Proof.
  intros ms.
  assert ("count" <> "")%string as Hk1 by discriminate.
  assert ("user.name" <> "")%string as Hk2 by discriminate.
  assert ("user" <> "")%string as Hk3 by discriminate.
  split.
  - exact (@mongo_set_existing_record object_prototype ms "count" "count" []
             (VNum 6) (VNum 5) eq_refl Hk1 eq_refl eq_refl Hk1 eq_refl
             eq_refl eq_refl).
  - exact (@mongo_set_existing_record object_prototype ms "user.name" "user"
             ["name"] (VStr "z") (VObj [("name", VStr "y")]) eq_refl Hk2
             eq_refl eq_refl Hk3 eq_refl eq_refl eq_refl).
Defined.



(** ** add and subtract: the guard, and the key that is absent *)

Lemma mongo_get_stored (host : string -> bool) (ms : MongoDatabase.State)
    (key k0 : string) (rest : list string) (v : Value) :
  MongoDatabase.checkConnection ms = true ->
  key <> "" ->
  existsb host (split_dot key) = false ->
  split_dot key = k0 :: rest ->
  let ms' :=
    MongoDatabase.mkState (MongoDatabase.connected ms)
      (MongoDatabase.model ms)
      (upsert k0 (nest rest v) (MongoDatabase.records ms)) in
  MongoDatabase.get host ms' key = Returned Done (AValue (Some v)) ms'.
Proof.
  intros Hm Hk Hh Hsplit ms'.
  assert (MongoDatabase.checkConnection ms' = true) as Hm' by exact Hm.
  rewrite mongo_get_unfold, Hsplit by assumption.
  subst ms'. simpl MongoDatabase.records. rewrite getNestedValue_step.
  simpl is_container. simpl own_get.
  now rewrite lookup_upsert_same, getNestedValue_nest.
Qed.

Lemma mongo_has_stored (host : string -> bool) (ms : MongoDatabase.State)
    (key k0 : string) (rest : list string) (v : Value) :
  MongoDatabase.checkConnection ms = true ->
  key <> "" ->
  existsb host (split_dot key) = false ->
  split_dot key = k0 :: rest ->
  let ms' :=
    MongoDatabase.mkState (MongoDatabase.connected ms)
      (MongoDatabase.model ms)
      (upsert k0 (nest rest v) (MongoDatabase.records ms)) in
  MongoDatabase.has host ms' key = Returned Done (ABool true) ms'.
Proof.
  intros Hm Hk Hh Hsplit ms'.
  assert (MongoDatabase.checkConnection ms' = true) as Hm' by exact Hm.
  rewrite mongo_has_unfold, Hsplit by assumption.
  subst ms'. simpl MongoDatabase.records. rewrite getNestedValue_step.
  simpl is_container. simpl own_get.
  now rewrite lookup_upsert_same, getNestedValue_nest.
Qed.




(** ** Keys with empty segments *)

(** Each dot separates two segments, empty or not. *)
Lemma split_dot_app s1 s2 :
  split_dot (s1 ++ String "." s2) = split_dot s1 ++ split_dot s2.
Proof.
  induction s1 as [|c s1 IH]; [reflexivity|].
  cbn [String.append split_dot]. rewrite IH.
  destruct (Ascii.eqb c "."); [reflexivity|].
  pose proof (split_dot_nonempty s1) as Hne.
  destruct (split_dot s1) as [|seg segs]; [easy | reflexivity].
Qed.

Lemma assign_kind cur k x cur' :
  enterable cur k = true -> assign cur k x = Ok cur' ->
  enterable cur' k = true.
Proof.
  destruct cur; simpl; try discriminate.
  - destruct (array_index k) eqn:E; [|discriminate].
    intros _ [= <-]. simpl. now rewrite E.
  - now intros _ [= <-].
Qed.

Lemma delete_prop_enterable cur k :
  enterable cur k = true ->
  exists cur',
    delete_prop cur k = Ok cur'
    /\ (forall fs, cur = VObj fs -> exists fs', cur' = VObj fs').
Proof.
  destruct cur; simpl; try discriminate.
  - destruct (array_index k); [|discriminate].
    intros _. eexists. split; [reflexivity | discriminate].
  - intros _. eexists. split; [reflexivity|]. intros fs _. now eexists.
Qed.

(** After the writing loop has stored a value, the loop of delete finds it
    and removes it. *)
Lemma delete_after_write v keys : forall cur cur',
  keys <> [] -> is_container cur = true -> indexed_path cur keys = true ->
  write_resolve (final_set v) cur keys = Ok cur' ->
  exists cur'',
    strict_resolve DoesNotExist final_delete cur' keys = Ok cur''
    /\ (forall fs, cur' = VObj fs -> exists fs', cur'' = VObj fs').
Proof.
  induction keys as [|k rest IH]; intros cur cur' Hne Hc Hi Hw; [easy|].
  apply indexed_path_step in Hi as [He Hi]; auto.
  destruct rest as [|k2 rest].
  - simpl in Hw. unfold final_set in Hw.
    destruct (assign_enterable cur k v He) as (c1 & Ha & Hg & _).
    rewrite Ha in Hw. injection Hw as <-.
    pose proof (assign_kind _ _ _ He Ha) as He'.
    destruct (delete_prop_enterable _ _ He') as (cur'' & Hd & Ho).
    exists cur''. simpl. unfold final_delete. rewrite Hg. now split.
  - rewrite write_resolve_step in Hw.
    destruct (@write_then_find v (k2 :: rest) (descend cur k)
                ltac:(discriminate) (descend_container cur k) Hi)
      as (c' & Hwc & _ & Hcc & _).
    rewrite Hwc in Hw. simpl bind in Hw.
    destruct (assign_enterable cur k c' He) as (c1 & Ha & Hg & _).
    rewrite Ha in Hw. injection Hw as <-.
    pose proof (assign_kind _ _ _ He Ha) as He'.
    destruct (IH (descend cur k) c' ltac:(discriminate)
                (descend_container cur k) Hi Hwc) as (c'' & Hs & _).
    destruct (assign_enterable c1 k c'' He') as (cur'' & Ha' & _ & _ & Ho).
    exists cur''. rewrite strict_resolve_step, Hg, Hcc, Hs. simpl bind.
    split; [exact Ha'|]. intros fs ->. eexists. now apply Ho.
Qed.

(** C10, the claim as stated fails in the remote backend for a key that
    begins with a dot.  The key "." passes the validation of the key and
    has two empty segments; the file backend stores the value under the
    field named by the empty text, but the schema of the remote backend
    requires the key of a record not to be empty: the save throws, the
    failure is logged and nothing is stored.  With "a..b" the remote backend
    stores as the file backend does. *)
Lemma leading_empty_segment_not_stored :
  let js := JsonDatabase.mkState true (Some []) in
  let ms := MongoDatabase.mkState true true [] in
  split_dot "." = [""; ""]
  /\ JsonDatabase.set object_prototype js "." (Some (VNum 1))
     = Returned Done AVoid
         (JsonDatabase.mkState true (Some [("", VObj [("", VNum 1)])]))
  /\ MongoDatabase.set object_prototype ms "." (Some (VNum 1))
     = Returned Failed AVoid ms
  /\ MongoDatabase.set object_prototype ms "a..b" (Some (VNum 1))
     = Returned Done AVoid
         (MongoDatabase.mkState true true
            [("a", VObj [("", VObj [("b", VNum 1)])])]).
Proof. repeat split; reflexivity. Qed.

(** C10, amended.  A call that carries a key is turned down as an invalid
    key exactly when the key is the empty text, in every method of both
    backends.  Each dot of a key separates two segments, so that a dot at
    the start or at the end, or two dots in a row, give an empty segment.
    In the file backend a segment that is empty names a field like any
    other: for every key that is not empty, when the path enters every
    array by an index, set stores the value, get and has then find it, and
    delete then finds it and succeeds.  In the remote backend, when the
    first segment is empty set stores nothing and logs a failure; when it is
    not and has no record, set stores the value (which holds no empty object
    and, for a key of one segment, is not null), and get and has then find
    it. *)
Theorem empty_segments_accepted (host : string -> bool)
    (js : JsonDatabase.State) (ms : MongoDatabase.State) (c : Call)
    (key : string) (v : Value) :
  JsonDatabase.connected js = true ->
  MongoDatabase.checkConnection ms = true ->
  (call_key c = Some key ->
   (key <> "" <-> accepted (JsonDatabase.call host js c))
   /\ (key <> "" <-> accepted (MongoDatabase.call host ms c)))
  /\ (forall s1 s2,
         split_dot (s1 ++ "." ++ s2) = split_dot s1 ++ split_dot s2)
  /\ split_dot "" = [""]
  /\ (key <> "" ->
      existsb host (split_dot key) = false ->
      (indexed_path (VObj (JsonDatabase.ReadDatabase js)) (split_dot key)
       = true ->
       exists js1 js2,
         JsonDatabase.set host js key (Some v) = Returned Done AVoid js1
         /\ JsonDatabase.get host js1 key
            = Returned Done (AValue (Some v)) js1
         /\ JsonDatabase.has host js1 key = Returned Done (ABool true) js1
         /\ JsonDatabase.delete host js1 key = Returned Done AVoid js2)
      /\ (forall k0 rest,
             split_dot key = k0 :: rest ->
             (k0 = "" ->
              MongoDatabase.set host ms key (Some v)
              = Returned Failed AVoid ms)
             /\ (k0 <> "" ->
                 lookup k0 (MongoDatabase.records ms) = None ->
                 MongoDatabase.holds_empty_object v = false ->
                 (rest = [] -> v <> VNull) ->
                 exists ms',
                   MongoDatabase.set host ms key (Some v)
                   = Returned Done AVoid ms'
                   /\ MongoDatabase.get host ms' key
                      = Returned Done (AValue (Some v)) ms'
                   /\ MongoDatabase.has host ms' key
                      = Returned Done (ABool true) ms'))).
Proof.
  intros Hj Hm.
  split; [|split; [exact split_dot_app | split; [reflexivity|]]].
  - intro Hc.
    assert (key = "" -> ~ accepted (JsonDatabase.call host js c)
                        /\ ~ accepted (MongoDatabase.call host ms c)) as Hrej.
    { intros ->.
      destruct c; simpl in Hc; try discriminate; injection Hc as ->; simpl;
        unfold JsonDatabase.set, JsonDatabase.get, JsonDatabase.has,
          JsonDatabase.add, JsonDatabase.subtract, JsonDatabase.delete,
          JsonDatabase.push, JsonDatabase.unpush, JsonDatabase.entry,
          JsonDatabase.CheckConnection,
          MongoDatabase.set, MongoDatabase.get, MongoDatabase.has,
          MongoDatabase.add, MongoDatabase.subtract, MongoDatabase.delete,
          MongoDatabase.push, MongoDatabase.pull, MongoDatabase.entry;
        rewrite Hj, Hm; simpl; auto. }
    split.
    + split; [now apply json_call_accepted|].
      intros Ha ->. now destruct (Hrej eq_refl).
    + split; [now apply mongo_call_accepted|].
      intros Ha ->. now destruct (Hrej eq_refl).
  - intros Hk Hh.
    pose proof (split_dot_nonempty key) as Hne.
    split.
    + intro Hi.
      destruct (@write_then_find v (split_dot key)
                  (VObj (JsonDatabase.ReadDatabase js)) Hne eq_refl Hi)
        as (cur' & Hw & Hg & _ & Ho).
      destruct (@delete_after_write v (split_dot key)
                  (VObj (JsonDatabase.ReadDatabase js)) cur' Hne eq_refl Hi Hw)
        as (cur'' & Hd & Ho').
      destruct (Ho _ eq_refl) as [data1 ->].
      destruct (Ho' _ eq_refl) as [data2 ->].
      exists (JsonDatabase.WriteDatabase js data1),
        (JsonDatabase.WriteDatabase js data2).
      assert (JsonDatabase.connected (JsonDatabase.WriteDatabase js data1)
              = true) as Hj1 by exact Hj.
      rewrite json_set_unfold, json_get_unfold, json_has_unfold,
        json_delete_unfold, has_path_getNestedValue by assumption.
      change (JsonDatabase.ReadDatabase (JsonDatabase.WriteDatabase js data1))
        with data1.
      rewrite Hw, Hg, (getNestedValue_get_path _ _ Hg), Hd.
      repeat split.
    + intros k0 rest Hsplit. split.
      * intros ->. rewrite mongo_set_unfold, Hsplit by assumption.
        reflexivity.
      * intros Hk0 Hnone He Hnull.
        eexists. rewrite mongo_set_unfold, Hsplit by assumption.
        rewrite (@mongo_set_new (MongoDatabase.records ms) k0 rest v Hk0
                   Hnone He Hnull).
        split; [reflexivity|]. split.
        -- exact (@mongo_get_stored host ms key k0 rest v Hm Hk Hh Hsplit).
        -- exact (@mongo_has_stored host ms key k0 rest v Hm Hk Hh Hsplit).
Qed.

Lemma empty_segments_accepted_witness :
  let js := JsonDatabase.mkState true (Some [("x", VNum 1)]) in
  let ms := MongoDatabase.mkState true true [("x", VNum 1)] in
  accepted (JsonDatabase.call object_prototype js (CGet "a..b"))
  /\ accepted (MongoDatabase.call object_prototype ms (CGet "a..b"))
  /\ (exists js1 js2,
         JsonDatabase.set object_prototype js "." (Some (VNum 2))
         = Returned Done AVoid js1
         /\ JsonDatabase.get object_prototype js1 "."
            = Returned Done (AValue (Some (VNum 2))) js1
         /\ JsonDatabase.has object_prototype js1 "."
            = Returned Done (ABool true) js1
         /\ JsonDatabase.delete object_prototype js1 "."
            = Returned Done AVoid js2)
  /\ MongoDatabase.set object_prototype ms "." (Some (VNum 2))
     = Returned Failed AVoid ms
  /\ (exists ms',
         MongoDatabase.set object_prototype ms "a..b" (Some (VNum 2))
         = Returned Done AVoid ms'
         /\ MongoDatabase.get object_prototype ms' "a..b"
            = Returned Done (AValue (Some (VNum 2))) ms'
         /\ MongoDatabase.has object_prototype ms' "a..b"
            = Returned Done (ABool true) ms').
Proof.
  intros js ms.
  destruct (@empty_segments_accepted object_prototype js ms (CGet "a..b")
              "a..b" (VNum 2) eq_refl eq_refl)
    as (Hacc & _ & _ & Hpath).
  destruct (Hacc eq_refl) as [Hja Hma].
  destruct (@empty_segments_accepted object_prototype js ms (CGet ".")
              "." (VNum 2) eq_refl eq_refl)
    as (_ & _ & _ & Hdot).
  assert ("a..b" <> "")%string as Hk1 by discriminate.
  assert ("." <> "")%string as Hk2 by discriminate.
  destruct (Hpath Hk1 eq_refl) as [_ Hremote].
  destruct (Hdot Hk2 eq_refl) as [Hfile Hremote'].
  split; [apply Hja; exact Hk1|].
  split; [apply Hma; exact Hk1|].
  split; [exact (Hfile eq_refl)|].
  split.
  - exact (proj1 (Hremote' "" [""] eq_refl) eq_refl).
  - apply (proj2 (Hremote "a" [""; "b"] eq_refl));
      [discriminate | reflexivity | reflexivity | discriminate].
Defined.

(** Writing a number where a number is found either goes through or is
    refused as the length of an array. *)
Lemma write_on_number s keys : forall cur m,
  MongoDatabase.getNestedValue cur keys = Some (VNum m) -> keys <> [] ->
  (exists cur', write_resolve (final_set (VNum s)) cur keys = Ok cur')
  \/ write_resolve (final_set (VNum s)) cur keys = Stop Failed.
Proof.
  induction keys as [|k rest IH]; intros cur m H Hne; [easy|].
  apply getNestedValue_first in H as (Hc & c & Hk & Hrest).
  destruct rest as [|k2 rest].
  - injection Hrest as ->. simpl. unfold final_set.
    destruct cur as [ | | | | l | fs]; try discriminate; simpl.
    + simpl in Hk. destruct (array_index k); [left; now eexists|].
      destruct (String.eqb k "length"); [|discriminate]. simpl.
      destruct ((0 <=? s)%Z && (s <? 4294967296)%Z);
        [left; now eexists | now right].
    + left. now eexists.
  - assert (is_container c = true) as Hcc
        by now apply getNestedValue_first in Hrest.
    rewrite write_resolve_step, (descend_found _ _ Hk Hcc).
    destruct (IH c m Hrest ltac:(discriminate)) as [[c' ->] | ->];
      [|now right].
    destruct (assign_enterable cur k c' (own_get_container _ _ Hk Hcc))
      as (cur' & Ha & _).
    left. exists cur'. exact Ha.
Qed.

(** set on a path where a number is found writes nothing when the value of
    the record is truthy. *)
Lemma mongo_set_on_number rs k0 rest m s :
  MongoDatabase.getNestedValue (VObj rs) (k0 :: rest) = Some (VNum m) ->
  (rest = [] -> m <> 0%Z) ->
  MongoDatabase.set_records rs (k0 :: rest) (VNum s) = Ok rs
  \/ MongoDatabase.set_records rs (k0 :: rest) (VNum s) = Stop Failed.
Proof.
  intros H Hnz.
  pose proof H as Hfirst.
  apply getNestedValue_first in Hfirst as (_ & old & Hk & Hrest).
  simpl in Hk. unfold MongoDatabase.set_records.
  destruct (String.eqb k0 ""); [now right|].
  rewrite Hk.
  assert (truthy old = true) as ->.
  { destruct rest as [|k2 rest].
    - injection Hrest as ->. simpl.
      destruct (Z.eqb_spec m 0); [now destruct (Hnz eq_refl) | reflexivity].
    - apply container_truthy. now apply getNestedValue_first in Hrest. }
  rewrite setNestedValue_write_resolve by discriminate.
  rewrite <- (mongo_wrapper k0 old rest) in Hrest.
  destruct (@write_on_number s _ _ _ Hrest ltac:(discriminate))
    as [[lit ->] | ->]; [now left | now right].
Qed.

(** X27.  In the remote backend add and subtract never change a number that
    is stored.  Where get returns a number, which is not 0 when the key has
    one segment, add and subtract log success, or the failure of an array
    length out of range, and leave the store as it was. *)
Theorem mongo_add_never_counts (host : string -> bool)
    (ms : MongoDatabase.State) (key : string) (m n : Z) :
  MongoDatabase.checkConnection ms = true ->
  key <> "" ->
  existsb host (split_dot key) = false ->
  MongoDatabase.get host ms key = Returned Done (AValue (Some (VNum m))) ms ->
  (forall k0, split_dot key = [k0] -> m <> 0%Z) ->
  (MongoDatabase.add host ms key n = Returned Done AVoid ms
   \/ MongoDatabase.add host ms key n = Returned Failed AVoid ms)
  /\ (MongoDatabase.subtract host ms key n = Returned Done AVoid ms
      \/ MongoDatabase.subtract host ms key n = Returned Failed AVoid ms).
Proof.
  intros Hm Hk Hh Hget Hnz.
  pose proof (split_dot_nonempty key) as Hne.
  pose proof Hget as Hfound.
  rewrite mongo_get_unfold in Hfound by assumption.
  destruct (MongoDatabase.getNestedValue _ _) as [u|] eqn:E; [|discriminate].
  injection Hfound as ->.
  assert (forall s,
            MongoDatabase.set host ms key (Some (VNum s))
            = Returned Done AVoid ms
            \/ MongoDatabase.set host ms key (Some (VNum s))
               = Returned Failed AVoid ms) as Hset.
  { intro s. rewrite mongo_set_unfold by assumption.
    destruct (split_dot key) as [|k0 rest] eqn:Hsplit; [easy|].
    destruct (@mongo_set_on_number _ _ _ _ s E) as [-> | ->].
    - intros ->. now apply (Hnz k0).
    - left. simpl. now rewrite mongo_state_eta.
    - now right. }
  unfold MongoDatabase.add, MongoDatabase.subtract.
  rewrite !mongo_entry, Hget by assumption.
  split; apply Hset.
Qed.

Lemma mongo_add_never_counts_witness :
  let ms :=
    MongoDatabase.mkState true true
      [("user", VObj [("visits", VNum 3)])] in
  MongoDatabase.add object_prototype ms "user.visits" 1
  = Returned Done AVoid ms
  /\ (MongoDatabase.subtract object_prototype ms "user.visits" 1
      = Returned Done AVoid ms
      \/ MongoDatabase.subtract object_prototype ms "user.visits" 1
         = Returned Failed AVoid ms).
Proof.
  intros ms.
  assert ("user.visits" <> "")%string as Hk by discriminate.
  split; [reflexivity|].
  apply (@mongo_add_never_counts object_prototype ms "user.visits" 3 1
           eq_refl Hk eq_refl eq_refl).
  intros k0 Hsplit. discriminate Hsplit.
Defined.

(** ** The length of a stored array as the last segment *)

Lemma write_under_stop final pre rest r : forall cur u,
  MongoDatabase.getNestedValue cur pre = Some u ->
  is_container u = true -> rest <> [] ->
  write_resolve final u rest = Stop r ->
  write_resolve final cur (pre ++ rest) = Stop r.
Proof.
  induction pre as [|k pre IH]; intros cur u H Hu Hne Hw.
  - now injection H as ->.
  - apply getNestedValue_first in H as (Hc & c & Hk & Hrest).
    assert (is_container c = true) as Hcc.
    { destruct pre; [now injection Hrest as -> |].
      now apply getNestedValue_first in Hrest. }
    simpl app. destruct (pre ++ rest) as [|k2 tail] eqn:E.
    { apply app_eq_nil in E as [_ ->]. easy. }
    rewrite write_resolve_step, (descend_found _ _ Hk Hcc).
    now rewrite (IH c u Hrest Hu Hne Hw).
Qed.

(** X26.  In the file backend, with an array stored at a path, the key made
    of that path and the segment "length" reads and writes the length of the
    array: get returns the number of its elements; set with a number from 0
    to 2^32 - 1 cuts the stored array to that many elements, or fills it up
    with null; push reports a failure and leaves the file as it was. *)
Theorem length_below_array (host : string -> bool) (js : JsonDatabase.State)
    (path : string) (l : list Value) (n : Z) (v : Value) :
  JsonDatabase.connected js = true ->
  path <> "" ->
  existsb host (split_dot path) = false ->
  host "length" = false ->
  JsonDatabase.get host js path = Returned Done (AValue (Some (VArr l))) js ->
  (0 <= n < 4294967296)%Z ->
  let key := (path ++ ".length")%string in
  JsonDatabase.get host js key
  = Returned Done (AValue (Some (VNum (Z.of_nat (List.length l))))) js
  /\ JsonDatabase.push host js key (Some v) = Returned Failed AVoid js
  /\ exists js',
       JsonDatabase.set host js key (Some (VNum n)) = Returned Done AVoid js'
       /\ JsonDatabase.get host js' path
          = Returned Done (AValue (Some (VArr (resize (Z.to_nat n) l)))) js'.
Proof.
  intros Hj Hp Hh Hlen Hget Hn key.
  assert (key <> "") as Hk.
  { subst key. destruct path; [easy | discriminate]. }
  assert (split_dot key = split_dot path ++ ["length"]) as Hsplit.
  { subst key. apply (split_dot_app path "length"). }
  assert (existsb host (split_dot key) = false) as Hh'.
  { rewrite Hsplit, existsb_app, Hh. simpl. now rewrite Hlen. }
  pose proof (split_dot_nonempty path) as Hne.
  rewrite json_get_unfold in Hget by assumption.
  destruct (JsonDatabase.get_path _ _) as [u| |] eqn:E; try discriminate.
  injection Hget as ->.
  apply get_path_getNestedValue in E; [|reflexivity].
  assert (array_index "length" = None) as Hix by reflexivity.
  split; [|split].
  - rewrite json_get_unfold, Hsplit by assumption.
    assert (MongoDatabase.getNestedValue
              (VObj (JsonDatabase.ReadDatabase js))
              (split_dot path ++ ["length"])
            = Some (VNum (Z.of_nat (List.length l)))) as Hg.
    { clear - E. revert E.
      generalize (VObj (JsonDatabase.ReadDatabase js)) as cur.
      induction (split_dot path) as [|k rest IH]; intros cur E.
      - now injection E as ->.
      - apply getNestedValue_first in E as (Hc & c & Hk & Hrest).
        simpl app. rewrite getNestedValue_step, Hc, Hk. now apply IH. }
    now rewrite (getNestedValue_get_path _ _ Hg).
  - rewrite json_push_unfold, Hsplit by assumption.
    now rewrite (@write_under_stop (final_push v) (split_dot path) ["length"]
                   Failed _ _ E eq_refl ltac:(discriminate) eq_refl).
  - assert (write_resolve (final_set (VNum n)) (VArr l) ["length"]
            = Ok (VArr (resize (Z.to_nat n) l))) as Hw.
    { simpl. unfold final_set. simpl.
      destruct Hn as [Hlo Hhi].
      now rewrite (proj2 (Z.leb_le 0 n) Hlo), (proj2 (Z.ltb_lt _ _) Hhi). }
    destruct (@write_under (final_set (VNum n)) (split_dot path) ["length"]
                _ _ _ E eq_refl ltac:(discriminate) Hw)
      as (cur' & Hw' & Hg & Ho).
    destruct (Ho _ Hne eq_refl) as [data' ->].
    exists (JsonDatabase.WriteDatabase js data').
    assert (JsonDatabase.connected (JsonDatabase.WriteDatabase js data') = true)
      as Hj' by exact Hj.
    rewrite json_set_unfold, Hsplit, Hw' by assumption.
    split; [reflexivity|].
    rewrite json_get_unfold by assumption.
    change (JsonDatabase.ReadDatabase (JsonDatabase.WriteDatabase js data'))
      with data'.
    now rewrite (getNestedValue_get_path _ _ (Hg eq_refl)).
Qed.

Lemma length_below_array_witness :
  let js :=
    JsonDatabase.mkState true
      (Some [("user", VObj [("tags", VArr [VStr "x"; VStr "y"; VStr "z"])])]) in
  JsonDatabase.get object_prototype js "user.tags.length"
  = Returned Done (AValue (Some (VNum 3))) js
  /\ JsonDatabase.push object_prototype js "user.tags.length" (Some (VStr "w"))
     = Returned Failed AVoid js
  /\ exists js',
       JsonDatabase.set object_prototype js "user.tags.length" (Some (VNum 1))
       = Returned Done AVoid js'
       /\ JsonDatabase.get object_prototype js' "user.tags"
          = Returned Done (AValue (Some (VArr [VStr "x"]))) js'.
Proof.
  intros js.
  assert ("user.tags" <> "")%string as Hp by discriminate.
  assert (0 <= 1 < 4294967296)%Z as Hn by lia.
  exact (@length_below_array object_prototype js "user.tags"
           [VStr "x"; VStr "y"; VStr "z"] 1 (VStr "w")
           eq_refl Hp eq_refl eq_refl eq_refl Hn).
Defined.

(** ** The rate limiter *)

Lemma lookup_remove_key_other (A : Type) k k' (fs : list (string * A)) :
  String.eqb k k' = false -> lookup k (remove_key k' fs) = lookup k fs.
Proof.
  intro E. unfold remove_key. induction fs as [|[k0 y] fs IH]; simpl; auto.
  destruct (String.eqb k' k0) eqn:E0; simpl.
  - apply String.eqb_eq in E0. subst k0. now rewrite E.
  - now rewrite IH.
Qed.

Lemma timestamps_of_log o store now ip :
  RateLimiter.timestamps_of o store now ip
  = filter (RateLimiter.recent now (RateLimiter.windowMs o)) (log_of store ip)
    ++ [now].
Proof.
  unfold RateLimiter.timestamps_of, log_of.
  destruct (lookup ip store) eqn:E.
  - now rewrite E.
  - now rewrite lookup_upsert_same.
Qed.

Lemma handler_log o store now ip :
  lookup ip (fst (fst (RateLimiter.handler o store now ip)))
  = Some (RateLimiter.timestamps_of o store now ip).
Proof. unfold RateLimiter.handler. simpl. apply lookup_upsert_same. Qed.

Lemma handler_other o store now ip ip' :
  String.eqb ip' ip = false ->
  lookup ip' (fst (fst (RateLimiter.handler o store now ip)))
  = lookup ip' store.
Proof.
  intro E. unfold RateLimiter.handler. simpl.
  rewrite lookup_upsert_other by assumption.
  destruct (lookup ip store); [reflexivity|].
  now rewrite lookup_upsert_other.
Qed.

Lemma handler_verdict o store now ip :
  snd (RateLimiter.handler o store now ip) = RateLimiter.Next
  <-> (Z.of_nat (List.length
         (filter (RateLimiter.recent now (RateLimiter.windowMs o))
            (log_of store ip))) < RateLimiter.limit o)%Z.
Proof.
  unfold RateLimiter.handler. simpl. rewrite timestamps_of_log.
  rewrite length_app. simpl List.length.
  destruct (Z.ltb_spec (RateLimiter.limit o)
              (Z.of_nat (List.length
                 (filter (RateLimiter.recent now (RateLimiter.windowMs o))
                    (log_of store ip)) + 1))) as [Hlt|Hge];
    split; intro Hv; try discriminate; try reflexivity; lia.
Qed.

Lemma serve_app o store reqs reqs' :
  serve o store (reqs ++ reqs') = serve o (serve o store reqs) reqs'.
Proof.
  revert store. induction reqs as [|[ip now] reqs IH]; intro store; simpl; auto.
Qed.

Lemma clock_app times t :
  clock (times ++ [t]) = true ->
  clock times = true /\ forall t', In t' times -> (t' <= t)%Z.
Proof.
  induction times as [|t0 times IH]; simpl.
  - intros _. split; [reflexivity | contradiction].
  - intro H. apply andb_prop in H as [Hall Hc].
    destruct (IH Hc) as [Hc' Hle]. rewrite forallb_app in Hall.
    apply andb_prop in Hall as [Hall Ht]. split.
    + now rewrite Hall, Hc'.
    + intros t' [<- | HIn]; [|now apply Hle].
      simpl in Ht. rewrite andb_true_r in Ht. now apply Z.leb_le.
Qed.

Lemma clock_later times t now :
  clock (times ++ [t]) = true -> (t <= now)%Z ->
  clock (times ++ [now]) = true.
Proof.
  intros Hc Ht. induction times as [|a l IH]; simpl in *; [reflexivity|].
  apply andb_prop in Hc as [Hall Hc].
  rewrite forallb_app in Hall. apply andb_prop in Hall as [Hall Hat].
  simpl in Hat. rewrite andb_true_r in Hat. apply Z.leb_le in Hat.
  rewrite forallb_app, Hall, (IH Hc). simpl.
  rewrite (proj2 (Z.leb_le a now)) by lia. reflexivity.
Qed.

Lemma filter_recent_later (now now' w : Z) (l : list Z) :
  (now' <= now)%Z ->
  filter (RateLimiter.recent now w) (filter (RateLimiter.recent now' w) l)
  = filter (RateLimiter.recent now w) l.
Proof.
  intro Hle. induction l as [|t l IH]; simpl; auto.
  destruct (RateLimiter.recent now' w t) eqn:E1; simpl.
  - now rewrite IH.
  - rewrite IH. destruct (RateLimiter.recent now w t) eqn:E2; auto.
    unfold RateLimiter.recent in E1, E2.
    apply Z.ltb_lt in E2. apply Z.ltb_ge in E1. lia.
Qed.

Lemma of_address_app ip reqs reqs' :
  of_address ip (reqs ++ reqs') = of_address ip reqs ++ of_address ip reqs'.
Proof. unfold of_address. now rewrite filter_app, map_app. Qed.

(** What the log of an address holds after a run of requests, as far as a
    later request can tell. *)
Lemma serve_log o store ip : forall reqs now,
  lookup ip store = None ->
  clock (map snd reqs ++ [now]) = true ->
  filter (RateLimiter.recent now (RateLimiter.windowMs o))
    (log_of (serve o store reqs) ip)
  = filter (RateLimiter.recent now (RateLimiter.windowMs o))
      (of_address ip reqs).
Proof.
  intros reqs. induction reqs as [|[ip' t] reqs IH] using rev_ind;
    intros now Hnone Hclock.
  - simpl. unfold log_of. now rewrite Hnone.
  - rewrite serve_app, of_address_app.
    change (serve o (serve o store reqs) [(ip', t)])
      with (fst (fst (RateLimiter.handler o (serve o store reqs) t ip'))).
    rewrite map_app in Hclock. simpl map in Hclock.
    apply clock_app in Hclock as [Hclock Hle].
    assert (t <= now)%Z as Ht by (apply Hle, in_or_app; right; now left).
    assert (clock (map snd reqs ++ [now]) = true) as Hclock'
      by exact (clock_later _ Hclock Ht).
    specialize (IH now Hnone Hclock').
    unfold log_of at 1.
    destruct (String.eqb ip ip') eqn:E.
    + apply String.eqb_eq in E. subst ip'.
      rewrite handler_log, timestamps_of_log.
      replace (of_address ip [(ip, t)]) with [t]
        by (unfold of_address; simpl; now rewrite String.eqb_refl).
      rewrite !filter_app, filter_recent_later by assumption.
      now rewrite IH.
    + rewrite handler_other by assumption.
      fold (log_of (serve o store reqs) ip).
      replace (of_address ip [(ip', t)]) with (@nil Z)
        by (unfold of_address; simpl; now rewrite E).
      now rewrite app_nil_r.
Qed.

(** X17.  The limiter counts in a sliding window, each address on its own:
    with a clock that never goes back, a request of an address that the
    store did not hold at the start is let through exactly when fewer than
    [limit] earlier requests of that address, let through or turned down,
    lie less than [windowMs] before it; and the log kept for the address is
    then those requests followed by this one. *)
Theorem sliding_window (o : RateLimiter.Options) (store : RateLimiter.Store)
    (requests : list (string * Z)) (ip : string) (now : Z) :
  lookup ip store = None ->
  clock (map snd requests ++ [now]) = true ->
  let earlier :=
    filter (RateLimiter.recent now (RateLimiter.windowMs o))
      (of_address ip requests) in
  let after := RateLimiter.handler o (serve o store requests) now ip in
  (snd after = RateLimiter.Next
   <-> (Z.of_nat (List.length earlier) < RateLimiter.limit o)%Z)
  /\ lookup ip (fst (fst after)) = Some (earlier ++ [now]).
Proof.
  intros Hnone Hclock earlier after. subst earlier after. split.
  - rewrite handler_verdict. now rewrite serve_log.
  - rewrite handler_log, timestamps_of_log. now rewrite serve_log.
Qed.

Lemma sliding_window_witness :
  let o := RateLimiter.mkOptions 1000 2 RateLimiter.Draft6 true in
  let requests := [("a", 0); ("b", 100); ("a", 200); ("a", 300)]%Z in
  (snd (RateLimiter.handler o (serve o [] requests) 1100 "a")
   = RateLimiter.Next <-> (2 < 2)%Z)
  /\ lookup "a" (fst (fst (RateLimiter.handler o (serve o [] requests) 1100 "a")))
     = Some [200; 300; 1100]%Z.
Proof.
  intros o requests.
  exact (@sliding_window o [] requests "a" 1100%Z eq_refl eq_refl).
Defined.

Lemma first_logged (now w : Z) (log : list Z) :
  (0 < w)%Z -> (forall t, In t log -> (t <= now)%Z) ->
  let first := hd now (filter (RateLimiter.recent now w) log ++ [now]) in
  (first <= now < first + w)%Z.
Proof.
  intros Hw Hle first. subst first.
  destruct (filter (RateLimiter.recent now w) log) as [|t l] eqn:E; simpl.
  - lia.
  - assert (In t (filter (RateLimiter.recent now w) log)) as HIn
      by (rewrite E; now left).
    apply filter_In in HIn as [HIn Hr]. unfold RateLimiter.recent in Hr.
    apply Z.ltb_lt in Hr. specialize (Hle t HIn). lia.
Qed.

(** X18.  The headers of the limiter, for a positive window and a log that
    holds no time after the request.  The remaining count is never negative
    and is 0 on every request that is turned down; the reset of the RateLimit
    header lies between 1 second and the window rounded up to seconds; the
    instant of X-RateLimit-Reset is after the request and less than a window
    and a second after it. *)
Theorem limiter_headers (o : RateLimiter.Options) (store : RateLimiter.Store)
    (now : Z) (ip : string) :
  (0 < RateLimiter.windowMs o)%Z ->
  (forall t, In t (log_of store ip) -> (t <= now)%Z) ->
  let headers := snd (fst (RateLimiter.handler o store now ip)) in
  let verdict := snd (RateLimiter.handler o store now ip) in
  (forall r, lookup "X-RateLimit-Remaining" headers
             = Some (RateLimiter.HNumber r) ->
             (0 <= r)%Z /\ (verdict = RateLimiter.TooManyRequests -> r = 0%Z))
  /\ (forall l r reset,
         lookup "RateLimit" headers
         = Some (RateLimiter.HRateLimit l r reset) ->
         l = RateLimiter.limit o
         /\ (0 <= r)%Z
         /\ (verdict = RateLimiter.TooManyRequests -> r = 0%Z)
         /\ (1 <= reset
             <= RateLimiter.ceil_thousandth (RateLimiter.windowMs o))%Z)
  /\ (forall x, lookup "X-RateLimit-Reset" headers
                = Some (RateLimiter.HNumber x) ->
                (now < x * 1000 < now + RateLimiter.windowMs o + 1000)%Z).
Proof.
  intros Hw Hle headers verdict. subst headers verdict.
  unfold RateLimiter.handler. cbv zeta. cbn [fst snd].
  rewrite timestamps_of_log.
  pose proof (first_logged (log_of store ip) Hw Hle) as Hfirst.
  cbv zeta in Hfirst.
  set (first := hd now _) in *.
  set (count := Z.of_nat _).
  assert ((if (RateLimiter.limit o <? count)%Z
           then RateLimiter.TooManyRequests else RateLimiter.Next)
          = RateLimiter.TooManyRequests ->
          Z.max 0 (RateLimiter.limit o - count) = 0%Z) as Hzero.
  { destruct (Z.ltb_spec (RateLimiter.limit o) count);
      [lia | discriminate]. }
  unfold RateLimiter.ceil_thousandth.
  destruct (RateLimiter.legacyHeaders o), (RateLimiter.standardHeaders o);
    simpl; repeat split; intros;
    repeat match goal with
           | H : Some _ = Some _ |- _ => injection H as; subst
           | H : None = Some _ |- _ => discriminate H
           end;
    try (apply Hzero; assumption);
    try solve [Z.div_mod_to_equations; lia].
Qed.

Lemma limiter_headers_witness :
  let o := RateLimiter.mkOptions 60000 1 RateLimiter.Draft7 true in
  let store := [("a", [1000; 2000]%Z)] in
  lookup "RateLimit" (snd (fst (RateLimiter.handler o store 3000 "a")))
  = Some (RateLimiter.HRateLimit 1 0 58)
  /\ (1 <= 58 <= RateLimiter.ceil_thousandth 60000)%Z
  /\ (3000 < 61 * 1000 < 3000 + 60000 + 1000)%Z.
Proof.
  intros o store.
  assert (0 < RateLimiter.windowMs o)%Z as Hw by reflexivity.
  assert (forall t, In t (log_of store "a") -> (t <= 3000)%Z) as Hle
    by (simpl; intros t [<- | [<- | []]]; lia).
  destruct (@limiter_headers o store 3000%Z "a" Hw Hle)
    as (_ & Hstandard & Hlegacy).
  split; [reflexivity|]. split.
  - apply (Hstandard 1%Z 0%Z 58%Z). reflexivity.
  - apply (Hlegacy 61%Z). reflexivity.
Defined.

(** The log that the sweep leaves for an address. *)
Lemma lookup_sweeps now w ip : forall (entries acc : RateLimiter.Store),
  unique_keys (map fst entries) = true ->
  lookup ip (fold_left (RateLimiter.sweep now w) entries acc)
  = match lookup ip entries with
    | Some log =>
        match filter (RateLimiter.recent now w) log with
        | [] => None
        | valid => Some valid
        end
    | None => lookup ip acc
    end.
Proof.
  induction entries as [|[k log] entries IH]; intros acc U; simpl; auto.
  simpl in U. apply andb_prop in U as [Hk U].
  rewrite (IH _ U).
  destruct (String.eqb ip k) eqn:E.
  - apply String.eqb_eq in E. subst k.
    assert (lookup ip entries = None) as ->.
    { clear - Hk. induction entries as [|[k' l'] entries IH]; simpl in *; auto.
      destruct (String.eqb ip k'); [discriminate | auto]. }
    unfold RateLimiter.sweep. simpl.
    destruct (filter (RateLimiter.recent now w) log).
    + apply lookup_remove_key_same.
    + apply lookup_upsert_same.
  - destruct (lookup ip entries); auto.
    unfold RateLimiter.sweep. simpl.
    destruct (filter (RateLimiter.recent now w) log).
    + now apply lookup_remove_key_other.
    + now apply lookup_upsert_other.
Qed.

Lemma cleanup_log now now' w ip store :
  unique_keys (map fst store) = true -> (now' <= now)%Z ->
  filter (RateLimiter.recent now w)
    (log_of (RateLimiter.cleanup now' w store) ip)
  = filter (RateLimiter.recent now w) (log_of store ip).
Proof.
  intros U Hle. unfold log_of, RateLimiter.cleanup.
  rewrite lookup_sweeps by assumption.
  destruct (lookup ip store) as [log|]; [|reflexivity].
  rewrite <- (filter_recent_later w log Hle).
  now destruct (filter (RateLimiter.recent now' w) log).
Qed.

(** X19.  The periodic sweep of a limiter is not seen by its handler: with a
    clock that never goes back, a request gets the same verdict and the same
    headers, and leaves the same log for its address, whether or not the
    sweep ran before it. *)
Theorem cleanup_unseen (o : RateLimiter.Options) (store : RateLimiter.Store)
    (swept now : Z) (ip : string) :
  unique_keys (map fst store) = true ->
  (swept <= now)%Z ->
  let before := RateLimiter.handler o store now ip in
  let after :=
    RateLimiter.handler o
      (RateLimiter.cleanup swept (RateLimiter.windowMs o) store) now ip in
  snd after = snd before
  /\ snd (fst after) = snd (fst before)
  /\ lookup ip (fst (fst after)) = lookup ip (fst (fst before)).
Proof.
  intros U Hle before after. subst before after.
  assert (RateLimiter.timestamps_of o
            (RateLimiter.cleanup swept (RateLimiter.windowMs o) store) now ip
          = RateLimiter.timestamps_of o store now ip) as Hsame.
  { rewrite !timestamps_of_log. now rewrite cleanup_log. }
  rewrite !handler_log, Hsame.
  unfold RateLimiter.handler. cbv zeta. cbn [fst snd]. rewrite Hsame.
  auto.
Qed.

Lemma cleanup_unseen_witness :
  let o := RateLimiter.mkOptions 1000 1 RateLimiter.Draft7 true in
  let store := [("a", [0; 500]%Z); ("b", [100]%Z)] in
  RateLimiter.cleanup 1200 1000 store = [("a", [500]%Z)]
  /\ snd (RateLimiter.handler o (RateLimiter.cleanup 1200 1000 store) 1300 "a")
     = snd (RateLimiter.handler o store 1300 "a").
Proof.
  intros o store. split; [reflexivity|].
  assert (1200 <= 1300)%Z as Hle by lia.
  exact (proj1 (@cleanup_unseen o store 1200%Z 1300%Z "a" eq_refl Hle)).
Defined.

(** X20.  All limiters write one store: a request that one limiter handled is
    counted by any other limiter whose window reaches back to it, so a
    limiter of limit 1 or less turns down the first request it sees from an
    address that another limiter has just served. *)
Theorem limiters_share_log (o1 o2 : RateLimiter.Options)
    (store : RateLimiter.Store) (now1 now2 : Z) (ip : string) :
  (now2 - now1 < RateLimiter.windowMs o2)%Z ->
  let store1 := fst (fst (RateLimiter.handler o1 store now1 ip)) in
  In now1 (RateLimiter.timestamps_of o2 store1 now2 ip)
  /\ (RateLimiter.limit o2 <= 1 ->
      snd (RateLimiter.handler o2 store1 now2 ip)
      = RateLimiter.TooManyRequests)%Z.
Proof.
  intros Hin store1. subst store1.
  assert (In now1
            (filter (RateLimiter.recent now2 (RateLimiter.windowMs o2))
               (log_of (fst (fst (RateLimiter.handler o1 store now1 ip))) ip)))
    as HIn.
  { apply filter_In. split.
    - unfold log_of. rewrite handler_log, timestamps_of_log.
      apply in_or_app. right. now left.
    - unfold RateLimiter.recent. now apply Z.ltb_lt. }
  split.
  - rewrite timestamps_of_log. apply in_or_app. now left.
  - intro Hl.
    destruct (snd (RateLimiter.handler o2
                     (fst (fst (RateLimiter.handler o1 store now1 ip)))
                     now2 ip)) eqn:E; [|reflexivity].
    apply handler_verdict in E.
    destruct (filter (RateLimiter.recent now2 (RateLimiter.windowMs o2))
                (log_of (fst (fst (RateLimiter.handler o1 store now1 ip))) ip));
      [contradiction|].
    simpl List.length in E. lia.
Qed.

Lemma limiters_share_log_witness :
  let o1 := RateLimiter.mkOptions 1000 100 RateLimiter.Draft6 true in
  let o2 := RateLimiter.mkOptions 60000 1 RateLimiter.Draft6 true in
  snd (RateLimiter.handler o2
         (fst (fst (RateLimiter.handler o1 [] 0 "a"))) 10 "a")
  = RateLimiter.TooManyRequests.
Proof.
  intros o1 o2.
  assert (10 - 0 < RateLimiter.windowMs o2)%Z as Hin by reflexivity.
  assert (RateLimiter.limit o2 <= 1)%Z as Hl by (simpl; lia).
  exact (proj2 (@limiters_share_log o1 o2 [] 0%Z 10%Z "a" Hin) Hl).
Defined.

(** ** The text of a captcha and its check *)

Lemma chars_of_app s s' : chars_of (s ++ s') = chars_of s ++ chars_of s'.
Proof. induction s as [|c s IH]; simpl; [reflexivity | now rewrite IH]. Qed.

Lemma chars_of_length s : List.length (chars_of s) = String.length s.
Proof. induction s as [|c s IH]; simpl; auto. Qed.

(** What holds of every character of [Captcha.chars]. *)
Lemma chars_table :
  forallb
    (fun k =>
       match String.get k Captcha.chars with
       | Some c =>
           drawn c && negb (ambiguous c) && negb (Captcha.white c)
           && Ascii.eqb (Captcha.upper c) c
       | None => false
       end)
    (seq 0 34) = true.
Proof. vm_compute. reflexivity. Qed.

Lemma pick_drawn randomBytes i b :
  nth_error randomBytes i = Some b ->
  exists c,
    Captcha.pick randomBytes i = String c ""
    /\ drawn c = true /\ ambiguous c = false
    /\ Captcha.white c = false /\ Captcha.upper c = c.
Proof.
  intro Hb. unfold Captcha.pick. rewrite Hb.
  change (N.of_nat (String.length Captcha.chars)) with 34%N.
  pose proof (N.mod_lt b 34 ltac:(discriminate)) as Hlt.
  assert (In (N.to_nat (b mod 34)) (seq 0 34)) as HIn.
  { apply in_seq. split; [apply Nat.le_0_l|].
    change (0 + 34)%nat with (N.to_nat 34).
    apply Nat.compare_lt_iff. rewrite <- N2Nat.inj_compare. exact Hlt. }
  pose proof (proj1 (forallb_forall _ _) chars_table _ HIn) as Hk.
  cbv beta in Hk.
  destruct (String.get (N.to_nat (b mod 34)) Captcha.chars) as [c|];
    [|discriminate].
  exists c. split; [reflexivity|].
  apply andb_prop in Hk as [Hk Hu]. apply andb_prop in Hk as [Hk Hw].
  apply andb_prop in Hk as [Hd Ha].
  apply negb_true_iff in Ha. apply negb_true_iff in Hw.
  apply Ascii.eqb_eq in Hu. auto.
Qed.

Lemma text_from_drawn randomBytes : forall n i result,
  i + n <= List.length randomBytes ->
  exists l,
    chars_of (Captcha.text_from randomBytes i n result)
    = chars_of result ++ l
    /\ List.length l = n
    /\ forall c, In c l ->
         drawn c = true /\ ambiguous c = false
         /\ Captcha.white c = false /\ Captcha.upper c = c.
Proof.
  induction n as [|n IH]; intros i result Hlen; simpl.
  - exists []. rewrite app_nil_r.
    split; [reflexivity|]. split; [reflexivity|]. intros c [].
  - destruct (nth_error randomBytes i) as [b|] eqn:Hb;
      [|apply nth_error_None in Hb; lia].
    destruct (pick_drawn _ _ Hb) as (c & Hp & Hc).
    destruct (IH (S i) (result ++ Captcha.pick randomBytes i)%string ltac:(lia))
      as (l & Hl & Hn & Hall).
    exists (c :: l). rewrite Hl, Hp, chars_of_app, <- app_assoc.
    split; [reflexivity|]. split; [simpl; now rewrite Hn|].
    intros c' [<- | HIn]; [exact Hc | now apply Hall].
Qed.

(** X21.  The text of a captcha has the length asked for, and each of its
    characters is one of [chars]: a capital letter or a digit, never one of
    I, O, S, 0, 1 and 5. *)
Theorem captcha_text_alphabet (length : nat) (randomBytes : list N) :
  List.length randomBytes = length ->
  let text := Captcha.generateSecureCaptchaText length randomBytes in
  String.length text = length
  /\ forall c, In c (chars_of text) ->
       In c (chars_of Captcha.chars) /\ ambiguous c = false.
Proof.
  intros Hlen text. subst text. unfold Captcha.generateSecureCaptchaText.
  destruct (@text_from_drawn randomBytes length 0 "" ltac:(simpl; lia))
    as (l & Hl & Hn & Hall).
  simpl in Hl. split.
  - now rewrite <- chars_of_length, Hl.
  - intros c HIn. rewrite Hl in HIn. destruct (Hall c HIn) as (Hd & Ha & _).
    split; [|exact Ha].
    unfold drawn in Hd. apply existsb_exists in Hd as (c' & HIn' & E).
    apply Ascii.eqb_eq in E. now subst c'.
Qed.

Lemma captcha_text_alphabet_witness :
  String.length (Captcha.generateSecureCaptchaText 3 [0; 255; 34]%N) = 3
  /\ forall c,
       In c (chars_of (Captcha.generateSecureCaptchaText 3 [0; 255; 34]%N)) ->
       In c (chars_of Captcha.chars) /\ ambiguous c = false.
Proof.
  exact (@captcha_text_alphabet 3 [0; 255; 34]%N eq_refl).
Defined.

(** X22.  The difficulty asked of captchaGeneratorWithDifficulty changes
    nothing: for easy, medium and hard alike the text has 6 characters, not
    the 4 or 8 of the table of settings. *)
Theorem captcha_difficulty_unused (difficulty : Captcha.Difficulty)
    (randomBytes : list N) :
  List.length randomBytes = 6 ->
  String.length (Captcha.captchaGeneratorWithDifficulty difficulty randomBytes)
  = 6
  /\ Captcha.captchaGeneratorWithDifficulty difficulty randomBytes
     = Captcha.captchaGeneratorWithDifficulty Captcha.medium randomBytes.
Proof.
  intro Hlen. split; [|reflexivity].
  unfold Captcha.captchaGeneratorWithDifficulty, Captcha.captchaGenerator.
  cbv zeta.
  destruct (@text_from_drawn randomBytes 6 0 "" ltac:(simpl; lia))
    as (l & Hl & Hn & _).
  unfold Captcha.generateSecureCaptchaText.
  now rewrite <- chars_of_length, Hl.
Qed.

Lemma captcha_difficulty_unused_witness :
  String.length
    (Captcha.captchaGeneratorWithDifficulty Captcha.hard [1; 2; 3; 4; 5; 6]%N)
  = 6
  /\ fst (Captcha.settings Captcha.hard) = 8.
Proof.
  split; [|reflexivity].
  exact (proj1 (@captcha_difficulty_unused Captcha.hard [1; 2; 3; 4; 5; 6]%N
                  eq_refl)).
Defined.

Lemma toUpperCase_fixed s :
  (forall c, In c (chars_of s) -> Captcha.upper c = c) ->
  Captcha.toUpperCase s = s.
Proof.
  induction s as [|c s IH]; simpl; intro H; [reflexivity|].
  rewrite (H c) by now left. rewrite IH; auto.
Qed.

Lemma trim_fixed s :
  (forall c, In c (chars_of s) -> Captcha.white c = false) ->
  Captcha.trim s = s.
Proof.
  intro H. unfold Captcha.trim.
  assert (Captcha.trimStart s = s) as ->.
  { destruct s as [|c s]; simpl; [reflexivity|].
    now rewrite (H c) by now left. }
  induction s as [|c s IH]; simpl; [reflexivity|].
  rewrite IH by (intros c' HIn; apply H; now right).
  destruct s; [|reflexivity].
  now rewrite (H c) by now left.
Qed.

(** X23.  verifyCaptcha and the generator: an input of ASCII characters is
    accepted for a generated text of one character or more exactly when the
    input, put in capitals and with the blanks at its ends dropped, is the
    text; so the text itself is accepted. *)
Theorem verify_generated (length : nat) (randomBytes : list N)
    (userInput : string) :
  List.length randomBytes = length ->
  0 < length ->
  ascii_text userInput = true ->
  let text := Captcha.generateSecureCaptchaText length randomBytes in
  (Captcha.verifyCaptcha userInput text = true
   <-> Captcha.trim (Captcha.toUpperCase userInput) = text)
  /\ Captcha.verifyCaptcha text text = true.
Proof.
  intros Hlen Hpos _ text.
  destruct (@text_from_drawn randomBytes length 0 "" ltac:(simpl; lia))
    as (l & Hl & Hn & Hall).
  fold (Captcha.generateSecureCaptchaText length randomBytes) in Hl.
  fold text in Hl. simpl in Hl.
  assert (Captcha.toUpperCase text = text) as Hup.
  { apply toUpperCase_fixed. intros c HIn. rewrite Hl in HIn.
    now apply Hall. }
  assert (Captcha.trim text = text) as Htrim.
  { apply trim_fixed. intros c HIn. rewrite Hl in HIn. now apply Hall. }
  assert (String.eqb text "" = false) as Hne.
  { apply String.eqb_neq. intro E.
    assert (String.length text = length) as Hlength
      by now rewrite <- chars_of_length, Hl.
    rewrite E in Hlength. simpl in Hlength. lia. }
  unfold Captcha.verifyCaptcha. rewrite Hne, Hup, Htrim, String.eqb_refl.
  split; [|reflexivity].
  rewrite orb_false_r.
  destruct (String.eqb userInput "") eqn:Hu.
  - apply String.eqb_eq in Hu. subst userInput. split; [discriminate|].
    simpl. intro E. rewrite <- E in Hne. discriminate.
  - apply String.eqb_eq.
Qed.

Lemma verify_generated_witness :
  (Captcha.verifyCaptcha " abc2 " (Captcha.generateSecureCaptchaText 4 [0; 1; 2; 23]%N)
   = true
   <-> Captcha.trim (Captcha.toUpperCase " abc2 ")
       = Captcha.generateSecureCaptchaText 4 [0; 1; 2; 23]%N)
  /\ Captcha.verifyCaptcha (Captcha.generateSecureCaptchaText 4 [0; 1; 2; 23]%N)
       (Captcha.generateSecureCaptchaText 4 [0; 1; 2; 23]%N) = true.
Proof.
  assert (0 < 4) as Hpos by lia.
  exact (@verify_generated 4 [0; 1; 2; 23]%N " abc2 " eq_refl Hpos eq_refl).
Defined.

Lemma draw_table :
  forallb
    (fun c =>
       if existsb (Ascii.eqb c) ["2"; "4"; "6"; "8"]%char
       then (bytes_giving c =? 14)%nat
       else (7 <=? bytes_giving c)%nat && (bytes_giving c <=? 8)%nat)
    (chars_of Captcha.chars) = true.
Proof. vm_compute. reflexivity. Qed.

(** X24.  The draw of a character is uneven.  Of the 256 values of a byte,
    14 give each of the digits 2, 4, 6 and 8, which [chars] holds twice, and
    7 or 8 give every other character. *)
Theorem captcha_draw_uneven (c : ascii) :
  drawn c = true ->
  if existsb (Ascii.eqb c) ["2"; "4"; "6"; "8"]%char
  then bytes_giving c = 14
  else 7 <= bytes_giving c <= 8.
Proof.
  intro Hd. unfold drawn in Hd.
  apply existsb_exists in Hd as (c' & HIn & E).
  apply Ascii.eqb_eq in E. subst c'.
  pose proof (proj1 (forallb_forall _ _) draw_table c HIn) as H.
  cbv beta in H.
  destruct (existsb (Ascii.eqb c) ["2"; "4"; "6"; "8"]%char).
  - now apply Nat.eqb_eq.
  - apply andb_prop in H as [H1 H2].
    split; [now apply Nat.leb_le | now apply Nat.leb_le].
Qed.

Lemma captcha_draw_uneven_witness :
  bytes_giving "8" = 14 /\ 7 <= bytes_giving "Z" <= 8.
Proof.
  split.
  - exact (@captcha_draw_uneven "8"%char eq_refl).
  - exact (@captcha_draw_uneven "Z"%char eq_refl).
Defined.

(** ** add, subtract and push of the remote backend *)

Lemma mongo_set_top_kept (host : string -> bool) (ms : MongoDatabase.State)
    (key : string) (v old : Value) :
  MongoDatabase.checkConnection ms = true ->
  key <> "" ->
  host key = false ->
  split_dot key = [key] ->
  lookup key (MongoDatabase.records ms) = Some old ->
  truthy old = true ->
  MongoDatabase.set host ms key (Some v) = Returned Done AVoid ms.
Proof.
  intros Hm Hk Hh Hsplit Hold Ht.
  assert (existsb host (split_dot key) = false) as Hh'.
  { rewrite Hsplit. simpl. now rewrite Hh. }
  rewrite mongo_set_unfold, Hsplit by assumption.
  rewrite (@mongo_set_kept (MongoDatabase.records ms) key [] old v
             Hk Hold Ht eq_refl).
  simpl. now rewrite mongo_state_eta.
Qed.

Lemma mongo_get_record (host : string -> bool) (ms : MongoDatabase.State)
    (key : string) (old : Value) :
  MongoDatabase.checkConnection ms = true ->
  key <> "" ->
  host key = false ->
  split_dot key = [key] ->
  lookup key (MongoDatabase.records ms) = Some old ->
  MongoDatabase.get host ms key = Returned Done (AValue (Some old)) ms.
Proof.
  intros Hm Hk Hh Hsplit Hold.
  assert (existsb host (split_dot key) = false) as Hh'.
  { rewrite Hsplit. simpl. now rewrite Hh. }
  rewrite mongo_get_unfold, Hsplit by assumption.
  simpl. now rewrite Hold.
Qed.

(** X25.  In the remote backend a key of one segment cannot be updated once
    its record exists: add and subtract on a stored number other than 0, and
    push on a stored array, report success and leave the store as it was, so
    get still returns the old number or the old array. *)
Theorem mongo_updates_lost (host : string -> bool) (ms : MongoDatabase.State)
    (key : string) :
  MongoDatabase.checkConnection ms = true ->
  key <> "" ->
  host key = false ->
  split_dot key = [key] ->
  (forall m n, lookup key (MongoDatabase.records ms) = Some (VNum m) ->
               m <> 0%Z ->
               MongoDatabase.add host ms key n = Returned Done AVoid ms
               /\ MongoDatabase.subtract host ms key n
                  = Returned Done AVoid ms)
  /\ (forall l v, lookup key (MongoDatabase.records ms) = Some (VArr l) ->
                  MongoDatabase.push host ms key (Some v)
                  = Returned Done AVoid ms).
Proof.
  intros Hm Hk Hh Hsplit. split.
  - intros m n Hold Hnz.
    assert (truthy (VNum m) = true) as Ht.
    { simpl. destruct m; [contradiction | reflexivity | reflexivity]. }
    unfold MongoDatabase.add, MongoDatabase.subtract.
    rewrite !mongo_entry by assumption.
    rewrite (@mongo_get_record host ms key (VNum m) Hm Hk Hh Hsplit Hold).
    split;
      apply (@mongo_set_top_kept host ms key _ (VNum m) Hm Hk Hh Hsplit Hold Ht).
  - intros l v Hold.
    unfold MongoDatabase.push. rewrite mongo_entry by assumption.
    rewrite (@mongo_get_record host ms key (VArr l) Hm Hk Hh Hsplit Hold).
    apply (@mongo_set_top_kept host ms key _ (VArr l) Hm Hk Hh Hsplit Hold).
    reflexivity.
Qed.

Lemma mongo_updates_lost_witness :
  let ms := MongoDatabase.mkState true true [("count", VNum 5); ("tags", VArr [VStr "x"])] in
  MongoDatabase.add object_prototype ms "count" 1 = Returned Done AVoid ms
  /\ MongoDatabase.push object_prototype ms "tags" (Some (VStr "y"))
     = Returned Done AVoid ms.
Proof.
  intros ms.
  assert ("count" <> "")%string as Hk1 by discriminate.
  assert ("tags" <> "")%string as Hk2 by discriminate.
  destruct (@mongo_updates_lost object_prototype ms "count" eq_refl Hk1
              eq_refl eq_refl) as [Hadd _].
  destruct (@mongo_updates_lost object_prototype ms "tags" eq_refl Hk2
              eq_refl eq_refl) as [_ Hpush].
  split.
  - apply (Hadd 5%Z 1%Z); [reflexivity | discriminate].
  - apply (Hpush [VStr "x"] (VStr "y")). reflexivity.
Defined.
